(** * Document processor: metrics extraction, recovery parsing, merging

    A shallow embedding of the metrics pipeline of the document processor
    (utils/metricsExtractor.js, utils/optimizationUtils.js,
    utils/documentParser.js, utils/documentGenerator.js,
    pages/api/process-documents.js, pages/api/optimize-process.js).

    Modelling conventions.
    - A JavaScript string is a sequence of 8-bit code units ([string],
      [list ascii] inside the regular-expression matcher).
    - A JavaScript number that holds a count or a number of minutes is an
      [N]; the arithmetic of the source is exact on such values below 2^53.
    - [try]/[catch] is modelled with an explicit result type.
    - Regular expressions are values of type [regex], run by a backtracking
      matcher that follows the ECMAScript matching rules (ordered
      alternation, greedy and lazy repetition with the empty-iteration
      check, captures, look-ahead). *)

From Stdlib Require Import List String Ascii NArith ZArith Lia Bool Arith.
Import ListNotations.

Local Open Scope list_scope.
Local Open Scope bool_scope.
Local Open Scope string_scope.

(** ** Characters *)

Module Chars.

Definition code (c : ascii) : nat := nat_of_ascii c.

Definition between (lo hi : nat) (c : ascii) : bool :=
  Nat.leb lo (code c) && Nat.leb (code c) hi.

Definition is_digit (c : ascii) : bool := between 48 57 c.
Definition is_lower (c : ascii) : bool := between 97 122 c.
Definition is_upper (c : ascii) : bool := between 65 90 c.

(** [\w] : letters, digits and the underscore. *)
Definition is_word (c : ascii) : bool :=
  is_digit c || is_lower c || is_upper c || Nat.eqb (code c) 95.

(** [\s] : white space and line terminators among the 8-bit code units
    (TAB, LF, VT, FF, CR, SP, NBSP). *)
Definition is_space (c : ascii) : bool :=
  between 9 13 c || Nat.eqb (code c) 32 || Nat.eqb (code c) 160.

(** Line terminators, which [.] does not match. *)
Definition is_newline (c : ascii) : bool :=
  Nat.eqb (code c) 10 || Nat.eqb (code c) 13.

(** Canonicalisation used by the [i] flag: the upper-case form.  The
    patterns of the program hold ASCII characters only, so among the
    8-bit code units only the letters a to z matter. *)
Definition canon (c : ascii) : ascii :=
  if is_lower c then ascii_of_nat (code c - 32) else c.

Definition dquote : ascii := ascii_of_nat 34.
Definition squote : ascii := ascii_of_nat 39.

Definition eqb_ci (ci : bool) (a b : ascii) : bool :=
  if ci then Ascii.eqb (canon a) (canon b) else Ascii.eqb a b.

End Chars.

(** ** Regular expressions *)

Module Regex.
Import Chars.

(** Members of a character class [[...]]. *)
Inductive citem : Type :=
| CChar (c : ascii)
| CDigit
| CSpace
| CNotSpace
| CWord.

Inductive regex : Type :=
| REmpty
| RChar (c : ascii)
| RAny
| RSet (neg : bool) (items : list citem)
| RSeq (r1 r2 : regex)
| RAlt (r1 r2 : regex)
| RStar (greedy : bool) (r : regex)
| RGroup (i : nat) (r : regex)
| RBol
| REol
| RLook (r : regex).

(** Derived forms.  None of the patterns of the program puts a capture
    group or a pattern that can match the empty string under [+] or [?]. *)
Definition RPlus (greedy : bool) (r : regex) : regex := RSeq r (RStar greedy r).
Definition ROpt (r : regex) : regex := RAlt r REmpty.

Fixpoint rlit (s : string) : regex :=
  match s with
  | EmptyString => REmpty
  | String c EmptyString => RChar c
  | String c s' => RSeq (RChar c) (rlit s')
  end.

Fixpoint rseq (rs : list regex) : regex :=
  match rs with
  | [] => REmpty
  | [r] => r
  | r :: rs' => RSeq r (rseq rs')
  end.

Fixpoint ralt (r : regex) (rs : list regex) : regex :=
  match rs with
  | [] => r
  | r' :: rs' => RAlt r (ralt r' rs')
  end.

Definition rdigit : regex := RSet false [CDigit].
Definition rspace : regex := RSet false [CSpace].
Definition rword : regex := RSet false [CWord].
Definition rnone_of (s : string) : regex :=
  RSet true (map CChar (list_ascii_of_string s)).
Definition rone_of (s : string) : regex :=
  RSet false (map CChar (list_ascii_of_string s)).
(** [[\s\S]] *)
Definition ranychar : regex := RSet false [CSpace; CNotSpace].

Definition item_matches (ci : bool) (x : ascii) (it : citem) : bool :=
  match it with
  | CChar c => eqb_ci ci c x
  | CDigit => is_digit x
  | CSpace => is_space x
  | CNotSpace => negb (is_space x)
  | CWord => is_word x
  end.

(** The matcher state: the index reached, the input that remains and the
    captures recorded so far (most recent first). *)
Record mstate : Type := MState {
  pos : nat;
  rest : list ascii;
  caps : list (nat * list ascii)
}.

Definition step1 (st : mstate) (tl : list ascii) : mstate :=
  MState (S (pos st)) tl (caps st).

Definition set_cap (i : nat) (from to : mstate) : mstate :=
  MState (pos to) (rest to)
         ((i, firstn (pos to - pos from) (rest from)) :: caps to).

Definition orelse {A : Type} (a b : option A) : option A :=
  match a with Some x => Some x | None => b end.

Definition cont : Type := mstate -> option mstate.

(** The loop of [RStar]: at most [n] further iterations of the body [mr].
    An iteration that consumes nothing is rejected, as in ECMAScript. *)
Fixpoint star_loop (mr : mstate -> cont -> option mstate) (greedy : bool)
  (k : cont) (n : nat) (st0 : mstate) {struct n} : option mstate :=
  match n with
  | O => k st0
  | S n' =>
      let again :=
        mr st0 (fun st1 =>
                  if Nat.ltb (List.length (rest st1)) (List.length (rest st0))
                  then star_loop mr greedy k n' st1 else None) in
      if greedy then orelse again (k st0) else orelse (k st0) again
  end.

(** Backtracking matcher in continuation-passing style: [rmatch ci r st k]
    tries the ways [r] can match at [st], in priority order, and returns the
    first for which the continuation [k] succeeds. *)
Fixpoint rmatch (ci : bool) (r : regex) (st : mstate) (k : cont)
  : option mstate :=
  match r with
  | REmpty => k st
  | RChar c =>
      match rest st with
      | x :: tl => if eqb_ci ci c x then k (step1 st tl) else None
      | [] => None
      end
  | RAny =>
      match rest st with
      | x :: tl => if is_newline x then None else k (step1 st tl)
      | [] => None
      end
  | RSet neg items =>
      match rest st with
      | x :: tl =>
          if xorb neg (existsb (item_matches ci x) items)
          then k (step1 st tl) else None
      | [] => None
      end
  | RSeq r1 r2 => rmatch ci r1 st (fun st1 => rmatch ci r2 st1 k)
  | RAlt r1 r2 => orelse (rmatch ci r1 st k) (rmatch ci r2 st k)
  | RStar greedy r' =>
      star_loop (rmatch ci r') greedy k (S (List.length (rest st))) st
  | RGroup i r' => rmatch ci r' st (fun st1 => k (set_cap i st st1))
  | RBol => if Nat.eqb (pos st) 0 then k st else None
  | REol => match rest st with [] => k st | _ :: _ => None end
  | RLook r' =>
      match rmatch ci r' st Some with
      | Some st1 => k (MState (pos st) (rest st) (caps st1))
      | None => None
      end
  end.

(** The result of one successful match, as [RegExp.prototype.exec] returns
    it: the index, the matched text, the captures and what follows. *)
Record rresult : Type := RResult {
  r_index : nat;
  r_whole : list ascii;
  r_caps : list (nat * list ascii);
  r_end : nat;
  r_after : list ascii
}.

Fixpoint cap_lookup (i : nat) (cs : list (nat * list ascii))
  : option (list ascii) :=
  match cs with
  | [] => None
  | (j, v) :: cs' => if Nat.eqb i j then Some v else cap_lookup i cs'
  end.

Definition group (i : nat) (m : rresult) : option (list ascii) :=
  cap_lookup i (r_caps m).

Definition mk_result (p : nat) (s : list ascii) (st : mstate) : rresult :=
  RResult p (firstn (pos st - p) s) (caps st) (pos st) (rest st).

(** Leftmost match of [r] in [s], whose first character has index [p]. *)
Fixpoint rsearch (ci : bool) (r : regex) (p : nat) (s : list ascii)
  : option rresult :=
  match rmatch ci r (MState p s []) Some with
  | Some st => Some (mk_result p s st)
  | None =>
      match s with
      | [] => None
      | _ :: tl => rsearch ci r (S p) tl
      end
  end.

(** [str.match(re)] and [re.exec(str)] without the [g] flag. *)
Definition exec (ci : bool) (r : regex) (s : list ascii) : option rresult :=
  rsearch ci r 0 s.

(** [re.test(str)]. *)
Definition test (ci : bool) (r : regex) (s : list ascii) : bool :=
  match exec ci r s with Some _ => true | None => false end.

(** All matches with the [g] flag: each search restarts where the previous
    match ended, one character further after an empty match. *)
Fixpoint exec_all_from (ci : bool) (r : regex) (fuel : nat) (p : nat)
  (s : list ascii) : list rresult :=
  match fuel with
  | O => []
  | S fuel' =>
      match rsearch ci r p s with
      | None => []
      | Some m =>
          if Nat.eqb (r_end m) (r_index m)
          then m :: match r_after m with
                    | [] => []
                    | _ :: tl => exec_all_from ci r fuel' (S (r_end m)) tl
                    end
          else m :: exec_all_from ci r fuel' (r_end m) (r_after m)
      end
  end.

Definition exec_all (ci : bool) (r : regex) (s : list ascii) : list rresult :=
  exec_all_from ci r (S (List.length s)) 0 s.

(** [str.match(re)] with the [g] flag: the matched texts. *)
Definition match_all (ci : bool) (r : regex) (s : list ascii)
  : list (list ascii) :=
  map r_whole (exec_all ci r s).

(** Replacement templates: literal text and [$n]. *)
Inductive titem : Type :=
| TLit (s : string)
| TGroup (i : nat).

Definition expand (t : list titem) (m : rresult) : list ascii :=
  flat_map (fun it =>
              match it with
              | TLit s => list_ascii_of_string s
              | TGroup i => match group i m with Some v => v | None => [] end
              end) t.

(** [str.replace(re, template)] without the [g] flag. *)
Definition replace_first (ci : bool) (r : regex) (t : list titem)
  (s : list ascii) : list ascii :=
  match exec ci r s with
  | None => s
  | Some m => firstn (r_index m) s ++ expand t m ++ r_after m
  end.

(** [str.replace(re, template)] with the [g] flag. *)
Fixpoint replace_all_from (ci : bool) (r : regex) (t : list titem)
  (fuel : nat) (p : nat) (s : list ascii) : list ascii :=
  match fuel with
  | O => s
  | S fuel' =>
      match rsearch ci r p s with
      | None => s
      | Some m =>
          let before := firstn (r_index m - p) s in
          if Nat.eqb (r_end m) (r_index m)
          then before ++ expand t m ++
               match r_after m with
               | [] => []
               | c :: tl => c :: replace_all_from ci r t fuel' (S (r_end m)) tl
               end
          else before ++ expand t m ++
               replace_all_from ci r t fuel' (r_end m) (r_after m)
      end
  end.

Definition replace_all (ci : bool) (r : regex) (t : list titem)
  (s : list ascii) : list ascii :=
  replace_all_from ci r t (S (List.length s)) 0 s.

End Regex.

(** ** JavaScript string and number helpers *)

Module JS.
Import Chars.

Definition chars (s : string) : list ascii := list_ascii_of_string s.
Definition str (l : list ascii) : string := string_of_list_ascii l.

Fixpoint trim_start (s : list ascii) : list ascii :=
  match s with
  | [] => []
  | c :: tl => if is_space c then trim_start tl else s
  end.

(** [String.prototype.trim] *)
Definition trim (s : list ascii) : list ascii :=
  rev (trim_start (rev (trim_start s))).

(** [String.prototype.toLowerCase] on 8-bit code units. *)
Definition lower8 (c : ascii) : ascii :=
  if is_upper c || (between 192 222 c && negb (Nat.eqb (code c) 215))
  then ascii_of_nat (code c + 32) else c.

Definition toLowerCase (s : list ascii) : list ascii := map lower8 s.

Fixpoint starts_with (p s : list ascii) : bool :=
  match p, s with
  | [], _ => true
  | _ :: _, [] => false
  | a :: p', b :: s' => Ascii.eqb a b && starts_with p' s'
  end.

(** [String.prototype.includes] *)
Fixpoint includes (s p : list ascii) : bool :=
  starts_with p s ||
  match s with
  | [] => false
  | _ :: tl => includes tl p
  end.

Definition digit_val (c : ascii) : N := N.of_nat (code c - 48).

(** [parseInt] on a non-empty string of decimal digits.  The source gets
    a double, which is this number as long as it is at most 2^53; the
    properties that depend on the value are stated within that range. *)
Definition parseInt (ds : list ascii) : N :=
  fold_left (fun acc c => (10 * acc + digit_val c)%N) ds 0%N.

(** The leading decimal digits of a text, and what follows them. *)
Fixpoint span_digits (s : list ascii) : list ascii * list ascii :=
  match s with
  | c :: tl =>
      if is_digit c
      then (c :: fst (span_digits tl), snd (span_digits tl))
      else ([], s)
  | [] => ([], [])
  end.

Definition digit_char (d : N) : ascii := ascii_of_nat (48 + N.to_nat d).

Fixpoint N_digits (fuel : nat) (n : N) (acc : list ascii) : list ascii :=
  match fuel with
  | O => acc
  | S fuel' =>
      let acc' := digit_char (n mod 10) :: acc in
      if (n / 10 =? 0)%N then acc' else N_digits fuel' (n / 10)%N acc'
  end.

(** [String(n)] for a natural number. *)
Definition N_to_chars (n : N) : list ascii :=
  N_digits (S (N.to_nat (N.log2 n))) n [].

Definition N_to_string (n : N) : string := str (N_to_chars n).

End JS.

(** ** Metrics records *)

Record StepTime : Type := mkStepTime {
  step : string;
  stepName : string;
  time : string
}.

Record Suggestion : Type := mkSuggestion {
  title : string;
  description : string;
  timeSaved : string
}.

(** The [optimized] sub-object that [mergeMetrics] adds. *)
Record Optimized : Type := mkOptimized {
  o_totalSteps : N;
  o_totalTime : string;
  o_suggestions : list Suggestion;
  timeSavingsPercent : Z
}.

(** A metrics object.  [timeEstimates] is present in what
    [extractWorkflowMetrics] returns and absent from what
    [extractProcessMetrics] returns; [optimized] is present only after a
    merge with optimization metrics. *)
Record Metrics : Type := mkMetrics {
  totalSteps : N;
  totalTime : string;
  timeEstimates : option (list string);
  stepTimes : list StepTime;
  optimized : option Optimized
}.

(** ** DiagramMetricsExtractor (utils/metricsExtractor.js) *)

Module Diagram.
Import Chars Regex JS.

Definition defaultMetrics : Metrics :=
  mkMetrics 0 "Unknown" (Some []) [] None.

(** [/\[\s*(?:Step\s+\d+|Process\s+\d+|Activity\s+\d+)|Q(?:Step|Process|Activity)\s+\d+/gi]
    where Q stands for the double-quote character. *)
Definition stepLabelRe : regex :=
  RAlt
    (rseq [RChar "["; RStar true rspace;
           ralt (rseq [rlit "Step"; RPlus true rspace; RPlus true rdigit])
                [rseq [rlit "Process"; RPlus true rspace; RPlus true rdigit];
                 rseq [rlit "Activity"; RPlus true rspace; RPlus true rdigit]]])
    (rseq [RChar dquote;
           ralt (rlit "Step") [rlit "Process"; rlit "Activity"];
           RPlus true rspace; RPlus true rdigit]).

(** [/\[[^\]]+\]/g] *)
Definition boxRe : regex :=
  rseq [RChar "["; RPlus true (rnone_of "]"); RChar "]"].

(** The unit alternatives of the duration pattern, in source order. *)
Definition unitAlts : regex :=
  ralt (rlit "min")
       [rlit "minute"; RSeq (rlit "minute") (ROpt (RChar "s"));
        rlit "hour"; RSeq (rlit "hour") (ROpt (RChar "s"));
        rlit "day"; RSeq (rlit "day") (ROpt (RChar "s"));
        rlit "hr"; rlit "hrs"; rlit "h"; rlit "d"].

(** [/(\d+)\s*(min|minute|minutes?|hour|hours?|day|days?|hr|hrs|h|d)/gi] *)
Definition timeRe : regex :=
  rseq [RGroup 1 (RPlus true rdigit); RStar true rspace; RGroup 2 unitAlts].

(** [/(\d+)/] *)
Definition numberRe : regex := RGroup 1 (RPlus true rdigit).

(** [/hour|hr|h/i], [/min|minute/i], [/day|d/i] *)
Definition hourRe : regex := ralt (rlit "hour") [rlit "hr"; rlit "h"].
Definition minRe : regex := ralt (rlit "min") [rlit "minute"].
Definition dayRe : regex := ralt (rlit "day") [rlit "d"].

(** [(?:min|minute|hour|hr|day|d)] *)
Definition shortUnits : regex :=
  ralt (rlit "min") [rlit "minute"; rlit "hour"; rlit "hr"; rlit "day"; rlit "d"].

(** [/\[\s*(?:Step|Process|Activity)\s+(\d+)[^\]]*?(\d+\s*(?:min|minute|hour|hr|day|d))[^\]]*?\]/gi] *)
Definition stepPattern : regex :=
  rseq [RChar "["; RStar true rspace;
        ralt (rlit "Step") [rlit "Process"; rlit "Activity"];
        RPlus true rspace;
        RGroup 1 (RPlus true rdigit);
        RStar false (rnone_of "]");
        RGroup 2 (rseq [RPlus true rdigit; RStar true rspace; shortUnits]);
        RStar false (rnone_of "]");
        RChar "]"].

(** [/\[\s*Q?([^Q\]]+)Q?\s*\]/g], Q the double-quote character. *)
Definition boxPattern : regex :=
  rseq [RChar "["; RStar true rspace; ROpt (RChar dquote);
        RGroup 1 (RPlus true (RSet true [CChar dquote; CChar "]"%char]));
        ROpt (RChar dquote); RStar true rspace; RChar "]"].

(** [/\(?\s*(\d+\s*(?:min|minute|hour|hr|day|d)[^\)]{0,})\)?/i]
    (the source writes the last repetition with a star). *)
Definition boxTimeRe : regex :=
  rseq [ROpt (RChar "("); RStar true rspace;
        RGroup 1 (rseq [RPlus true rdigit; RStar true rspace; shortUnits;
                        RStar true (rnone_of ")")]);
        ROpt (RChar ")")].

(** The same pattern without the capture, as used by [replace]. *)
Definition boxTimeStripRe : regex :=
  rseq [ROpt (RChar "("); RStar true rspace;
        RPlus true rdigit; RStar true rspace; shortUnits;
        RStar true (rnone_of ")");
        ROpt (RChar ")")].

Definition group_or_empty (i : nat) (m : rresult) : list ascii :=
  match group i m with Some v => v | None => [] end.

Definition is_terminal_box (box : list ascii) : bool :=
  includes (toLowerCase box) (chars "start") ||
  includes (toLowerCase box) (chars "end") ||
  includes (toLowerCase box) (chars "begin").

(** The second pass of [extractStepTimesFromDiagram]: every box in order,
    numbering the boxes that are kept. *)
Fixpoint boxStepTimes (boxes : list rresult) (stepNumber : N)
  : list StepTime :=
  match boxes with
  | [] => []
  | b :: boxes' =>
      let boxContent := trim (group_or_empty 1 b) in
      if is_terminal_box boxContent then boxStepTimes boxes' stepNumber
      else
        let timeMatch := exec true boxTimeRe boxContent in
        mkStepTime
          (N_to_string stepNumber)
          (str (trim (replace_first true boxTimeStripRe [] boxContent)))
          (match timeMatch with
           | Some m => str (trim (group_or_empty 1 m))
           | None => "Unknown"
           end)
        :: boxStepTimes boxes' (stepNumber + 1)%N
  end.

Definition extractStepTimesFromDiagram (diagramCode : list ascii)
  : list StepTime :=
  let stepTimes :=
    map (fun m =>
           mkStepTime (str (group_or_empty 1 m))
                      ("Step " ++ str (group_or_empty 1 m))
                      (str (trim (group_or_empty 2 m))))
        (exec_all true stepPattern diagramCode) in
  match stepTimes with
  | [] => boxStepTimes (exec_all false boxPattern diagramCode) 1%N
  | _ :: _ => stepTimes
  end.

(** The body of the [forEach] over the duration tokens: the running total
    and the [hasValidTotalTime] flag.  The total of the source is a
    double, equal to this one as long as it is at most 2^53. *)
Definition addTime (acc : N * bool) (time : list ascii) : N * bool :=
  match exec false numberRe time with
  | None => acc
  | Some valueMatch =>
      let value := parseInt (group_or_empty 1 valueMatch) in
      if test true hourRe time then (fst acc + value * 60, true)%N
      else if test true minRe time then (fst acc + value, true)%N
      else if test true dayRe time then (fst acc + value * 60 * 8, true)%N
      else acc
  end.

Definition plural (n : N) : string := if (n =? 1)%N then EmptyString else "s".

(** The total time as the source writes it.  For a total of at most 2^53
    the quotient by 60 is rounded down to the same whole number in doubles
    and the numbers are printed with all their digits. *)
Definition formatTotal (totalTimeMinutes : N) : string :=
  if (60 <=? totalTimeMinutes)%N then
    let hours := (totalTimeMinutes / 60)%N in
    let minutes := (totalTimeMinutes mod 60)%N in
    N_to_string hours ++ " hour" ++ plural hours ++
    (if (0 <? minutes)%N
     then " " ++ N_to_string minutes ++ " minute" ++ plural minutes
     else EmptyString)
  else N_to_string totalTimeMinutes ++ " minute" ++ plural totalTimeMinutes.

Definition countSteps (diagramCode : list ascii) : N :=
  let stepMatches := match_all true stepLabelRe diagramCode in
  match stepMatches with
  | _ :: _ => N.of_nat (List.length stepMatches)
  | [] =>
      let processBoxes := match_all false boxRe diagramCode in
      let filteredBoxes :=
        filter (fun box => negb (is_terminal_box box)) processBoxes in
      N.of_nat (List.length filteredBoxes)
  end.

(** [extractWorkflowMetrics] on a string.  No operation of the body throws
    on a string, so the [catch] branch is not reached. *)
Definition extractWorkflowMetrics (diagram : string) : Metrics :=
  let diagramCode := chars diagram in
  match diagramCode with
  | [] => defaultMetrics
  | _ :: _ =>
      let totalSteps := countSteps diagramCode in
      let timeMatches := match_all true timeRe diagramCode in
      let timeEstimates := map trim timeMatches in
      let '(totalTimeMinutes, hasValidTotalTime) :=
        fold_left addTime timeEstimates (0%N, false) in
      let totalTimeFormatted :=
        if hasValidTotalTime then formatTotal totalTimeMinutes else "Unknown" in
      let stepTimes := extractStepTimesFromDiagram diagramCode in
      mkMetrics
        totalSteps
        (if hasValidTotalTime then totalTimeFormatted else "Unknown")
        (Some (map str timeEstimates))
        stepTimes
        None
  end.

End Diagram.

Definition lf : string := String (ascii_of_nat 10) EmptyString.

Definition sampleDiagram : string :=
  "graph TD" ++ lf ++
  "A[Step 1: Review (30 min)] --> B[Step 2: Approve (1 hour)]".

(** ** IEEE-754 double arithmetic on the values the program computes

    A double is represented by a pair [(m, e)] standing for [m * 2^e].
    Results are rounded to 53 significant bits, ties to even.  Overflow and
    subnormal results are not modelled: the operations are exact images of
    the JavaScript ones while magnitudes stay in the normal range. *)

Module F64.
Local Open Scope Z_scope.

Definition t : Type := (Z * Z)%type.

Definition zero : t := (0, 0).

Definition scaled (n d e : Z) : Z * Z :=
  if 0 <=? e then (n, d * 2 ^ e) else (n * 2 ^ (- e), d).

(** The double nearest to [n / d], for [0 <= n] and [0 < d]. *)
Definition round_pos (n d : Z) : t :=
  if n =? 0 then zero
  else
    let e0 := Z.log2 n - Z.log2 d - 52 in
    let q0 := fst (scaled n d e0) / snd (scaled n d e0) in
    let e := if q0 <? 2 ^ 52 then e0 - 1 else e0 in
    let a := fst (scaled n d e) in
    let b := snd (scaled n d e) in
    let q := a / b in
    let r := a mod b in
    let q' := if (b <? 2 * r) || ((2 * r =? b) && Z.odd q) then q + 1 else q in
    (q', e).

Definition of_ratio (n d : Z) : t :=
  if n <? 0 then (- fst (round_pos (- n) d), snd (round_pos (- n) d))
  else round_pos n d.

Definition of_Z (n : Z) : t := of_ratio n 1.

Definition of_dyadic (m e : Z) : t :=
  if 0 <=? e then of_ratio (m * 2 ^ e) 1 else of_ratio m (2 ^ (- e)).

Definition mul (a b : t) : t := of_dyadic (fst a * fst b) (snd a + snd b).

Definition add (a b : t) : t :=
  let e := Z.min (snd a) (snd b) in
  of_dyadic (fst a * 2 ^ (snd a - e) + fst b * 2 ^ (snd b - e)) e.

(** [a / b] for [0 < b]. *)
Definition div (a b : t) : t :=
  let e := snd a - snd b in
  if 0 <=? e then of_ratio (fst a * 2 ^ e) (fst b)
  else of_ratio (fst a) (fst b * 2 ^ (- e)).

Definition is_zero (a : t) : bool := fst a =? 0.
Definition is_pos (a : t) : bool := 0 <? fst a.

(** [Math.floor] *)
Definition floor (a : t) : Z :=
  if 0 <=? snd a then fst a * 2 ^ snd a else fst a / 2 ^ (- snd a).

(** [Math.round]: the integer nearest to [a], ties towards plus infinity. *)
Definition round (a : t) : Z :=
  if 0 <=? snd a then fst a * 2 ^ snd a
  else (2 * fst a + 2 ^ (- snd a)) / (2 * 2 ^ (- snd a)).

End F64.

(** ** MetricsMerger (utils/metricsExtractor.js) *)

(** The optimization metrics passed to [mergeMetrics]; every field may be
    missing. *)
Record OptimizationMetrics : Type := mkOptimizationMetrics {
  om_totalSteps : option N;
  om_totalTime : option string;
  om_suggestions : option (list Suggestion)
}.

Module Merger.
Import Chars Regex JS.

(** [/(\d+)\s*(?:hour|hr|h)s?/i] *)
Definition hoursRe : regex :=
  rseq [RGroup 1 (RPlus true rdigit); RStar true rspace;
        ralt (rlit "hour") [rlit "hr"; rlit "h"]; ROpt (RChar "s")].

(** [/(\d+)\s*(?:minute|min|m)s?/i] *)
Definition minutesRe : regex :=
  rseq [RGroup 1 (RPlus true rdigit); RStar true rspace;
        ralt (rlit "minute") [rlit "min"; rlit "m"]; ROpt (RChar "s")].

(** [/(\d+)\s*(?:day|d)s?/i] *)
Definition daysRe : regex :=
  rseq [RGroup 1 (RPlus true rdigit); RStar true rspace;
        ralt (rlit "day") [rlit "d"]; ROpt (RChar "s")].

Definition capturedInt (r : regex) (s : list ascii) : option N :=
  match exec true r s with
  | Some m => Some (parseInt (Diagram.group_or_empty 1 m))
  | None => None
  end.

Definition orZero (o : option N) : N :=
  match o with Some n => n | None => 0%N end.

(** [parseTimeToMinutes] of metricsExtractor.js; [None] as argument stands
    for a value that is not a string, [None] as result for [null].  The
    numbers read and their sum are those of the source as long as the sum
    is at most 2^53. *)
Definition parseTimeToMinutes (timeString : option string) : option N :=
  match timeString with
  | None => None
  | Some EmptyString => None
  | Some ts =>
      let s := chars ts in
      let totalMinutes :=
        (orZero (capturedInt hoursRe s) * 60
         + orZero (capturedInt minutesRe s)
         + orZero (capturedInt daysRe s) * 8 * 60)%N in
      if (0 <? totalMinutes)%N then Some totalMinutes else None
  end.

(** [Math.round(((originalMinutes - optimizedMinutes) / originalMinutes) * 100)] *)
Definition roundedPercent (originalMinutes optimizedMinutes : N) : Z :=
  F64.round
    (F64.mul
       (F64.div (F64.of_Z (Z.of_N originalMinutes - Z.of_N optimizedMinutes))
                (F64.of_Z (Z.of_N originalMinutes)))
       (F64.of_Z 100)).

Definition calculateTimeSavingsPercent (originalTime : string)
  (optimizedTime : option string) : option Z :=
  match parseTimeToMinutes (Some originalTime),
        parseTimeToMinutes optimizedTime with
  | Some originalMinutes, Some optimizedMinutes =>
      if (0 <? originalMinutes)%N
      then Some (roundedPercent originalMinutes optimizedMinutes)
      else None
  | _, _ => None
  end.

(** [Math.floor(n * 0.7)] *)
Definition floor07 (n : N) : N :=
  Z.to_N (F64.floor (F64.mul (F64.of_Z (Z.of_N n)) (F64.of_ratio 7 10))).

(** [x || d] on an optional number: [0] is falsy. *)
Definition orN (x : option N) (d : N) : N :=
  match x with
  | Some n => if (n =? 0)%N then d else n
  | None => d
  end.

Definition orZ (x : option Z) (d : Z) : Z :=
  match x with
  | Some n => if (n =? 0)%Z then d else n
  | None => d
  end.

(** [x || d] on an optional string: the empty string is falsy. *)
Definition orS (x : option string) (d : string) : string :=
  match x with
  | Some EmptyString => d
  | Some s => s
  | None => d
  end.

Definition mergeMetrics (workflowMetrics : Metrics)
  (documentMetrics : option Metrics)
  (optimizationMetrics : option OptimizationMetrics) : Metrics :=
  let metrics := workflowMetrics in
  let totalSteps1 :=
    if (totalSteps metrics =? 0)%N
    then orN (option_map totalSteps documentMetrics) 0%N
    else totalSteps metrics in
  let totalTime1 :=
    if String.eqb (totalTime metrics) "Unknown"
    then orS (option_map totalTime documentMetrics) "Unknown"
    else totalTime metrics in
  let stepTimes1 :=
    match stepTimes metrics, documentMetrics with
    | [], Some d =>
        match stepTimes d with
        | [] => stepTimes metrics
        | _ :: _ => stepTimes d
        end
    | _, _ => stepTimes metrics
    end in
  let optimized1 :=
    match optimizationMetrics with
    | Some om =>
        Some (mkOptimized
                (orN (om_totalSteps om) (floor07 totalSteps1))
                (orS (om_totalTime om) "Unknown")
                (match om_suggestions om with Some l => l | None => [] end)
                (orZ (calculateTimeSavingsPercent totalTime1 (om_totalTime om))
                     30%Z))
    | None => optimized metrics
    end in
  mkMetrics totalSteps1 totalTime1 (timeEstimates metrics) stepTimes1 optimized1.

End Merger.

(** ** Time utilities (utils/optimizationUtils.js) *)

Module TimeUtils.
Import Chars Regex JS.

(** [(\d+(?:\.\d+)?)], the first capture of every pattern below. *)
Definition decimalGroup : regex :=
  RGroup 1 (RSeq (RPlus true rdigit)
                 (ROpt (RSeq (RChar ".") (RPlus true rdigit)))).

(** [/(\d+(?:\.\d+)?)\s*(hour|hr|h)s?/i] *)
Definition hoursPattern : regex :=
  rseq [decimalGroup; RStar true rspace;
        RGroup 2 (ralt (rlit "hour") [rlit "hr"; rlit "h"]); ROpt (RChar "s")].

(** [/(\d+(?:\.\d+)?)\s*(minute|min|m)s?/i] *)
Definition minutesPattern : regex :=
  rseq [decimalGroup; RStar true rspace;
        RGroup 2 (ralt (rlit "minute") [rlit "min"; rlit "m"]); ROpt (RChar "s")].

(** [/(\d+(?:\.\d+)?)\s*(day|d)s?/i] *)
Definition daysPattern : regex :=
  rseq [decimalGroup; RStar true rspace;
        RGroup 2 (ralt (rlit "day") [rlit "d"]); ROpt (RChar "s")].

(** [/(\d+(?:\.\d+)?)/] *)
Definition justNumberRe : regex := decimalGroup.

(** [parseFloat] on a text of the form digits, or digits-dot-digits. *)
Definition parseFloat (s : list ascii) : F64.t :=
  let ip := fst (span_digits s) in
  let fp :=
    match snd (span_digits s) with
    | c :: tl => if Ascii.eqb c "." then fst (span_digits tl) else []
    | [] => []
    end in
  F64.of_ratio (Z.of_N (parseInt (ip ++ fp)))
               (10 ^ Z.of_nat (List.length fp)).

Definition captured (r : regex) (s : list ascii) : option F64.t :=
  match exec true r s with
  | Some m => Some (parseFloat (Diagram.group_or_empty 1 m))
  | None => None
  end.

(** [totalMinutes += x * f] when the pattern matched. *)
Definition addMatch (total : F64.t) (m : option F64.t) (factors : list Z)
  : F64.t :=
  match m with
  | Some x =>
      F64.add total
        (fold_left (fun acc f => F64.mul acc (F64.of_Z f)) factors x)
  | None => total
  end.

(** [parseTimeToMinutes]; [None] as argument stands for [null] or
    [undefined], [None] as result for [null]. *)
Definition parseTimeToMinutes (timeString : option string) : option F64.t :=
  match timeString with
  | None => None
  | Some EmptyString => None
  | Some ts =>
      if String.eqb ts "Unknown" then None
      else
        let s := chars ts in
        let t0 := F64.zero in
        let t1 := addMatch t0 (captured hoursPattern s) [60%Z] in
        let t2 := addMatch t1 (captured minutesPattern s) [] in
        let t3 := addMatch t2 (captured daysPattern s) [8%Z; 60%Z] in
        let totalMinutes :=
          if F64.is_zero t3
          then match exec false justNumberRe s with
               | Some justNumber =>
                   parseFloat (Diagram.group_or_empty 1 justNumber)
               | None => t3
               end
          else t3 in
        if F64.is_pos totalMinutes then Some totalMinutes else None
  end.

End TimeUtils.

(** ** Results of code that may throw *)

Inductive Res (A : Type) : Type :=
| Ok (a : A)
| Throw (message : string).

Arguments Ok {A} a.
Arguments Throw {A} message.

Definition bind {A B : Type} (m : Res A) (f : A -> Res B) : Res B :=
  match m with
  | Ok a => f a
  | Throw e => Throw e
  end.

(** [try { body } catch (error) { handler(error) }] *)
Definition try_catch {A : Type} (body : Res A) (handler : string -> Res A)
  : Res A :=
  match body with
  | Ok a => Ok a
  | Throw e => handler e
  end.

Notation "x <- m ;; k" := (bind m (fun x => k))
  (at level 61, m at next level, right associativity).

(** ** JSON values and a model of [JSON.parse] *)

#[local] Set Warnings "-register-all".

(** A number is kept as the literal that writes it, where [JSON.parse]
    yields the number itself: two spellings of one number are one value in
    the source and two here.  The properties below apply the parser to
    numbers in their shortest decimal spelling only. *)
Inductive json : Type :=
| JNull
| JBool (b : bool)
| JNum (literal : string)
| JStr (s : string)
| JArr (items : list json)
| JObj (fields : list (string * json)).

(** [obj[key] = v]: replaces in place, or appends a new property.  This
    is the assignment for every property name but [__proto__], which an
    assignment to an object literal does not create; the properties about
    rows built from arbitrary names exclude that name. *)
Fixpoint obj_set {V : Type} (key : string) (v : V)
  (fields : list (string * V)) : list (string * V) :=
  match fields with
  | [] => [(key, v)]
  | (k, w) :: fields' =>
      if String.eqb k key then (k, v) :: fields'
      else (k, w) :: obj_set key v fields'
  end.

Fixpoint obj_get {V : Type} (key : string) (fields : list (string * V))
  : option V :=
  match fields with
  | [] => None
  | (k, w) :: fields' =>
      if String.eqb k key then Some w else obj_get key fields'
  end.

Module Json.
Import Chars JS.

Definition is_json_ws (c : ascii) : bool :=
  Nat.eqb (code c) 32 || Nat.eqb (code c) 9 ||
  Nat.eqb (code c) 10 || Nat.eqb (code c) 13.

Fixpoint skip_ws (s : list ascii) : list ascii :=
  match s with
  | c :: tl => if is_json_ws c then skip_ws tl else s
  | [] => []
  end.

Definition expect (w : string) (s : list ascii) (v : json)
  : option (json * list ascii) :=
  if starts_with (chars w) s
  then Some (v, skipn (String.length w) s) else None.

Definition hex_val (c : ascii) : option nat :=
  if is_digit c then Some (code c - 48)
  else if between 97 102 c then Some (code c - 87)
  else if between 65 70 c then Some (code c - 55)
  else None.

Definition hex4 (a b c d : ascii) : option nat :=
  match hex_val a, hex_val b, hex_val c, hex_val d with
  | Some x, Some y, Some z, Some w => Some (((x * 16 + y) * 16 + z) * 16 + w)
  | _, _, _, _ => None
  end.

(** The characters of a string literal after its opening quote.  An escape
    that denotes a code unit above 255 is outside the 8-bit model and is
    rejected. *)
Fixpoint parse_chars (s : list ascii) (acc : list ascii)
  : option (list ascii * list ascii) :=
  match s with
  | [] => None
  | c :: tl =>
      if Ascii.eqb c dquote then Some (rev acc, tl)
      else if Nat.ltb (code c) 32 then None
      else if Ascii.eqb c "\" then
        match tl with
        | e :: tl' =>
            if Ascii.eqb e dquote then parse_chars tl' (dquote :: acc)
            else if Ascii.eqb e "\" then parse_chars tl' ("\"%char :: acc)
            else if Ascii.eqb e "/" then parse_chars tl' ("/"%char :: acc)
            else if Ascii.eqb e "b" then parse_chars tl' (ascii_of_nat 8 :: acc)
            else if Ascii.eqb e "f" then parse_chars tl' (ascii_of_nat 12 :: acc)
            else if Ascii.eqb e "n" then parse_chars tl' (ascii_of_nat 10 :: acc)
            else if Ascii.eqb e "r" then parse_chars tl' (ascii_of_nat 13 :: acc)
            else if Ascii.eqb e "t" then parse_chars tl' (ascii_of_nat 9 :: acc)
            else if Ascii.eqb e "u" then
              match tl' with
              | a :: b :: c' :: d :: tl'' =>
                  match hex4 a b c' d with
                  | Some n =>
                      if Nat.ltb n 256
                      then parse_chars tl'' (ascii_of_nat n :: acc)
                      else None
                  | None => None
                  end
              | _ => None
              end
            else None
        | [] => None
        end
      else parse_chars tl (c :: acc)
  end.

(** A number literal: [-?(0|[1-9]\d{0,})(\.\d+)?([eE][+-]?\d+)?]. *)
Definition parse_number (s : list ascii) : option (json * list ascii) :=
  let '(sign, s1) :=
    match s with
    | c :: tl => if Ascii.eqb c "-" then ([c], tl) else ([], s)
    | [] => ([], s)
    end in
  let '(ip, s2) := span_digits s1 in
  match ip with
  | [] => None
  | d :: ip' =>
      if Ascii.eqb d "0" && negb (Nat.eqb (List.length ip') 0) then None
      else
        let fraction :=
          match s2 with
          | c :: tl =>
              if Ascii.eqb c "." then
                match span_digits tl with
                | ([], _) => None
                | (fp, s3) => Some (c :: fp, s3)
                end
              else Some ([], s2)
          | [] => Some ([], s2)
          end in
        match fraction with
        | None => None
        | Some (fp, s3) =>
            let exponent :=
              match s3 with
              | c :: tl =>
                  if Ascii.eqb c "e" || Ascii.eqb c "E" then
                    let '(sg, tl1) :=
                      match tl with
                      | g :: tl' =>
                          if Ascii.eqb g "+" || Ascii.eqb g "-"
                          then ([g], tl') else ([], tl)
                      | [] => ([], tl)
                      end in
                    match span_digits tl1 with
                    | ([], _) => None
                    | (ep, s4) => Some (c :: sg ++ ep, s4)
                    end
                  else Some ([], s3)
              | [] => Some ([], s3)
              end in
            match exponent with
            | None => None
            | Some (ep, s4) => Some (JNum (str (sign ++ ip ++ fp ++ ep)), s4)
            end
        end
  end.

Fixpoint parse_value (fuel : nat) (s : list ascii) {struct fuel}
  : option (json * list ascii) :=
  match fuel with
  | O => None
  | S fuel' =>
      match skip_ws s with
      | [] => None
      | c :: tl =>
          if Ascii.eqb c "n" then expect "ull" tl JNull
          else if Ascii.eqb c "t" then expect "rue" tl (JBool true)
          else if Ascii.eqb c "f" then expect "alse" tl (JBool false)
          else if Ascii.eqb c dquote then
            match parse_chars tl [] with
            | Some (v, rest) => Some (JStr (str v), rest)
            | None => None
            end
          else if Ascii.eqb c "[" then
            match skip_ws tl with
            | c' :: tl' =>
                if Ascii.eqb c' "]" then Some (JArr [], tl')
                else parse_elements fuel' tl []
            | [] => None
            end
          else if Ascii.eqb c "{" then
            match skip_ws tl with
            | c' :: tl' =>
                if Ascii.eqb c' "}" then Some (JObj [], tl')
                else parse_members fuel' tl []
            | [] => None
            end
          else parse_number (c :: tl)
      end
  end
with parse_elements (fuel : nat) (s : list ascii) (acc : list json)
  {struct fuel} : option (json * list ascii) :=
  match fuel with
  | O => None
  | S fuel' =>
      match parse_value fuel' s with
      | Some (v, rest) =>
          match skip_ws rest with
          | c :: tl =>
              if Ascii.eqb c "," then parse_elements fuel' tl (v :: acc)
              else if Ascii.eqb c "]" then Some (JArr (rev (v :: acc)), tl)
              else None
          | [] => None
          end
      | None => None
      end
  end
with parse_members (fuel : nat) (s : list ascii)
  (acc : list (string * json)) {struct fuel} : option (json * list ascii) :=
  match fuel with
  | O => None
  | S fuel' =>
      match skip_ws s with
      | q :: tl =>
          if Ascii.eqb q dquote then
            match parse_chars tl [] with
            | Some (key, rest) =>
                match skip_ws rest with
                | c :: tl' =>
                    if Ascii.eqb c ":" then
                      match parse_value fuel' tl' with
                      | Some (v, rest') =>
                          match skip_ws rest' with
                          | c' :: tl'' =>
                              if Ascii.eqb c' "," then
                                parse_members fuel' tl''
                                  (obj_set (str key) v acc)
                              else if Ascii.eqb c' "}" then
                                Some (JObj (obj_set (str key) v acc), tl'')
                              else None
                          | [] => None
                          end
                      | None => None
                      end
                    else None
                | [] => None
                end
            | None => None
            end
          else None
      | [] => None
      end
  end.

(** [JSON.parse(text)]: [None] stands for a thrown [SyntaxError]. *)
Definition parse (text : list ascii) : option json :=
  match parse_value (2 * List.length text + 2) text with
  | Some (v, rest) =>
      match skip_ws rest with
      | [] => Some v
      | _ :: _ => None
      end
  | None => None
  end.

End Json.

(** ** RecoveryParser (utils/metricsExtractor.js) *)

Module Recovery.
Import Chars Regex JS.

Definition dq : string := String dquote EmptyString.

(** A quote character, double or single. *)
Definition quote : regex := RSet false [CChar dquote; CChar squote].
Definition notQuote : regex := RSet true [CChar dquote; CChar squote].
Definition notNewline : regex := RSet true [CChar (ascii_of_nat 10)].
Definition ws : regex := RStar true rspace.

(** The fenced code block: three backquotes, an optional [json] tag, white
    space, the lazily captured body, three backquotes. *)
Definition fenceRe : regex :=
  rseq [rlit "```"; ROpt (rlit "json"); ws;
        RGroup 1 (RStar false ranychar); rlit "```"].

(** [/,\s*([\]}])/g], replaced by [$1]. *)
Definition trailingCommaRe : regex :=
  rseq [RChar ","; ws; RGroup 1 (rone_of "]}")].

(** A quoted value after a label: optional quote, the label, optional
    quote, colon, a quote, the captured text without quotes, a quote. *)
Definition quotedField (label : regex) : regex :=
  rseq [ROpt quote; label; ROpt quote; ws; RChar ":"; ws;
        quote; RGroup 1 (RPlus true notQuote); quote].

(** A label followed by the rest of its line: the label, anything but a
    colon, a colon, the captured rest of the line. *)
Definition lineField (label : regex) : regex :=
  rseq [label; RStar true (rnone_of ":"); RChar ":"; ws;
        RGroup 1 (RPlus true notNewline)].

Definition summaryLabel : regex := rlit "summary".

(** [total\s*steps?] and [total\s*time] *)
Definition stepsLabel : regex :=
  rseq [rlit "total"; ws; rlit "step"; ROpt (RChar "s")].
Definition timeLabel : regex := rseq [rlit "total"; ws; rlit "time"].

(** The two patterns for the step count: with optional quotes around the
    label, and with anything but a colon after it. *)
Definition stepsRe1 : regex :=
  rseq [ROpt quote; stepsLabel; ROpt quote; ws; RChar ":"; ws;
        RGroup 1 (RPlus true rdigit)].
Definition stepsRe2 : regex :=
  rseq [stepsLabel; RStar true (rnone_of ":"); RChar ":"; ws;
        RGroup 1 (RPlus true rdigit)].

(** The suggestions array: the label, a colon and the lazily captured
    bracketed text. *)
Definition suggestionsRe : regex :=
  rseq [ROpt quote; rlit "suggestions"; ROpt quote; ws; RChar ":"; ws;
        RGroup 1 (rseq [RChar "["; RStar false ranychar; RChar "]"])].

(** [/,\s*]/g], replaced by a closing bracket. *)
Definition cleanRe1 : regex := rseq [RChar ","; ws; RChar "]"].

(** Property names: an opening brace or comma with white space (captured),
    an optionally quoted word (captured), a colon; replaced by the first
    capture, the word in double quotes and a colon. *)
Definition cleanRe2 : regex :=
  rseq [RGroup 1 (RSeq (rone_of "{,") ws); ROpt quote;
        RGroup 2 (RPlus true rword); ROpt quote; ws; RChar ":"].

(** String values: a colon, a quote, the lazily captured text of the line,
    a quote; replaced by a colon and the text in double quotes. *)
Definition cleanRe3 : regex :=
  rseq [RChar ":"; ws; quote; RGroup 1 (RStar false RAny); quote].

(** [graph TD], then lazily anything up to three backquotes or the end. *)
Definition graphRe : regex :=
  rseq [rlit "graph TD"; RPlus false ranychar;
        RLook (RAlt (rlit "```") REol)].

Definition suggestionJson (s : Suggestion) : json :=
  JObj [("title", JStr (title s)); ("description", JStr (description s));
        ("timeSaved", JStr (timeSaved s))].

Definition fallbackSuggestion : Suggestion :=
  mkSuggestion "Process Optimization"
    "Review and optimize the workflow to reduce unnecessary steps."
    "Varies based on implementation".

Definition defaultSuggestions : list Suggestion :=
  [mkSuggestion "Streamline Approval Process"
     "Consolidate multiple approval steps into a single, parallel approval workflow."
     "Approximately 30% of approval time";
   mkSuggestion "Automate Manual Steps"
     "Replace manual processes with automation where possible."
     "Up to 40% of manual processing time"].

Definition defaultOptimizationResult : json :=
  JObj [("summary",
         JStr "Optimization completed successfully, but result parsing failed.");
        ("totalSteps", JNull);
        ("totalTime", JNull);
        ("suggestions", JArr (map suggestionJson defaultSuggestions));
        ("stepTimes", JArr [])].

Definition first_of (a b : option rresult) : option rresult :=
  match a with Some m => Some m | None => b end.

Definition group1 (m : rresult) : list ascii := Diagram.group_or_empty 1 m.

Section WithJsonParse.

(** [JSON.parse]; [None] stands for a thrown [SyntaxError]. *)
Variable JSON_parse : list ascii -> option json.

(** First attempt: the fenced block, parsed after the trailing commas are
    removed.  [None] when there is no block, the block is empty or the
    parse fails. *)
Definition tier1 (result : list ascii) : option json :=
  match exec false fenceRe result with
  | Some jsonMatch =>
      match group1 jsonMatch with
      | [] => None
      | _ :: _ =>
          let cleanedJson :=
            replace_all false trailingCommaRe [TGroup 1]
              (trim (group1 jsonMatch)) in
          JSON_parse cleanedJson
      end
  | None => None
  end.

(** Second attempt: the whole trimmed text. *)
Definition tier2 (result : list ascii) : option json :=
  JSON_parse (trim result).

Definition summaryField (result : list ascii) : list (string * json) :=
  match first_of (exec true (quotedField summaryLabel) result)
                 (exec true (lineField summaryLabel) result) with
  | Some summaryMatch => [("summary", JStr (str (trim (group1 summaryMatch))))]
  | None => []
  end.

Definition totalStepsField (result : list ascii) : list (string * json) :=
  match first_of (exec true stepsRe1 result) (exec true stepsRe2 result) with
  | Some stepsMatch =>
      [("totalSteps", JNum (N_to_string (parseInt (group1 stepsMatch))))]
  | None => []
  end.

Definition totalTimeField (result : list ascii) : list (string * json) :=
  match first_of (exec true (quotedField timeLabel) result)
                 (exec true (lineField timeLabel) result) with
  | Some timeMatch => [("totalTime", JStr (str (trim (group1 timeMatch))))]
  | None => []
  end.

Definition suggestionsField (result : list ascii) : list (string * json) :=
  match exec true suggestionsRe result with
  | Some suggestionsMatch =>
      let cleanedSuggestions :=
        replace_all false cleanRe3 [TLit ":"; TLit dq; TGroup 1; TLit dq]
          (replace_all false cleanRe2
             [TGroup 1; TLit dq; TGroup 2; TLit dq; TLit ":"]
             (replace_all false cleanRe1 [TLit "]"]
                (group1 suggestionsMatch))) in
      match JSON_parse cleanedSuggestions with
      | Some v => [("suggestions", v)]
      | None => [("suggestions", JArr [suggestionJson fallbackSuggestion])]
      end
  | None => []
  end.

Definition workflowField (result : list ascii) : list (string * json) :=
  match exec true (quotedField (rlit "workflow")) result with
  | Some workflowMatch => [("workflow", JStr (str (group1 workflowMatch)))]
  | None =>
      match exec false graphRe result with
      | Some workflowMatch =>
          [("workflow", JStr (str (trim (r_whole workflowMatch))))]
      | None => []
      end
  end.

(** Third attempt: the fields found by the patterns, in the order in which
    the source assigns them. *)
Definition tier3 (result : list ascii) : json :=
  JObj (summaryField result ++ totalStepsField result ++
        totalTimeField result ++ suggestionsField result ++
        workflowField result).

(** [result.match] throws a [TypeError] unless [result] is a string;
    [None] stands for such a value. *)
Definition as_string (result : option string) : Res (list ascii) :=
  match result with
  | Some s => Ok (chars s)
  | None => Throw "TypeError: Cannot read properties of undefined"
  end.

Definition parseOptimizationResult (result : option string) : Res json :=
  try_catch
    (text <- as_string result ;;
     match tier1 text with
     | Some v => Ok v
     | None =>
         match tier2 text with
         | Some v => Ok v
         | None => Ok (tier3 text)
         end
     end)
    (fun _ => Ok defaultOptimizationResult).

End WithJsonParse.

End Recovery.

(** ** Document records *)

Inductive DocType : Type := TPdf | TDocx | TCsv | TExcel | TText | TError.

Definition DocType_eqb (a b : DocType) : bool :=
  match a, b with
  | TPdf, TPdf | TDocx, TDocx | TCsv, TCsv
  | TExcel, TExcel | TText, TText | TError, TError => true
  | _, _ => false
  end.

Definition typeName (t : DocType) : string :=
  match t with
  | TPdf => "pdf" | TDocx => "docx" | TCsv => "csv"
  | TExcel => "excel" | TText => "text" | TError => "error"
  end.

(** What is handed to the parser: a string, or a byte buffer. *)
Inductive FileContent : Type :=
| FString (s : string)
| FBuffer (bytes : list ascii).

(** A row object: properties in insertion order. *)
Definition Row : Type := list (string * string).

Inductive DocContent : Type :=
| CText (s : string)
| CRows (rows : list Row)
| CRaw (c : FileContent).

(** The fields of a document record that the pipeline reads: [keywords] is
    [structuredData.keywords]. *)
Record DocumentRecord : Type := mkDoc {
  content : DocContent;
  type : DocType;
  headers : option (list string);
  parsed : bool;
  error : option string;
  keywords : option (list string);
  fileNames : option (list string)
}.

(** ** FormatParser (utils/documentParser.js) *)

Module Parser.
Import Chars Regex JS.

(** [String.prototype.split] with a one-character separator. *)
Fixpoint split_char (sep : ascii) (s : list ascii) (cur : list ascii)
  : list (list ascii) :=
  match s with
  | [] => [rev cur]
  | c :: tl =>
      if Ascii.eqb c sep then rev cur :: split_char sep tl []
      else split_char sep tl (c :: cur)
  end.

(** [String.prototype.split] with the separator CR LF. *)
Fixpoint split_crlf (s : list ascii) (cur : list ascii)
  : list (list ascii) :=
  match s with
  | [] => [rev cur]
  | c :: tl =>
      match tl with
      | d :: tl' =>
          if Nat.eqb (code c) 13 && Nat.eqb (code d) 10
          then rev cur :: split_crlf tl' []
          else split_crlf tl (c :: cur)
      | [] => split_crlf tl (c :: cur)
      end
  end.

Definition cr : ascii := ascii_of_nat 13.
Definition nl : ascii := ascii_of_nat 10.
Definition tab : ascii := ascii_of_nat 9.

(** The pattern that strips one pair of enclosing quotes: start, a quote,
    the captured text, a quote, end; replaced by the capture. *)
Definition unquoteRe : regex :=
  rseq [RBol; Recovery.quote; RGroup 1 (RStar true RAny);
        Recovery.quote; REol].

Definition cleanField (f : list ascii) : list ascii :=
  replace_first false unquoteRe [TGroup 1] (trim f).

(** The loop of [parseCSVLine]: [prev] is the previous character, if any. *)
Fixpoint csvLoop (delimiter : ascii) (line : list ascii)
  (prev : option ascii) (insideQuotes : bool) (currentStr : list ascii)
  (result : list (list ascii)) : list (list ascii) :=
  match line with
  | [] =>
      match currentStr with
      | [] => rev result
      | _ :: _ => rev (cleanField (rev currentStr) :: result)
      end
  | char :: tl =>
      if Ascii.eqb char dquote &&
         match prev with
         | None => true
         | Some p => negb (Ascii.eqb p "\")
         end
      then csvLoop delimiter tl (Some char) (negb insideQuotes) currentStr result
      else if Ascii.eqb char delimiter && negb insideQuotes
      then csvLoop delimiter tl (Some char) insideQuotes []
             (cleanField (rev currentStr) :: result)
      else csvLoop delimiter tl (Some char) insideQuotes
             (char :: currentStr) result
  end.

Definition parseCSVLine (line : list ascii) (delimiter : ascii)
  : list (list ascii) :=
  csvLoop delimiter line None false [] [].

(** [row[headers[j]] = vals[j] !== undefined ? vals[j] : ''] for every [j],
    for headers other than [__proto__] (see [obj_set]). *)
Fixpoint fillRow (headers : list string) (vals : list (list ascii))
  (row : Row) : Row :=
  match headers with
  | [] => row
  | h :: headers' =>
      match vals with
      | v :: vals' => fillRow headers' vals' (obj_set h (str v) row)
      | [] => fillRow headers' [] (obj_set h EmptyString row)
      end
  end.

Definition is_blank (line : list ascii) : bool :=
  match trim line with [] => true | _ :: _ => false end.

Definition parseCsvString (content : string) : DocumentRecord :=
  let text := chars content in
  let lines :=
    if includes text [cr; nl] then split_crlf text [] else split_char nl text [] in
  match lines with
  | [] => mkDoc (CText content) TCsv None false None None None
  | firstLine :: rest =>
      let delimiter :=
        if includes firstLine [tab] &&
           Nat.ltb 1 (List.length (split_char tab firstLine []))
        then tab
        else if includes firstLine [";"%char] &&
                Nat.ltb 1 (List.length (split_char ";" firstLine []))
        then ";"%char
        else ","%char in
      let headers :=
        map (fun h => str (cleanField h)) (split_char delimiter firstLine []) in
      let data :=
        map (fun line => fillRow headers (parseCSVLine line delimiter) [])
            (filter (fun line => negb (is_blank line)) rest) in
      mkDoc (CRows data) TCsv (Some headers) true None None None
  end.

(** [parseCsvContent].  A buffer has no [split] method: the call throws a
    [TypeError], which the function catches. *)
Definition parseCsvContent (content : FileContent) : DocumentRecord :=
  match content with
  | FString s => parseCsvString s
  | FBuffer _ =>
      mkDoc (CRaw content) TText None false
            (Some "content.split is not a function") None None
  end.

(** What [pdfParse] resolves to, as far as the parser reads it. *)
Record PdfData : Type := mkPdfData { pdf_text : string }.

Section WithLibraries.

(** [pdfParse(buffer, options)] when the flag is [true], [pdfParse(buffer)]
    otherwise; [Throw] carries the message of the error. *)
Variable pdfParse : FileContent -> bool -> Res PdfData.
(** [processPdfText] and [extractKeywords], total functions on strings. *)
Variable processPdfText : string -> string.
Variable extractKeywords : string -> list string.
(** [mammoth.extractRawText({ buffer })], giving [result.value]. *)
Variable extractRawText : FileContent -> Res string.
(** [XLSX.read] followed by [sheet_to_json] with [header: 1] on the first
    sheet: the rows of cells. *)
Variable readFirstSheet : FileContent -> Res (list (list string)).
(** [new TextDecoder('utf-8').decode]. *)
Variable decodeUtf8 : list ascii -> string.

Definition parsePdfContent (buffer : FileContent) : Res DocumentRecord :=
  try_catch
    (data <- pdfParse buffer true ;;
     let processedText := processPdfText (pdf_text data) in
     Ok (mkDoc (CText processedText) TPdf None true None
               (Some (extractKeywords processedText)) None))
    (fun error =>
       try_catch
         (data <- pdfParse buffer false ;;
          Ok (mkDoc (CText (pdf_text data)) TPdf None true None None None))
         (fun fallbackError =>
            Ok (mkDoc
                  (CText ("Failed to parse PDF content after multiple attempts: "
                          ++ error))
                  TPdf None false (Some error) None None))).

Definition parseDocxContent (buffer : FileContent) : Res DocumentRecord :=
  try_catch
    (value <- extractRawText buffer ;;
     Ok (mkDoc (CText value) TDocx None true None None None))
    (fun error =>
       Ok (mkDoc (CText ("Failed to parse DOCX content: " ++ error))
                 TDocx None false (Some error) None None)).

Definition is_empty_row (r : list string) : bool :=
  match r with [] => true | _ :: _ => false end.

Fixpoint fillCells (headers : list string) (cells : list string) (row : Row)
  : Row :=
  match headers with
  | [] => row
  | h :: headers' =>
      match cells with
      | v :: cells' => fillCells headers' cells' (obj_set h v row)
      | [] => fillCells headers' [] (obj_set h EmptyString row)
      end
  end.

Definition parseExcelContent (buffer : FileContent) : Res DocumentRecord :=
  try_catch
    (jsonData <- readFirstSheet buffer ;;
     match jsonData with
     | [] =>
         Ok (mkDoc (CText "Excel file appears to be empty") TExcel None false
                   None None None)
     | first :: rest =>
         let headers := map (fun h => str (trim (chars h))) first in
         let data :=
           map (fun r => fillCells headers r [])
               (filter (fun r => negb (is_empty_row r)) rest) in
         Ok (mkDoc (CRows data) TExcel (Some headers) true None None None)
     end)
    (fun error =>
       Ok (mkDoc (CText ("Failed to parse Excel file: " ++ error))
                 TExcel None false (Some error) None None)).

(** [/\r\n/g], [/\r/g] and [/\n{3,}/g] *)
Definition crlfRe : regex := RSeq (RChar cr) (RChar nl).
Definition crRe : regex := RChar cr.
Definition blankLinesRe : regex :=
  rseq [RChar nl; RChar nl; RChar nl; RStar true (RChar nl)].

Definition parseTextContent (content : FileContent) : Res DocumentRecord :=
  let textContent :=
    match content with
    | FBuffer bytes => decodeUtf8 bytes
    | FString s => s
    end in
  let normalizedText :=
    replace_all false blankLinesRe [TLit (String nl (String nl EmptyString))]
      (replace_all false crRe [TLit (String nl EmptyString)]
         (replace_all false crlfRe [TLit (String nl EmptyString)]
            (chars textContent))) in
  Ok (mkDoc (CText (str normalizedText)) TText None true None None None).

Definition mimeHas (mimeType : option string) (part : string) : bool :=
  match mimeType with
  | Some m => includes (chars m) (chars part)
  | None => false
  end.

Definition parseDocument (fileContent : FileContent)
  (mimeType : option string) (fileName : string) : Res DocumentRecord :=
  try_catch
    (if mimeHas mimeType "pdf" then parsePdfContent fileContent
     else if mimeHas mimeType "msword" ||
             mimeHas mimeType "officedocument.wordprocessingml.document"
     then parseDocxContent fileContent
     else if mimeHas mimeType "csv" then Ok (parseCsvContent fileContent)
     else if mimeHas mimeType "excel" ||
             mimeHas mimeType "spreadsheetml.sheet"
     then parseExcelContent fileContent
     else parseTextContent fileContent)
    (fun error =>
       Ok (mkDoc (CText ("Failed to parse document: " ++ error)) TError None
                 false (Some error) None None)).

End WithLibraries.

End Parser.

(** ** DocumentCombiner (pages/api/process-documents.js) *)

(** An entry of [processedDocuments]: a file that could not be read or
    parsed, or a file with its extracted data, whose [parsed] flag is the
    one of the data. *)
Inductive ProcessedDocument : Type :=
| Failed (fileName : string) (error : string)
| Processed (fileName : string) (extractedData : DocumentRecord).

Module Combiner.
Import JS.

Definition doc_parsed (d : ProcessedDocument) : bool :=
  match d with
  | Failed _ _ => false
  | Processed _ data => parsed data
  end.

Definition doc_fileName (d : ProcessedDocument) : string :=
  match d with
  | Failed n _ => n
  | Processed n _ => n
  end.

(** The valid documents, with their data at hand. *)
Fixpoint validDocuments (docs : list ProcessedDocument)
  : list (string * DocumentRecord) :=
  match docs with
  | [] => []
  | Failed _ _ :: docs' => validDocuments docs'
  | Processed n data :: docs' =>
      if parsed data then (n, data) :: validDocuments docs'
      else validDocuments docs'
  end.

Definition str_in (x : string) (l : list string) : bool :=
  existsb (String.eqb x) l.

(** [new Set(...)] followed by [Array.from]: first occurrences, in order. *)
Fixpoint set_add_all (xs : list string) (seen : list string) : list string :=
  match xs with
  | [] => seen
  | x :: xs' =>
      if str_in x seen then set_add_all xs' seen
      else set_add_all xs' (seen ++ [x])%list
  end.

Fixpoint type_set (ts : list DocType) (seen : list DocType) : list DocType :=
  match ts with
  | [] => seen
  | t :: ts' =>
      if existsb (DocType_eqb t) seen then type_set ts' seen
      else type_set ts' (seen ++ [t])%list
  end.

Definition has_type (t : DocType) (ts : list DocType) : bool :=
  existsb (DocType_eqb t) ts.

(** The row that the tabular merge pushes for [row] of file [fileName],
    for headers other than [__proto__] (see [obj_set]). *)
Definition standardizeRow (headers : list string) (fileName : string)
  (row : Row) : Row :=
  let initial :=
    fold_left (fun r header => obj_set header EmptyString r) headers [] in
  let filled :=
    fold_left
      (fun r kv => if str_in (fst kv) headers
                   then obj_set (fst kv) (snd kv) r else r)
      row initial in
  obj_set "Source File" fileName filled.

Definition rowsOf (data : DocumentRecord) : list Row :=
  match content data with
  | CRows rows => rows
  | _ => []
  end.

Definition mergeTabular (t : DocType) (valid : list (string * DocumentRecord))
  : DocumentRecord :=
  let allHeaders :=
    fold_left
      (fun acc d =>
         match headers (snd d) with
         | Some hs => set_add_all hs acc
         | None => acc
         end)
      valid [] in
  let rows :=
    flat_map
      (fun d => map (standardizeRow allHeaders (fst d)) (rowsOf (snd d)))
      valid in
  let finalHeaders :=
    if str_in "Source File" allHeaders then allHeaders
    else (allHeaders ++ ["Source File"])%list in
  mkDoc (CRows rows) t (Some finalHeaders) true None None
        (Some (map fst valid)).

Definition dlf : string := lf ++ lf.

Definition comma : list ascii := [","%char].

(** A row rendered as a line of comma-separated values. *)
Definition renderCell (r : Row) (header : string) : string :=
  match obj_get header r with
  | Some value =>
      if includes (chars value) comma
      then Recovery.dq ++ value ++ Recovery.dq else value
  | None => EmptyString
  end.

Definition rowsToText (hs : option (list string)) (rows : list Row) : string :=
  let headers :=
    match hs with
    | Some h => h
    | None => match rows with r :: _ => map fst r | [] => [] end
    end in
  String.concat "," headers ++ lf ++
  String.concat EmptyString
    (map (fun r => String.concat "," (map (renderCell r) headers) ++ lf) rows).

Section WithStringify.

(** [JSON.stringify] on a content that is not a string. *)
Variable JSON_stringify : DocContent -> string.

Definition mergeText (tys : list DocType)
  (valid : list (string * DocumentRecord)) : DocumentRecord :=
  let text :=
    String.concat EmptyString
      (map (fun d =>
              dlf ++ "===== DOCUMENT: " ++ fst d ++ " =====" ++ dlf ++
              match content (snd d) with
              | CText s => s
              | c => JSON_stringify c
              end) valid) in
  let allKeywords :=
    fold_left
      (fun acc d =>
         match keywords (snd d) with
         | Some ks => set_add_all ks acc
         | None => acc
         end)
      valid [] in
  mkDoc (CText text) TText None true None (Some allKeywords)
        (Some (map fst valid)).

Definition mergeMixed (valid : list (string * DocumentRecord))
  : DocumentRecord :=
  let text :=
    String.concat EmptyString
      (map (fun d =>
              dlf ++ "===== DOCUMENT: " ++ fst d ++
              " (" ++ typeName (type (snd d)) ++ ") =====" ++ dlf ++
              match content (snd d) with
              | CText s => s
              | CRows rows => rowsToText (headers (snd d)) rows
              | c => JSON_stringify c
              end) valid) in
  mkDoc (CText text) TText None true None None (Some (map fst valid)).

Definition combineDocumentData (processedDocuments : list ProcessedDocument)
  : DocumentRecord :=
  let valid := validDocuments processedDocuments in
  match valid with
  | [] => mkDoc (CText "No valid documents to process") TText None false
                None None None
  | [d] => snd d
  | _ =>
      let docTypes := type_set (map (fun d => type (snd d)) valid) [] in
      match docTypes with
      | [t] =>
          if DocType_eqb t TCsv || DocType_eqb t TExcel
          then mergeTabular t valid
          else if has_type TPdf docTypes || has_type TDocx docTypes ||
                  has_type TText docTypes
          then mergeText docTypes valid
          else mergeMixed valid
      | _ =>
          if has_type TPdf docTypes || has_type TDocx docTypes ||
             has_type TText docTypes
          then mergeText docTypes valid
          else mergeMixed valid
      end
  end.

End WithStringify.

End Combiner.

(** ** DocumentMetricsExtractor: the last step of [extractProcessMetrics]
    (utils/documentGenerator.js) *)

Module DocMetrics.
Import JS.

(** The entry that the padding loop pushes when the list has [len]
    entries. *)
Definition placeholder (len : nat) : StepTime :=
  mkStepTime (N_to_string (N.of_nat (len + 1)))
             ("Step " ++ N_to_string (N.of_nat (len + 1)))
             "Not specified".

(** [while (stepTimes.length < totalSteps) stepTimes.push(...)], with the
    number of iterations that remain. *)
Fixpoint pad (remaining : nat) (stepTimes : list StepTime) : list StepTime :=
  match remaining with
  | O => stepTimes
  | S remaining' =>
      pad remaining' (stepTimes ++ [placeholder (List.length stepTimes)])%list
  end.

(** The block that makes the number of step times match the total. *)
Definition adjustStepTimes (totalSteps : N) (stepTimes : list StepTime)
  : list StepTime :=
  let n := N.to_nat totalSteps in
  if negb (Nat.eqb (List.length stepTimes) n) && (0 <? totalSteps)%N then
    let trimmed :=
      if Nat.ltb n (List.length stepTimes) then firstn n stepTimes
      else stepTimes in
    pad (n - List.length trimmed) trimmed
  else stepTimes.

(** What [extractProcessMetrics] returns once the table and the text have
    given [totalSteps], [totalTime] and [stepTimes]. *)
Definition finishProcessMetrics (totalSteps : N) (totalTime : string)
  (stepTimes : list StepTime) : Metrics :=
  mkMetrics totalSteps totalTime None (adjustStepTimes totalSteps stepTimes)
            None.

End DocMetrics.

(** ** Calls to the generation provider *)

Module Provider.

(** The outcome of one call of [anthropic.messages.create], followed by the
    read of [response.content[0].text]. *)
Inductive outcome : Type :=
| Reply (text : string)
| Failure (message : string).

(** A computation that calls the provider: it is given the outcomes of the
    calls still to come and returns its result with the outcomes it has
    not used, and the number of calls it made. *)
Definition Calls (A : Type) : Type :=
  list outcome -> nat -> Res A * (list outcome * nat).

Definition ret {A : Type} (a : A) : Calls A := fun w n => (Ok a, (w, n)).

Definition throw {A : Type} (e : string) : Calls A :=
  fun w n => (Throw e, (w, n)).

Definition cbind {A B : Type} (m : Calls A) (f : A -> Calls B) : Calls B :=
  fun w n =>
    match m w n with
    | (Ok a, (w', n')) => f a w' n'
    | (Throw e, st) => (Throw e, st)
    end.

Definition ctry {A : Type} (body : Calls A) (handler : string -> Calls A)
  : Calls A :=
  fun w n =>
    match body w n with
    | (Ok a, st) => (Ok a, st)
    | (Throw e, (w', n')) => handler e w' n'
    end.

(** One call of the provider.  When no outcome is left the call fails. *)
Definition create : Calls string :=
  fun w n =>
    match w with
    | Reply text :: w' => (Ok text, (w', S n))
    | Failure e :: w' => (Throw e, (w', S n))
    | [] => (Throw "no response", ([], S n))
    end.

Notation "x <-- m ;;; k" := (cbind m (fun x => k))
  (at level 61, m at next level, right associativity).

Record FormattedDocument : Type := mkFormatted {
  fd_content : string;
  fd_format : string
}.

Section DocumentGenerator.

(** [processGeneratedContent], a total function on strings. *)
Variable processGeneratedContent : string -> string.

(** [generateFormattedDocument] (utils/documentGenerator.js).  Building
    the prompt makes no call and is taken not to throw. *)
Definition generateFormattedDocument : Calls FormattedDocument :=
  ctry
    (generatedContent <-- create ;;;
     ret (mkFormatted (processGeneratedContent generatedContent) "html"))
    (fun error =>
       ctry
         (generatedContent <-- create ;;;
          ret (mkFormatted (processGeneratedContent generatedContent) "html"))
         (fun claudeError => throw error)).

End DocumentGenerator.

(** The response of the optimization handler. *)
Inductive Response (A : Type) : Type :=
| Status200 (body : A)
| Status400 (error : string)
| Status405 (error : string)
| Status500 (error : string) (message : string).

Arguments Status200 {A} body.
Arguments Status400 {A} error.
Arguments Status405 {A} error.
Arguments Status500 {A} error message.

Section OptimizeHandler.

Variable Body : Type.
(** Everything the handler does once the provider has answered: parsing
    the answer and building the optimized process; it may throw. *)
Variable buildOptimizedProcess : string -> Res Body.

(** [handler] of pages/api/optimize-process.js: [isPost] tells whether the
    method is POST, [hasData] whether both [originalMetrics] and
    [workflowDiagram] are present in the request body, which is taken to
    be an object; [OptimizeRequest.handler] below adds the body that is
    [null] or [undefined]. *)
Definition handler (isPost hasData : bool) : Calls (Response Body) :=
  if negb isPost then ret (Status405 "Method not allowed")
  else
    ctry
      (if negb hasData then ret (Status400 "Missing required data")
       else
         optimizationResult <--
           ctry create (fun openaiError => create) ;;;
         match buildOptimizedProcess optimizationResult with
         | Ok optimizedProcess => ret (Status200 optimizedProcess)
         | Throw e => throw e
         end)
      (fun error => ret (Status500 "Failed to optimize process" error)).

End OptimizeHandler.

End Provider.

(** The pieces of [l] joined by double-quote characters. *)
Definition quoted (l : list string) : string :=
  String.concat Recovery.dq l.

(** * Further code of the pipeline *)

(** ** Step times of the optimization response
    (pages/api/optimize-process.js) *)

Module OptimizeSteps.
Import JS.

(** The numbers of steps are natural numbers here: the count that the
    prompt asks of the provider ([None] when the answer has none), and the
    count of the original metrics.  What the block does with a value of
    another kind (a fraction, a negative number, a string) is not part of
    this model. *)

(** [parsedResult.totalSteps || Math.floor(originalMetrics.totalSteps * 0.7)] *)
Definition optimizedTotalSteps (parsedTotalSteps : option N)
  (originalTotalSteps : N) : N :=
  Merger.orN parsedTotalSteps (Merger.floor07 originalTotalSteps).

(** The entry that the padding loop pushes when the list has [len]
    entries. *)
Definition placeholder (len : nat) : StepTime :=
  mkStepTime (N_to_string (N.of_nat (len + 1)))
             ("Optimized Step " ++ N_to_string (N.of_nat (len + 1)))
             "Not specified".

(** [while (optimizedStepTimes.length < optimizedTotalSteps) push(...)],
    with the number of iterations that remain. *)
Fixpoint pad (remaining : nat) (stepTimes : list StepTime) : list StepTime :=
  match remaining with
  | O => stepTimes
  | S remaining' =>
      pad remaining' (stepTimes ++ [placeholder (List.length stepTimes)])%list
  end.

(** The block that makes the step times of the response match the
    optimized number of steps; [None] stands for a missing
    [parsedResult.stepTimes]. *)
Definition optimizedStepTimes (optimizedTotalSteps : N)
  (parsedStepTimes : option (list StepTime)) : list StepTime :=
  let stepTimes := match parsedStepTimes with Some l => l | None => [] end in
  let n := N.to_nat optimizedTotalSteps in
  if negb (Nat.eqb (List.length stepTimes) n) then
    let trimmed :=
      if Nat.ltb n (List.length stepTimes) then firstn n stepTimes
      else stepTimes in
    pad (n - List.length trimmed) trimmed
  else stepTimes.

End OptimizeSteps.

(** ** The text pass of [extractProcessMetrics]
    (utils/documentGenerator.js) *)

Module DocMetricsText.
Import Chars Regex JS.

(** [/Step\s+(\d+):\s*([^.]+)(?:[^E]{0,}Estimated time:\s*([^<\n,]+))?/gi]
    (the source writes the repetition of [[^E]] with a star).  The third
    capture is set only when the optional part takes part in the match. *)
Definition stepPattern : regex :=
  rseq [rlit "Step"; RPlus true rspace; RGroup 1 (RPlus true rdigit);
        RChar ":"; RStar true rspace;
        RGroup 2 (RPlus true (rnone_of "."));
        ROpt (rseq [RStar true (rnone_of "E"); rlit "Estimated time:";
                    RStar true rspace;
                    RGroup 3 (RPlus true
                                (RSet true [CChar "<"; CChar Parser.nl;
                                            CChar ","]))])].

(** The loop over [stepPattern.exec(documentContent)]. *)
Definition textStepTimes (documentContent : list ascii) : list StepTime :=
  map (fun m =>
         mkStepTime (str (Diagram.group_or_empty 1 m))
                    (str (trim (Diagram.group_or_empty 2 m)))
                    (match group 3 m with
                     | Some (c :: v) => str (trim (c :: v))
                     | _ => "Not specified"
                     end))
      (exec_all true stepPattern documentContent).

Definition is_nil {A : Type} (l : list A) : bool :=
  match l with [] => true | _ :: _ => false end.

(** [extractProcessMetrics] once the rows of the table have given
    [totalSteps], [totalTime] and [stepTimes]: the pass over the text when
    the table gave no step, then the adjustment of the list. *)
Definition extractProcessMetricsFrom (totalSteps : N) (totalTime : string)
  (stepTimes : list StepTime) (documentContent : list ascii) : Metrics :=
  match stepTimes with
  | [] =>
      let stepTimes' := textStepTimes documentContent in
      let totalSteps' :=
        if negb (is_nil stepTimes') && (totalSteps =? 0)%N
        then N.of_nat (List.length stepTimes') else totalSteps in
      DocMetrics.finishProcessMetrics totalSteps' totalTime stepTimes'
  | _ :: _ => DocMetrics.finishProcessMetrics totalSteps totalTime stepTimes
  end.

End DocMetricsText.

(** ** The list of files to upload (components/FileUploader.jsx) *)

Module Uploader.
Import JS.

(** What the component reads of a browser [File]. *)
Record File : Type := mkFile {
  f_name : string;
  f_size : N;
  f_type : string
}.

Definition MAX_FILES : nat := 5.
Definition MAX_FILE_SIZE : N := 15 * 1024 * 1024.

Definition acceptedTypes : list string :=
  ["application/pdf";
   "application/msword";
   "application/vnd.openxmlformats-officedocument.wordprocessingml.document";
   "text/plain";
   "text/csv";
   "application/vnd.ms-excel";
   "application/vnd.openxmlformats-officedocument.spreadsheetml.sheet"].

(** The state of the component: the files listed and the error shown. *)
Record State : Type := mkState {
  files : list File;
  uploadError : option string
}.

Definition initial : State := mkState [] None.

Definition tooManyError (selected : nat) : string :=
  "You can upload a maximum of " ++ N_to_string (N.of_nat MAX_FILES) ++
  " files at once. You've selected " ++ N_to_string (N.of_nat selected) ++
  " files.".

Definition fileError (f : File) (what : string) : string :=
  "File " ++ Recovery.dq ++ f_name f ++ Recovery.dq ++ what.

Definition is_listed (files : list File) (file : File) : bool :=
  existsb (fun existingFile => String.eqb (f_name existingFile) (f_name file))
          files.

(** The loop over the new files: the files kept and the errors, both in
    order. *)
Fixpoint validate (files newFiles : list File) : list File * list string :=
  match newFiles with
  | [] => ([], [])
  | file :: more =>
      let validatedFiles := fst (validate files more) in
      let errors := snd (validate files more) in
      if (MAX_FILE_SIZE <? f_size file)%N
      then (validatedFiles,
            fileError file " exceeds the 15MB size limit." :: errors)
      else if negb (Combiner.str_in (f_type file) acceptedTypes)
      then (validatedFiles,
            fileError file
              " is not a supported format. Please upload PDF, DOC, DOCX, TXT, CSV, or XLSX files."
            :: errors)
      else if is_listed files file
      then (validatedFiles,
            fileError file " is already in the upload list." :: errors)
      else (file :: validatedFiles, errors)
  end.

(** [handleFiles], run on the state that the previous events have left. *)
Definition handleFiles (st : State) (newFiles : list File) : State :=
  if Nat.ltb MAX_FILES (List.length (files st) + List.length newFiles)
  then mkState (files st)
               (Some (tooManyError
                        (List.length (files st) + List.length newFiles)))
  else
    mkState (files st ++ fst (validate (files st) newFiles))%list
            (match snd (validate (files st) newFiles) with
             | e :: _ => Some e
             | [] => None
             end).

(** [prevFiles.filter((_, i) => i !== index)] *)
Definition removeFile (st : State) (index : nat) : State :=
  mkState
    (map snd
       (filter (fun p => negb (Nat.eqb (fst p) index))
               (combine (seq 0 (List.length (files st))) (files st))))
    (uploadError st).

(** [formData.append(`document${index}`, file)] for every listed file. *)
Definition formKey (index : nat) : string :=
  "document" ++ N_to_string (N.of_nat index).

Definition formData (files : list File) : list (string * File) :=
  combine (map formKey (seq 0 (List.length files))) files.

(** What happens to the component: files are selected or dropped, a file
    is removed, or [uploadFiles] runs, which does nothing when no file is
    listed; otherwise it clears the error, and then either the upload
    succeeds, which empties the list, or it fails, which shows the message
    of its error and keeps the list. *)
Inductive event : Type :=
| Select (newFiles : list File)
| Remove (index : nat)
| UploadDone
| UploadFailed (message : string).

Definition step_event (st : State) (e : event) : State :=
  match e with
  | Select newFiles => handleFiles st newFiles
  | Remove index => removeFile st index
  | UploadDone =>
      match files st with
      | [] => st
      | _ :: _ => mkState [] None
      end
  | UploadFailed message =>
      match files st with
      | [] => st
      | _ :: _ => mkState (files st) (Some message)
      end
  end.

Definition run (events : list event) : State :=
  fold_left step_event events initial.

End Uploader.

(** ** The upload handler (pages/api/process-documents.js) *)

Module Ingest.
Import JS.

(** A property of the parsed form: one file, or an array of files. *)
Inductive FormValue (F : Type) : Type :=
| One (file : F)
| Many (files : list F).

Arguments One {F} file.
Arguments Many {F} files.

(** The files under the keys [document0] to [document4], in this order. *)
Definition documentFiles {F : Type} (files : list (string * FormValue F))
  : list F :=
  flat_map (fun i =>
              match obj_get (Uploader.formKey i) files with
              | Some (One file) => [file]
              | Some (Many fs) => fs
              | None => []
              end)
           (seq 0 5).

(** What the handler reads of an uploaded file; every property may be
    missing. *)
Record UploadedFile : Type := mkUploaded {
  uf_filepath : option string;
  uf_path : option string;
  uf_originalFilename : option string;
  uf_name : option string;
  uf_mimetype : option string;
  uf_type : option string
}.

(** [a || b || ...] on optional strings: the first one that is present and
    not empty. *)
Fixpoint firstTruthy (l : list (option string)) : option string :=
  match l with
  | [] => None
  | Some (String c s) :: _ => Some (String c s)
  | _ :: l' => firstTruthy l'
  end.

Definition orDefault (o : option string) (d : string) : string :=
  match o with Some s => s | None => d end.

Section Handler.

(** [fs.readFileSync(path, 'utf-8')] when the flag is [true],
    [fs.readFileSync(path)] otherwise, on the files as they are when the
    handler starts. *)
Variable readFileSync : string -> bool -> Res FileContent.
(** Whether [fs.unlinkSync(path)] succeeds. *)
Variable canUnlink : string -> bool.
Variable parseDocument :
  FileContent -> option string -> string -> Res DocumentRecord.

(** A read of a file that the handler has deleted fails. *)
Definition readFile (deleted : list string) (filePath : string)
  (utf8 : bool) : Res FileContent :=
  if Combiner.str_in filePath deleted
  then Throw "ENOENT: no such file or directory"
  else readFileSync filePath utf8.

(** The loop over the uploaded files: the entries of [processedDocuments]
    and the paths deleted so far, most recent first. *)
Fixpoint processFiles (documentFiles : list UploadedFile)
  (deleted : list string) : list ProcessedDocument * list string :=
  match documentFiles with
  | [] => ([], deleted)
  | documentFile :: more =>
      match firstTruthy [uf_filepath documentFile; uf_path documentFile] with
      | None =>
          let r := processFiles more deleted in
          (Failed (orDefault (firstTruthy [uf_originalFilename documentFile])
                             "unknown")
                  "File path could not be determined" :: fst r, snd r)
      | Some filePath =>
          let fileName :=
            orDefault (firstTruthy [uf_originalFilename documentFile;
                                    uf_name documentFile]) "unknown" in
          let mimeType :=
            orDefault (firstTruthy [uf_mimetype documentFile;
                                    uf_type documentFile]) "text/plain" in
          match readFile deleted filePath
                  (includes (chars mimeType) (chars "text") ||
                   includes (chars mimeType) (chars "csv")) with
          | Throw readError =>
              let r := processFiles more deleted in
              (Failed fileName ("Failed to read file: " ++ readError)
               :: fst r, snd r)
          | Ok fileContent =>
              match parseDocument fileContent (Some mimeType) fileName with
              | Ok extractedData =>
                  let deleted' :=
                    if canUnlink filePath then filePath :: deleted
                    else deleted in
                  let r := processFiles more deleted' in
                  (Processed fileName extractedData :: fst r, snd r)
              | Throw parseError =>
                  let r := processFiles more deleted in
                  (Failed fileName ("Failed to parse file: " ++ parseError)
                   :: fst r, snd r)
              end
          end
      end
  end.

(** [JSON.stringify] on a content that is not a string, as the combiner
    uses it. *)
Variable JSON_stringify : DocContent -> string.

(** How far the handler gets before it generates documents. *)
Inductive Outcome : Type :=
| NoDocuments
| NoneProcessed (details : list ProcessedDocument)
| Combined (processedDocuments : list ProcessedDocument)
           (combinedExtractedData : DocumentRecord).

Definition ingest (documentFiles : list UploadedFile) : Outcome :=
  match documentFiles with
  | [] => NoDocuments
  | _ :: _ =>
      let processedDocuments := fst (processFiles documentFiles []) in
      if forallb (fun doc => negb (Combiner.doc_parsed doc)) processedDocuments
      then NoneProcessed processedDocuments
      else Combined processedDocuments
             (Combiner.combineDocumentData JSON_stringify processedDocuments)
  end.

End Handler.

End Ingest.

(** ** Workflow generation (utils/workflowGenerator.js) *)

Module WorkflowGen.
Import Chars Regex JS Provider.

(** Three backquotes and [mermaid], white space, the lazily captured
    body, white space, three backquotes. *)
Definition mermaidRe : regex :=
  rseq [rlit "```mermaid"; RStar true rspace;
        RGroup 1 (RStar false ranychar); RStar true rspace; rlit "```"].

(** The diagram code taken from the answer: the trimmed body of the first
    fenced block when there is one and its body is not empty, the whole
    answer otherwise. *)
Definition diagramOf (generatedContent : string) : string :=
  match exec false mermaidRe (chars generatedContent) with
  | Some mermaidMatch =>
      match Diagram.group_or_empty 1 mermaidMatch with
      | [] => generatedContent
      | c :: body => str (trim (c :: body))
      end
  | None => generatedContent
  end.

(** [/\[\s*Step\s+\d+|QStep\s+\d+|Step\s+\d+/gi], Q the double-quote
    character. *)
Definition stepRe : regex :=
  ralt (rseq [RChar "["; RStar true rspace; rlit "Step"; RPlus true rspace;
              RPlus true rdigit])
       [rseq [RChar dquote; rlit "Step"; RPlus true rspace;
              RPlus true rdigit];
        rseq [rlit "Step"; RPlus true rspace; RPlus true rdigit]].

(** [/(\d+)\s*(min|minute|minutes?|hour|hours?|day|days?|hr|hrs)/gi] *)
Definition timeRe : regex :=
  rseq [RGroup 1 (RPlus true rdigit); RStar true rspace;
        RGroup 2
          (ralt (rlit "min")
                [rlit "minute"; RSeq (rlit "minute") (ROpt (RChar "s"));
                 rlit "hour"; RSeq (rlit "hour") (ROpt (RChar "s"));
                 rlit "day"; RSeq (rlit "day") (ROpt (RChar "s"));
                 rlit "hr"; rlit "hrs"])].

(** The body of the [forEach] over the time estimates; the tests on the
    unit are [String.prototype.includes], which regards case. *)
Definition addTime (acc : N * bool) (time : list ascii) : N * bool :=
  match exec false Diagram.numberRe time with
  | None => acc
  | Some valueMatch =>
      let value := parseInt (Diagram.group_or_empty 1 valueMatch) in
      if includes time (chars "hour") || includes time (chars "hr")
      then (fst acc + value * 60, true)%N
      else if includes time (chars "min") then (fst acc + value, true)%N
      else if includes time (chars "day")
      then (fst acc + value * 60 * 8, true)%N
      else acc
  end.

Record WorkflowMetrics : Type := mkWorkflowMetrics {
  wm_totalSteps : N;
  wm_timeEstimates : list string;
  wm_totalTime : string
}.

(** The [extractWorkflowMetrics] of this module, on a string. *)
Definition extractWorkflowMetrics (diagramCode : string) : WorkflowMetrics :=
  let code := chars diagramCode in
  let stepMatches := match_all true stepRe code in
  let timeEstimates := map trim (match_all true timeRe code) in
  let '(totalTimeMinutes, hasValidTotalTime) :=
    fold_left addTime timeEstimates (0%N, false) in
  mkWorkflowMetrics
    (N.of_nat (List.length stepMatches))
    (map str timeEstimates)
    (if hasValidTotalTime then Diagram.formatTotal totalTimeMinutes
     else "Unknown").

Record WorkflowDiagram : Type := mkWorkflowDiagram {
  diagram : string;
  wd_type : string;
  metrics : WorkflowMetrics
}.

(** [generateWorkflow]: one call of the provider, and the error of that
    call thrown again.  Building the prompt makes no call and does not
    throw on the records that the upload handler passes. *)
Definition generateWorkflow : Calls WorkflowDiagram :=
  ctry
    (generatedContent <-- create ;;;
     let diagramCode := diagramOf generatedContent in
     ret (mkWorkflowDiagram diagramCode "mermaid"
            (extractWorkflowMetrics diagramCode)))
    (fun error => throw error).

End WorkflowGen.

(** ** The upload handler, from the request to the response
    (pages/api/process-documents.js) *)

Module UploadHandler.
Import Provider.

(** The metrics of the response. *)
Record ProcessMetrics : Type := mkProcessMetrics {
  pm_totalSteps : N;
  pm_totalTime : string;
  pm_stepTimes : list StepTime
}.

(** An entry of [processedFiles]: the name of the file, whether it was
    parsed, and the type of its data, [unknown] without data. *)
Record FileSummary : Type := mkFileSummary {
  fs_fileName : string;
  fs_parsed : bool;
  fs_type : string
}.

Definition summary (doc : ProcessedDocument) : FileSummary :=
  mkFileSummary (Combiner.doc_fileName doc) (Combiner.doc_parsed doc)
    (match doc with
     | Failed _ _ => "unknown"
     | Processed _ extractedData =>
         Merger.orS (Some (typeName (type extractedData))) "unknown"
     end).

Record Body : Type := mkBody {
  documentCount : nat;
  processedFiles : list FileSummary;
  formattedDocument : FormattedDocument;
  workflowDiagram : WorkflowGen.WorkflowDiagram;
  processMetrics : ProcessMetrics
}.

Inductive UploadResponse : Type :=
| Ok200 (body : Body)
| Bad400 (error : string) (details : list ProcessedDocument)
| NotAllowed405 (error : string)
| Error500 (error : string) (message : string).

Section Handler.

Variable readFileSync : string -> bool -> Res FileContent.
Variable canUnlink : string -> bool.
Variable parseDocument :
  FileContent -> option string -> string -> Res DocumentRecord.
Variable JSON_stringify : DocContent -> string.
Variable processGeneratedContent : string -> string.
(** [extractProcessMetrics], which catches its own errors. *)
Variable extractProcessMetrics : string -> Metrics.
(** [extractWorkflowMetrics] and [mergeMetrics], which the handler imports
    from utils/metricsExtractor. *)
Variable extractWorkflowMetrics : string -> Metrics.
Variable mergeMetrics :
  Metrics -> option Metrics -> option OptimizationMetrics -> Metrics.

(** [handler]: [isPost] tells whether the method is POST, [form] is what
    parsing the form gives, the uploaded files or an error. *)
Definition handler (isPost : bool) (form : Res (list Ingest.UploadedFile))
  : Calls UploadResponse :=
  if negb isPost then ret (NotAllowed405 "Method not allowed")
  else
    ctry
      (match form with
       | Throw e => throw e
       | Ok documentFiles =>
           match Ingest.ingest readFileSync canUnlink parseDocument
                   JSON_stringify documentFiles with
           | Ingest.NoDocuments => ret (Bad400 "No documents uploaded" [])
           | Ingest.NoneProcessed docs =>
               ret (Bad400
                      "None of the uploaded documents could be processed"
                      docs)
           | Ingest.Combined processedDocuments combinedExtractedData =>
               formatted <-- generateFormattedDocument
                               processGeneratedContent ;;;
               workflow <-- WorkflowGen.generateWorkflow ;;;
               let documentMetrics :=
                 extractProcessMetrics (fd_content formatted) in
               let workflowMetrics :=
                 extractWorkflowMetrics (WorkflowGen.diagram workflow) in
               let finalMetrics :=
                 mergeMetrics workflowMetrics (Some documentMetrics) None in
               ret (Ok200
                      (mkBody
                         (List.length documentFiles)
                         (map summary processedDocuments)
                         formatted workflow
                         (mkProcessMetrics
                            (totalSteps finalMetrics)
                            (Merger.orS (Some (totalTime finalMetrics))
                                        "Unknown")
                            (stepTimes finalMetrics))))
           end
       end)
      (fun error => ret (Error500 "Failed to process documents" error)).

End Handler.

End UploadHandler.

(** ** The optimization handler and the body of its request
    (pages/api/optimize-process.js) *)

Module OptimizeRequest.
Import Provider.

(** [req.body] as the handler reads it.  On [null] or [undefined] the
    destructuring at the head of the [try] block throws a [TypeError],
    whose message is [message]; of any other value the two properties are
    read, and what matters of each is whether it is truthy. *)
Inductive RequestBody : Type :=
| NoBody (message : string)
| BodyWith (originalMetrics workflowDiagram : bool).

Section Handler.

Variable Body : Type.
(** Everything the handler does once the provider has answered: parsing
    the answer and building the optimized process; it may throw. *)
Variable buildOptimizedProcess : string -> Res Body.

Definition handler (isPost : bool) (body : RequestBody)
  : Calls (Response Body) :=
  if negb isPost then ret (Status405 "Method not allowed")
  else
    ctry
      (match body with
       | NoBody message => throw message
       | BodyWith originalMetrics workflowDiagram =>
           if negb originalMetrics || negb workflowDiagram
           then ret (Status400 "Missing required data")
           else
             optimizationResult <--
               ctry create (fun openaiError => create) ;;;
             match buildOptimizedProcess optimizationResult with
             | Ok optimizedProcess => ret (Status200 optimizedProcess)
             | Throw e => throw e
             end
       end)
      (fun error => ret (Status500 "Failed to optimize process" error)).

End Handler.

End OptimizeRequest.

(** * Notions used to state the properties *)

(** ** A relational reading of patterns *)

Module RegexSem.
Import Chars Regex.

(** [Matches ci r st st']: the pattern [r] can match from the state [st]
    and leave the state [st'], along some path of the backtracking
    search. *)
Inductive Matches (ci : bool) : regex -> mstate -> mstate -> Prop :=
| M_empty st : Matches ci REmpty st st
| M_char c x tl st :
    rest st = x :: tl -> eqb_ci ci c x = true ->
    Matches ci (RChar c) st (step1 st tl)
| M_any x tl st :
    rest st = x :: tl -> is_newline x = false ->
    Matches ci RAny st (step1 st tl)
| M_set neg items x tl st :
    rest st = x :: tl ->
    xorb neg (existsb (item_matches ci x) items) = true ->
    Matches ci (RSet neg items) st (step1 st tl)
| M_seq r1 r2 st st1 st2 :
    Matches ci r1 st st1 -> Matches ci r2 st1 st2 ->
    Matches ci (RSeq r1 r2) st st2
| M_alt_l r1 r2 st st1 :
    Matches ci r1 st st1 -> Matches ci (RAlt r1 r2) st st1
| M_alt_r r1 r2 st st1 :
    Matches ci r2 st st1 -> Matches ci (RAlt r1 r2) st st1
| M_star_stop g r st : Matches ci (RStar g r) st st
| M_star_more g r st st1 st2 :
    Matches ci r st st1 -> Matches ci (RStar g r) st1 st2 ->
    Matches ci (RStar g r) st st2
| M_group i r st st1 :
    Matches ci r st st1 -> Matches ci (RGroup i r) st (set_cap i st st1)
| M_bol st : pos st = 0 -> Matches ci RBol st st
| M_eol st : rest st = [] -> Matches ci REol st st
| M_look r st st1 :
    Matches ci r st st1 ->
    Matches ci (RLook r) st (MState (pos st) (rest st) (caps st1)).

(** Whatever the matcher returns for [r] comes from a match of [r]
    followed by a success of the continuation. *)
Definition SoundAt (ci : bool) (r : regex) : Prop :=
  forall st k res,
    rmatch ci r st k = Some res ->
    exists st', Matches ci r st st' /\ k st' = Some res.

(** What a search returns comes from a match at the index it reports. *)
Definition FromMatch (ci : bool) (r : regex) (m : rresult) : Prop :=
  exists s st',
    Matches ci r (MState (r_index m) s []) st' /\
    m = mk_result (r_index m) s st'.

(** [Consumed st st' u]: from [st] to [st'] the text [u] has been read and
    no capture recorded. *)
Definition Consumed (st st' : mstate) (u : list ascii) : Prop :=
  rest st = (u ++ rest st')%list /\
  pos st' = pos st + List.length u /\
  caps st' = caps st.

(** The characters of [u] are those of [w], up to case when [ci] holds. *)
Definition SameText (ci : bool) (w u : list ascii) : Prop :=
  Forall2 (fun a x => eqb_ci ci a x = true) w u.

Definition InSet (ci neg : bool) (items : list citem) (x : ascii) : Prop :=
  xorb neg (existsb (item_matches ci x) items) = true.

End RegexSem.

(** ** The duration rule as the specification words it *)

Module DurationSpec.
Import Chars Regex JS.

(** Units are compared without regard to case. *)
Definition upper (u : list ascii) : string := str (map canon u).

Definition unitIs (u : list ascii) (words : list string) : bool :=
  existsb (fun w => String.eqb (upper (chars w)) (upper u)) words.

Definition hourUnits : list string := ["hour"; "hours"; "hr"; "hrs"; "h"].
Definition dayUnits : list string := ["day"; "days"; "d"].
Definition minuteUnits : list string := ["min"; "minute"; "minutes"].

(** Minutes in one unit: 60 for an hour, 8 times 60 for a day, 1 for a
    minute. *)
Definition unitMinutes (u : list ascii) : N :=
  if unitIs u hourUnits then 60
  else if unitIs u dayUnits then 8 * 60
  else if unitIs u minuteUnits then 1
  else 0.

(** What a token contributes: its number times the minutes of its unit. *)
Definition tokenMinutes (m : rresult) : N :=
  parseInt (Diagram.group_or_empty 1 m)
  * unitMinutes (Diagram.group_or_empty 2 m).

Definition sumMinutes (tokens : list rresult) : N :=
  fold_right N.add 0%N (map tokenMinutes tokens).

(** [n unit] or [n units]. *)
Definition counted (n : N) (unit : string) : string :=
  N_to_string n ++ " " ++ unit ++ (if (n =? 1)%N then EmptyString else "s").

(** Hours, with the minutes that remain when there are some, from 60
    minutes on; minutes below. *)
Definition formatDuration (total : N) : string :=
  if (total <? 60)%N then counted total "minute"
  else if (total mod 60 =? 0)%N then counted (total / 60) "hour"
  else counted (total / 60) "hour" ++ " " ++ counted (total mod 60) "minute".

Definition totalTimeOf (tokens : list rresult) : string :=
  match tokens with
  | [] => "Unknown"
  | _ :: _ => formatDuration (sumMinutes tokens)
  end.

End DurationSpec.

(** ** Duration tokens *)

Module DurationShape.
Import Chars Regex JS RegexSem Diagram.

(** The unit words of the duration pattern. *)
Definition unitWords : list string :=
  ["min"; "minute"; "minutes"; "hour"; "hours"; "day"; "days";
   "hr"; "hrs"; "h"; "d"].

(** The shape of a duration token [m]: its digits [ds], white space [ws]
    and unit [u], which is the word [W] up to case. *)
Definition TokenShape (m : rresult) (ds ws u : list ascii) (W : string)
  : Prop :=
  r_whole m = (ds ++ ws ++ u)%list /\
  group 1 m = Some ds /\
  group 2 m = Some u /\
  ds <> [] /\
  Forall (fun x => is_digit x = true) ds /\
  Forall (fun x => is_space x = true) ws /\
  In W unitWords /\
  SameText true (list_ascii_of_string W) u.

Fixpoint starts_ci (w s : list ascii) : bool :=
  match w, s with
  | [], _ => true
  | _ :: _, [] => false
  | a :: w', x :: s' => eqb_ci true a x && starts_ci w' s'
  end.

Fixpoint contains_ci (w s : list ascii) : bool :=
  starts_ci w s ||
  match s with
  | [] => false
  | _ :: tl => contains_ci w tl
  end.

Definition found (o : option rresult) : bool :=
  match o with Some _ => true | None => false end.

Definition no_digit_ahead (tail : list ascii) : Prop :=
  match tail with
  | [] => True
  | x :: _ => is_digit x = false
  end.

(** The factor the three tests of the source select for a unit word. *)
Definition testedFactor (w : list ascii) : option N :=
  if contains_ci ["h"%char] w then Some 60%N
  else if contains_ci ["m"%char; "i"%char; "n"%char] w then Some 1%N
  else if contains_ci ["d"%char] w then Some 480%N
  else None.

End DurationShape.

(** ** Numbers that the source holds exactly *)

Module NumberSpec.

(** [Number.MAX_SAFE_INTEGER].  The numbers of the source are doubles: up
    to this value they hold every natural number, and [parseInt], sums,
    products and the floor of a quotient by 60 are those of [N]. *)
Definition MAX_SAFE_INTEGER : N := 2 ^ 53 - 1.

Definition Safe (n : N) : Prop := (n <= MAX_SAFE_INTEGER)%N.

End NumberSpec.

(** ** Duration tokens, read off the text *)

Module DurationScan.
Import Chars.

Inductive Unit : Type := Minute | Hour | Day.

(** Minutes in one unit; a day counts eight hours. *)
Definition minutesIn (u : Unit) : N :=
  match u with
  | Minute => 1
  | Hour => 60
  | Day => 8 * 60
  end.

(** The unit words in the order of the pattern, each with the unit it
    names. *)
Definition unitWords : list (string * Unit) :=
  [("min", Minute); ("minute", Minute); ("minutes", Minute);
   ("hour", Hour); ("hours", Hour); ("day", Day); ("days", Day);
   ("hr", Hour); ("hrs", Hour); ("h", Hour); ("d", Day)].

(** The letter [a] of a unit word, written [x] in lower or upper case. *)
Definition sameLetter (a x : ascii) : bool :=
  Ascii.eqb x a || Ascii.eqb x (ascii_of_nat (nat_of_ascii a - 32)).

(** What follows the word [w] at the head of [s], when [s] begins with
    it. *)
Fixpoint afterWord (w s : list ascii) : option (list ascii) :=
  match w with
  | [] => Some s
  | a :: w' =>
      match s with
      | x :: s' => if sameLetter a x then afterWord w' s' else None
      | [] => None
      end
  end.

(** The first unit word that [s] begins with, and what follows it. *)
Fixpoint unitAt (words : list (string * Unit)) (s : list ascii)
  : option ((string * Unit) * list ascii) :=
  match words with
  | [] => None
  | wu :: words' =>
      match afterWord (list_ascii_of_string (fst wu)) s with
      | Some rest => Some (wu, rest)
      | None => unitAt words' s
      end
  end.

(** The longest prefix of [s] whose characters satisfy [p], and what
    follows it. *)
Fixpoint leading (p : ascii -> bool) (s : list ascii) : list ascii :=
  match s with
  | x :: s' => if p x then x :: leading p s' else []
  | [] => []
  end.

Fixpoint behind (p : ascii -> bool) (s : list ascii) : list ascii :=
  match s with
  | x :: s' => if p x then behind p s' else s
  | [] => []
  end.

(** The number that decimal digits write, the digits given from the last
    to the first. *)
Fixpoint decimalRev (ds : list ascii) : N :=
  match ds with
  | [] => 0
  | d :: ds' => N.of_nat (nat_of_ascii d - 48) + 10 * decimalRev ds'
  end.

Definition decimal (ds : list ascii) : N := decimalRev (rev ds).

Record Token : Type := mkToken {
  number : N;
  unit : Unit
}.

(** A duration token at the head of [s]: digits, as many as there are,
    white space if any and a unit word; with the token, what follows
    it. *)
Definition tokenAt (s : list ascii) : option (Token * list ascii) :=
  match leading is_digit s with
  | [] => None
  | ds =>
      match unitAt unitWords (behind is_space (behind is_digit s)) with
      | Some (wu, rest) => Some (mkToken (decimal ds) (snd wu), rest)
      | None => None
      end
  end.

(** The tokens of a text from left to right: behind a token the reading
    goes on where the token ends, elsewhere one character further.  Every
    step shortens the text, so that [fuel] above its length reaches the
    end. *)
Fixpoint tokensFrom (fuel : nat) (s : list ascii) : list Token :=
  match fuel with
  | O => []
  | S fuel' =>
      match tokenAt s with
      | Some (t, rest) => t :: tokensFrom fuel' rest
      | None =>
          match s with
          | [] => []
          | _ :: s' => tokensFrom fuel' s'
          end
      end
  end.

Definition tokens (s : string) : list Token :=
  tokensFrom (S (String.length s)) (list_ascii_of_string s).

(** What a token contributes, and the running total. *)
Definition contribution (t : Token) : N := number t * minutesIn (unit t).

Definition totalMinutes (l : list Token) : N :=
  fold_left (fun total t => (total + contribution t)%N) l 0%N.

End DurationScan.

(** ** Rows of a combined record *)

Module CombinerSpec.

(** One step of the copy of a source row: a property is copied when its
    name is one of the headers. *)
Definition copyField (hs : list string) (r : Row) (kv : string * string)
  : Row :=
  if Combiner.str_in (fst kv) hs then obj_set (fst kv) (snd kv) r else r.

(** What a row of the combined record must be, for a source row [row] of
    the file [fileName]: its properties are the headers, each header of the
    sources holds the value of the source row, or the empty string, and
    the last column holds the file name. *)
Definition RowOk (hs : list string) (fileName : string) (row out : Row)
  : Prop :=
  map fst out = (hs ++ ["Source File"])%list /\
  (forall h, In h hs ->
             obj_get h out
             = Some (match obj_get h row with
                     | Some v => v
                     | None => EmptyString
                     end)) /\
  obj_get "Source File" out = Some fileName.

End CombinerSpec.

(** ** Recovered objects *)

Module RecoverySpec.
Import Recovery.

(** The properties that the third attempt may set. *)
Definition fieldNames : list string :=
  ["summary"; "totalSteps"; "totalTime"; "suggestions"; "workflow"].

(** The value is an object, not [null], a number, a string, a boolean or
    an array. *)
Definition is_object (v : json) : Prop :=
  match v with JObj _ => True | _ => False end.

(** Each field of the third attempt is absent or present once, under its
    own name. *)
Definition single (name : string) (fields : list (string * json)) : Prop :=
  fields = [] \/ exists v, fields = [(name, v)].

(** The properties of the object of the third attempt. *)
Definition tier3Fields (JSON_parse : list ascii -> option json)
  (s : list ascii) : list (string * json) :=
  (summaryField s ++ totalStepsField s ++ totalTimeField s ++
   suggestionsField JSON_parse s ++ workflowField s)%list.

End RecoverySpec.

(** ** Sample inputs *)

(** The two metrics objects of a run in which the lengths disagree after
    the merge: the diagram has two labelled steps, one of them with a
    duration; the document metrics are normalised to three steps. *)
Definition mismatchDiagram : string :=
  "graph TD" ++ lf ++ "A[Step 1: Review] --> B[Step 2: Approve (1 hour)]".

Definition mismatchDocument : Metrics :=
  DocMetrics.finishProcessMetrics 3 "2 hours" [].

(** A CSV text with a quote that is never closed, and a text file holding
    the bytes of a truncated PDF. *)
Definition brokenCsv : string :=
  quoted ["name,role" ++ lf ++ "ann,"; "dev, ops" ++ lf ++ "bob,qa"].

Definition brokenText : string :=
  "%PDF-1.4" ++ lf ++ "1 0 obj << /Type /Catalog" ++ lf ++ "stream".

Module FailingLibraries.

(** Libraries that reject every input. *)
Definition noPdf : FileContent -> bool -> Res Parser.PdfData :=
  fun _ _ => Throw "Invalid PDF structure".
Definition noDocx : FileContent -> Res string :=
  fun _ => Throw "Could not find file in options".
Definition noSheet : FileContent -> Res (list (list string)) :=
  fun _ => Throw "File is password-protected".

Definition parseWithFailingLibraries :=
  Parser.parseDocument noPdf (fun s => s) (fun _ => []) noDocx noSheet
                JS.str.

End FailingLibraries.

(** ** Property names *)

Module ObjectSpec.

(** The one property name that an assignment [obj[key] = value] does not
    create on an object literal: the assignment reaches the setter of
    [Object.prototype] and leaves the object without the property. *)
Definition protoKey : string := "__proto__".

Definition Assignable (key : string) : Prop := key <> protoKey.

End ObjectSpec.

(** ** Files of the upload component *)

Module UploaderSpec.
Import Uploader.

(** A file that the component accepts. *)
Definition accepted (f : File) : Prop :=
  (f_size f <= MAX_FILE_SIZE)%N /\ In (f_type f) acceptedTypes.

(** What every state of the component satisfies. *)
Definition Inv (st : State) : Prop :=
  List.length (files st) <= MAX_FILES /\ Forall accepted (files st).

End UploaderSpec.

(** ** Combined records *)

Module CombinedSpec.
Import Combiner.

(** The type of a combined record of two valid documents or more. *)
Definition combinedType (ts : list DocType) : DocType :=
  if forallb (DocType_eqb TCsv) ts then TCsv
  else if forallb (DocType_eqb TExcel) ts then TExcel
  else TText.

(** The union, in order of first occurrence, of the optional lists that
    [field] selects. *)
Definition unionOf (field : DocumentRecord -> option (list string))
  (valid : list (string * DocumentRecord)) (seen : list string)
  : list string :=
  fold_left
    (fun acc (d : string * DocumentRecord) =>
       match field (snd d) with
       | Some hs => set_add_all hs acc
       | None => acc
       end)
    valid seen.

(** The elements of [l] in order of first occurrence, without
    repetition. *)
Fixpoint firstOccurrences (l : list string) : list string :=
  match l with
  | [] => []
  | x :: l' =>
      x :: filter (fun y => negb (String.eqb x y)) (firstOccurrences l')
  end.

(** The headers of a document, none when the record has no such field. *)
Definition headersOf (data : DocumentRecord) : list string :=
  match headers data with Some l => l | None => [] end.

End CombinedSpec.

(** ** Entries of the upload handler *)

Module IngestSpec.
Import Ingest.

Definition filePathOf (f : UploadedFile) : option string :=
  firstTruthy [uf_filepath f; uf_path f].

Definition fileNameOf (f : UploadedFile) : string :=
  orDefault (firstTruthy [uf_originalFilename f; uf_name f]) "unknown".

(** The entry [d] of [processedDocuments] is the one of the uploaded file
    [f]: a failure for a file without a path or a file that cannot be
    read, the extracted data otherwise. *)
Definition Entry (f : UploadedFile) (d : ProcessedDocument) : Prop :=
  match d with
  | Failed n e =>
      (filePathOf f = None /\
       n = orDefault (firstTruthy [uf_originalFilename f]) "unknown" /\
       e = "File path could not be determined") \/
      (exists p m, filePathOf f = Some p /\ n = fileNameOf f /\
                   e = "Failed to read file: " ++ m)
  | Processed n data =>
      exists p, filePathOf f = Some p /\ n = fileNameOf f
  end.

End IngestSpec.

(** ** Fields of a line of delimited text *)

Module ParserSpec.

(** The fields of a line without its last field when that one is empty. *)
Fixpoint dropEmptyLast (fields : list (list ascii)) : list (list ascii) :=
  match fields with
  | [] => []
  | [f] => match f with [] => [] | _ :: _ => [f] end
  | f :: fields' => f :: dropEmptyLast fields'
  end.

(** The last character read, if any. *)
Definition lastRead (l : list ascii) (prev : option ascii) : option ascii :=
  match rev l with
  | x :: _ => Some x
  | [] => prev
  end.

(** The first [n] cells, with empty strings for the cells that are
    missing. *)
Definition cellsFor (n : nat) (cells : list string) : list string :=
  firstn n (cells ++ repeat EmptyString n)%list.

End ParserSpec.

(** ** Replacement of every match, read from left to right *)

Module ReplaceSpec.

Section Scan.

(** [after s] is the text that follows a match at the head of [s], when
    there is one; [t] is the replacement. *)
Variable after : list ascii -> option (list ascii).
Variable t : list ascii.

Fixpoint scan (fuel : nat) (s : list ascii) : list ascii :=
  match fuel with
  | O => s
  | S fuel' =>
      match after s with
      | Some s' => (t ++ scan fuel' s')%list
      | None =>
          match s with
          | [] => []
          | x :: tl => x :: scan fuel' tl
          end
      end
  end.

End Scan.

Definition after_crlf (s : list ascii) : option (list ascii) :=
  match s with
  | c :: d :: tl =>
      if Ascii.eqb Parser.cr c && Ascii.eqb Parser.nl d then Some tl else None
  | _ => None
  end.

Definition after_cr (s : list ascii) : option (list ascii) :=
  match s with
  | c :: tl => if Ascii.eqb Parser.cr c then Some tl else None
  | [] => None
  end.

Fixpoint drop_nl (s : list ascii) : list ascii :=
  match s with
  | c :: tl => if Ascii.eqb Parser.nl c then drop_nl tl else s
  | [] => []
  end.

Definition after_blank (s : list ascii) : option (list ascii) :=
  match s with
  | a :: b :: c :: tl =>
      if Ascii.eqb Parser.nl a && Ascii.eqb Parser.nl b && Ascii.eqb Parser.nl c
      then Some (drop_nl tl) else None
  | _ => None
  end.

(** Line feeds. *)
Definition lfs (k : nat) : list ascii := repeat Parser.nl k.
Definition three : list ascii := lfs 3.

End ReplaceSpec.

(** ** A number followed by a unit *)

Module NumberUnit.
Import Regex.

(** The shape of the three patterns of [parseTimeToMinutes]: digits
    (captured), white space, a unit and an optional [s]. *)
Definition numRe (U : regex) : regex :=
  rseq [RGroup 1 (RPlus true rdigit); RStar true rspace; U; ROpt (RChar "s")].

(** What remains to be matched after the unit, and after the digits. *)
Definition afterUnit (U : regex) (st : mstate) : option mstate :=
  rmatch true (RSeq U (ROpt (RChar "s"))) st Some.

Definition afterDigits (U : regex) (st : mstate) : option mstate :=
  rmatch true (RSeq (RStar true rspace) (RSeq U (ROpt (RChar "s")))) st Some.

Definition hourUnit : regex := ralt (rlit "hour") [rlit "hr"; rlit "h"].
Definition minuteUnit : regex := ralt (rlit "minute") [rlit "min"; rlit "m"].
Definition dayUnit : regex := ralt (rlit "day") [rlit "d"].

(** A unit that cannot start at a digit. *)
Definition NotAtDigit (U : regex) : Prop :=
  forall p x tl c k,
    Chars.is_digit x = true -> rmatch true U (MState p (x :: tl) c) k = None.

(** The texts that [formatTotal] writes: a number with the word minute
    or hour, an optional plural, and what follows. *)
Definition pluralChars (k : N) : list ascii :=
  if (k =? 1)%N then [] else ["s"%char].

Definition minuteText (D pl : list ascii) : list ascii :=
  (D ++ JS.chars " minute" ++ pl)%list.

Definition hourText (D pl rest : list ascii) : list ascii :=
  (D ++ JS.chars " hour" ++ pl ++ rest)%list.

Definition dayText (D pl : list ascii) : list ascii :=
  (D ++ JS.chars " day" ++ pl)%list.

Definition Plural (pl : list ascii) : Prop := pl = [] \/ pl = ["s"%char].

Definition Digits (D : list ascii) : Prop :=
  D <> [] /\ Forall (fun x => Chars.is_digit x = true) D.

(** What follows an hour part: nothing, or a space and a minute part. *)
Definition Rest (rest : list ascii) : Prop :=
  rest = [] \/ exists D pl, Digits D /\ Plural pl /\
                            rest = " "%char :: minuteText D pl.

End NumberUnit.

(** ** Metrics whose step times match their number of steps *)

Module MetricsSpec.

Definition consistent (m : Metrics) : Prop :=
  List.length (stepTimes m) = N.to_nat (totalSteps m).

End MetricsSpec.

(** ** The record type that goes with an accepted MIME type *)

Module RoutingSpec.

Definition expectedType (mimeType : string) : DocType :=
  if String.eqb mimeType "application/pdf" then TPdf
  else if String.eqb mimeType "application/msword" then TDocx
  else if String.eqb mimeType
            "application/vnd.openxmlformats-officedocument.wordprocessingml.document"
  then TDocx
  else if String.eqb mimeType "text/csv" then TCsv
  else if String.eqb mimeType "application/vnd.ms-excel" then TExcel
  else if String.eqb mimeType
            "application/vnd.openxmlformats-officedocument.spreadsheetml.sheet"
  then TExcel
  else TText.

(** Whether the upload handler reads a file of this MIME type as text. *)
Definition readAsText (mimeType : string) : bool :=
  JS.includes (JS.chars mimeType) (JS.chars "text") ||
  JS.includes (JS.chars mimeType) (JS.chars "csv").

(** The content is a string exactly when the file was read as text. *)
Definition ReadAs (utf8 : bool) (content : FileContent) : Prop :=
  match content with
  | FString _ => utf8 = true
  | FBuffer _ => utf8 = false
  end.

End RoutingSpec.

(** ** Labelled steps of a diagram *)

Module LabelSpec.
Import Chars Regex JS RegexSem NumberUnit.












End LabelSpec.

(** ** The response of the upload handler *)

Module UploadSpec.
Import UploadHandler.

Section Response.

Variable extractProcessMetrics : string -> Metrics.
Variable extractWorkflowMetrics : string -> Metrics.
Variable mergeMetrics :
  Metrics -> option Metrics -> option OptimizationMetrics -> Metrics.
Variable process : string -> string.

(** The metrics of the response for the generated document [formatted] and
    the diagram code [diagramCode]: the metrics of the diagram merged with
    those of the document, without optimization metrics. *)
Definition metricsFor (formatted : Provider.FormattedDocument)
  (diagramCode : string) : ProcessMetrics :=
  let merged :=
    mergeMetrics (extractWorkflowMetrics diagramCode)
      (Some (extractProcessMetrics (Provider.fd_content formatted))) None in
  mkProcessMetrics (totalSteps merged)
                   (Merger.orS (Some (totalTime merged)) "Unknown")
                   (stepTimes merged).

(** The response with status 200 for the uploaded files [documentFiles],
    the entries [docs] of the loop over them and the answers
    [documentText] and [flowText] of the provider. *)
Definition Answered (documentFiles : list Ingest.UploadedFile)
  (docs : list ProcessedDocument) (documentText flowText : string)
  (resp : UploadResponse) : Prop :=
  exists body,
    resp = Ok200 body /\
    documentCount body = List.length documentFiles /\
    map fs_fileName (processedFiles body) = map Combiner.doc_fileName docs /\
    map fs_parsed (processedFiles body) = map Combiner.doc_parsed docs /\
    formattedDocument body = Provider.mkFormatted (process documentText) "html"
    /\
    WorkflowGen.diagram (workflowDiagram body) = WorkflowGen.diagramOf flowText
    /\
    processMetrics body
    = metricsFor (formattedDocument body) (WorkflowGen.diagramOf flowText).

End Response.

Definition Failed500 (message : string) (resp : UploadResponse) : Prop :=
  resp = Error500 "Failed to process documents" message.

End UploadSpec.

(** ** The response of the optimization handler *)

Module OptimizeSpec.
Import Provider.

(** The response to a request for which the provider has answered [text]:
    status 200 with the optimized process built from the answer, or
    status 500 with the message of the error thrown while building it. *)
Definition answerFor {Body : Type} (build : string -> Res Body)
  (text : string) : Response Body :=
  match build text with
  | Ok optimizedProcess => Status200 optimizedProcess
  | Throw e => Status500 "Failed to optimize process" e
  end.

End OptimizeSpec.

(** * Properties *)

(** ** The sample diagram *)

(** C4: on the diagram made of the line [graph TD] and the line
    [A[Step 1: Review (30 min)] --> B[Step 2: Approve (1 hour)]],
    [extractWorkflowMetrics] returns [totalSteps = 2] and
    [totalTime = "1 hour 30 minutes"]. *)
Theorem sample_diagram_metrics :
  totalSteps (Diagram.extractWorkflowMetrics sampleDiagram) = 2%N /\
  totalTime (Diagram.extractWorkflowMetrics sampleDiagram)
  = "1 hour 30 minutes".
Proof. split; vm_compute; reflexivity. Qed.

(** ** MetricsMerger *)

Module MergerFacts.
Import Merger.

Lemma orN_self (n : N) : orN (Some n) 0%N = n.
Proof.
  unfold orN. destruct (N.eqb_spec n 0) as [->|]; reflexivity.
Qed.

Lemma orS_unknown : orS (Some "Unknown") "Unknown" = "Unknown".
Proof. reflexivity. Qed.

(** The merge takes its step times from one of its arguments as they are:
    the diagram's, or the document's when the diagram has none. *)
Lemma merge_stepTimes_source (w : Metrics) (d : option Metrics)
  (o : option OptimizationMetrics) :
  stepTimes (mergeMetrics w d o) = stepTimes w \/
  (stepTimes w = [] /\
   exists d', d = Some d' /\ stepTimes (mergeMetrics w d o) = stepTimes d').
Proof.
  unfold mergeMetrics; simpl.
  destruct (stepTimes w) eqn:Hw; [|left; reflexivity].
  destruct d as [d'|]; [|left; reflexivity].
  destruct (stepTimes d') eqn:Hd; [left; reflexivity|].
  right. split; [reflexivity|]. exists d'. split; [reflexivity|].
  symmetry; exact Hd.
Qed.

Lemma merge_self (m : Metrics) : mergeMetrics m (Some m) None = m.
Proof.
  destruct m as [ts tt te st op]. unfold mergeMetrics.
  cbn [totalSteps totalTime stepTimes timeEstimates optimized option_map].
  destruct (N.eqb_spec ts 0) as [->|Hts];
    destruct (String.eqb_spec tt "Unknown") as [->|Htt];
    destruct st; reflexivity.
Qed.

Lemma merge_again (w : Metrics) (d : option Metrics) :
  mergeMetrics (mergeMetrics w d None) d None = mergeMetrics w d None.
Proof.
  destruct w as [ts tt te st op].
  destruct d as [[ts' tt' te' st' op']|]; unfold mergeMetrics;
    cbn [totalSteps totalTime stepTimes timeEstimates optimized option_map].
  - f_equal.
    + destruct (N.eqb_spec ts 0) as [->|Hts].
      * unfold orN. destruct (N.eqb_spec ts' 0) as [->|H1]; simpl.
        -- reflexivity.
        -- destruct (N.eqb_spec ts' 0); [contradiction|reflexivity].
      * destruct (N.eqb_spec ts 0); [contradiction|reflexivity].
    + destruct (String.eqb_spec tt "Unknown") as [->|Htt].
      * destruct tt' as [|c u]; [reflexivity|]. cbn [orS].
        destruct (String.eqb_spec (String c u) "Unknown") as [E|E];
          [rewrite E|]; reflexivity.
      * destruct (String.eqb_spec tt "Unknown"); [contradiction|reflexivity].
    + destruct st; [|reflexivity]. destruct st'; reflexivity.
  - f_equal.
    + destruct (N.eqb_spec ts 0) as [->|Hts]; [reflexivity|].
      destruct (N.eqb_spec ts 0); [contradiction|reflexivity].
    + destruct (String.eqb_spec tt "Unknown") as [->|Htt]; [reflexivity|].
      destruct (String.eqb_spec tt "Unknown"); [contradiction|reflexivity].
    + destruct st; reflexivity.
Qed.

End MergerFacts.

(** C5: the merge is idempotent.  Merging a metrics object with itself
    gives the same object back (in particular when it is normalised, with
    as many step times as steps), and merging the output of a merge again,
    with itself or with the same document metrics, changes nothing. *)
Theorem merge_idempotent :
  (forall m : Metrics, Merger.mergeMetrics m (Some m) None = m) /\
  (forall (w : Metrics) (d : option Metrics),
      let r := Merger.mergeMetrics w d None in
      Merger.mergeMetrics r (Some r) None = r /\
      Merger.mergeMetrics r d None = r).
Proof.
  split.
  - exact MergerFacts.merge_self.
  - intros w d r. split.
    + apply MergerFacts.merge_self.
    + apply MergerFacts.merge_again.
Qed.

(** ** Step times and total steps *)

Module DocMetricsFacts.
Import DocMetrics.

Lemma pad_spec (k : nat) (st : list StepTime) :
  pad k st = (st ++ map placeholder (seq (List.length st) k))%list.
Proof.
  revert st. induction k as [|k IH]; intros st; simpl.
  - rewrite app_nil_r. reflexivity.
  - rewrite IH. rewrite <- app_assoc. simpl.
    rewrite length_app. simpl. rewrite Nat.add_1_r. reflexivity.
Qed.

Lemma adjust_spec (n : N) (st : list StepTime) :
  (0 < n)%N ->
  adjustStepTimes n st
  = (firstn (N.to_nat n) st ++
     map placeholder (seq (List.length st) (N.to_nat n - List.length st)))%list.
Proof.
  intros Hn. unfold adjustStepTimes.
  destruct (N.ltb_spec 0 n) as [_|]; [|lia].
  rewrite andb_true_r.
  destruct (Nat.eqb_spec (List.length st) (N.to_nat n)) as [E|E]; simpl.
  - rewrite <- E, firstn_all, Nat.sub_diag. simpl.
    rewrite app_nil_r. reflexivity.
  - destruct (Nat.ltb_spec (N.to_nat n) (List.length st)) as [L|L].
    + rewrite pad_spec. rewrite length_firstn.
      replace (Nat.min (N.to_nat n) (List.length st)) with (N.to_nat n) by lia.
      rewrite Nat.sub_diag.
      replace (N.to_nat n - List.length st) with 0 by lia.
      reflexivity.
    + rewrite pad_spec. rewrite firstn_all2 by lia. reflexivity.
Qed.

Lemma adjust_length (n : N) (st : list StepTime) :
  (0 < n)%N -> List.length (adjustStepTimes n st) = N.to_nat n.
Proof.
  intros Hn. rewrite adjust_spec by exact Hn.
  rewrite length_app, length_firstn, length_map, length_seq. lia.
Qed.

End DocMetricsFacts.

(** C1, as stated, fails: the merge of these diagram metrics and document
    metrics has [totalSteps = 2 > 0] and one step time; nothing is
    truncated or padded. *)
Lemma merge_keeps_length_mismatch :
  let r := Merger.mergeMetrics
             (Diagram.extractWorkflowMetrics mismatchDiagram)
             (Some mismatchDocument) None in
  (0 < totalSteps r)%N /\
  List.length (stepTimes mismatchDocument) = 3 /\
  List.length (stepTimes r) <> N.to_nat (totalSteps r).
Proof.
  vm_compute.
  split; [reflexivity | split; [reflexivity | intro H; discriminate H]].
Qed.

(** C1, amended: the list of step times is made to match the number of
    steps by the document metrics extractor, on its own result: for
    [totalSteps = n > 0] the list is cut to its first [n] entries or
    extended with the entries [{step: k, stepName: "Step k",
    time: "Not specified"}] up to length [n].  The merge copies the list
    it selects: when the diagram gives no step count and no step times,
    the merged metrics are the document's, and so have [n] step times. *)
Theorem document_stepTimes_match_totalSteps
  (w : Metrics) (n : N) (tt : string) (st : list StepTime) :
  (0 < n)%N -> totalSteps w = 0%N -> stepTimes w = [] ->
  let d := DocMetrics.finishProcessMetrics n tt st in
  let r := Merger.mergeMetrics w (Some d) None in
  List.length (stepTimes d) = N.to_nat n /\
  stepTimes d
  = (firstn (N.to_nat n) st ++
     map DocMetrics.placeholder
         (seq (List.length st) (N.to_nat n - List.length st)))%list /\
  totalSteps r = n /\
  stepTimes r = stepTimes d /\
  List.length (stepTimes r) = N.to_nat (totalSteps r).
Proof.
  intros Hn Hts Hst d r.
  assert (Hlen : List.length (stepTimes d) = N.to_nat n).
  { apply DocMetricsFacts.adjust_length; exact Hn. }
  assert (Htot : totalSteps r = n).
  { unfold r, Merger.mergeMetrics; simpl. rewrite Hts; simpl.
    destruct (N.eqb_spec n 0); [lia|reflexivity]. }
  assert (Hsel : stepTimes r = stepTimes d).
  { unfold r, Merger.mergeMetrics.
    cbn [stepTimes]. rewrite Hst.
    destruct (stepTimes d) eqn:E; [|reflexivity].
    simpl in Hlen. lia. }
  repeat split.
  - exact Hlen.
  - apply DocMetricsFacts.adjust_spec; exact Hn.
  - exact Htot.
  - exact Hsel.
  - rewrite Hsel, Htot. exact Hlen.
Qed.

Lemma document_stepTimes_match_totalSteps_witness :
  let d := DocMetrics.finishProcessMetrics 5 "2 hours"
             [mkStepTime "1" "Review" "30 min"] in
  let r := Merger.mergeMetrics Diagram.defaultMetrics (Some d) None in
  List.length (stepTimes d) = 5 /\
  totalSteps r = 5%N /\
  List.length (stepTimes r) = N.to_nat (totalSteps r).
Proof.
  pose proof (document_stepTimes_match_totalSteps Diagram.defaultMetrics 5
                "2 hours" [mkStepTime "1" "Review" "30 min"]
                ltac:(reflexivity) ltac:(reflexivity) ltac:(reflexivity))
    as H.
  cbv zeta in H. destruct H as (H1 & _ & H3 & _ & H5).
  repeat split; assumption.
Defined.

(** ** Time savings *)

Module SavingsFacts.
Import Merger.

(** The reported percentage is the rounded one when it is not zero, and 30
    when the times do not both parse or the rounded percentage is zero. *)
Lemma savings_value (w : Metrics) (d : option Metrics)
  (om : OptimizationMetrics) :
  option_map timeSavingsPercent
    (optimized (mergeMetrics w d (Some om)))
  = Some (orZ (calculateTimeSavingsPercent
                 (totalTime (mergeMetrics w d None)) (om_totalTime om))
              30%Z).
Proof. reflexivity. Qed.

End SavingsFacts.

(** C6 fails on the code: with the original total time "1 hour 30 minutes"
    and the optimized total time "90 minutes" both sides parse to 90
    minutes, the rounded percentage is 0, and the reported
    [timeSavingsPercent] is the default 30. *)
Theorem savings_default_taken_for_zero_percent :
  let w := mkMetrics 3 "1 hour 30 minutes" (Some []) [] None in
  let om := mkOptimizationMetrics (Some 2%N) (Some "90 minutes") None in
  Merger.parseTimeToMinutes (Some "1 hour 30 minutes") = Some 90%N /\
  Merger.parseTimeToMinutes (Some "90 minutes") = Some 90%N /\
  Merger.calculateTimeSavingsPercent "1 hour 30 minutes" (Some "90 minutes")
  = Some 0%Z /\
  option_map timeSavingsPercent
    (optimized (Merger.mergeMetrics w None (Some om))) = Some 30%Z.
Proof. vm_compute. repeat split; reflexivity. Qed.

(** ** Provider fallback *)

Module ProviderFacts.
Import Provider.

(** Document formatting: after a first failure one more call is made, and
    when it fails too the first error is the one thrown. *)
Lemma formatted_document_rethrows_first
  (process : string -> string) (e1 e2 : string) (w : list outcome) :
  generateFormattedDocument process (Failure e1 :: Failure e2 :: w) 0
  = (Throw e1, (w, 2)).
Proof. reflexivity. Qed.

Lemma formatted_document_fallback_reply
  (process : string -> string) (e1 text : string) (w : list outcome) :
  generateFormattedDocument process (Failure e1 :: Reply text :: w) 0
  = (Ok (mkFormatted (process text) "html"), (w, 2)).
Proof. reflexivity. Qed.

Lemma formatted_document_first_reply
  (process : string -> string) (text : string) (w : list outcome) :
  generateFormattedDocument process (Reply text :: w) 0
  = (Ok (mkFormatted (process text) "html"), (w, 1)).
Proof. reflexivity. Qed.

End ProviderFacts.

(** C9 fails on the optimization handler: when the first call fails with
    [e1] and the fallback call fails with [e2], two calls have been made
    and the response carries the message of the fallback error [e2], not
    the first one. *)
Theorem optimize_handler_reports_fallback_error
  (Body : Type) (build : string -> Res Body) (e1 e2 : string)
  (w : list Provider.outcome) :
  Provider.handler Body build true true
    (Provider.Failure e1 :: Provider.Failure e2 :: w) 0
  = (Ok (Provider.Status500 "Failed to optimize process" e2), (w, 2)).
Proof. reflexivity. Qed.

(** ** Time strings *)

(** C10: [parseTimeToMinutes] never returns 0: a returned number is
    strictly positive, and [null], [undefined], the string "Unknown" and
    strings such as "0 minutes" give [null]; when none of the hour, minute
    and day patterns matches and the string holds a number, the result is
    that number taken as minutes (or [null] when it is not positive). *)
Theorem parseTimeToMinutes_never_zero :
  (forall ts : option string,
      match TimeUtils.parseTimeToMinutes ts with
      | Some x => F64.is_pos x = true /\ F64.is_zero x = false
      | None => True
      end) /\
  TimeUtils.parseTimeToMinutes None = None /\
  TimeUtils.parseTimeToMinutes (Some "Unknown") = None /\
  TimeUtils.parseTimeToMinutes (Some "0 minutes") = None /\
  TimeUtils.parseTimeToMinutes (Some "0") = None /\
  (forall (s : string) (m : Regex.rresult),
      Regex.exec true TimeUtils.hoursPattern (JS.chars s) = None ->
      Regex.exec true TimeUtils.minutesPattern (JS.chars s) = None ->
      Regex.exec true TimeUtils.daysPattern (JS.chars s) = None ->
      Regex.exec false TimeUtils.justNumberRe (JS.chars s) = Some m ->
      TimeUtils.parseTimeToMinutes (Some s)
      = let minutes := TimeUtils.parseFloat (Diagram.group_or_empty 1 m) in
        if F64.is_pos minutes then Some minutes else None).
Proof.
  split; [|split; [|split; [|split; [|split]]]].
  2: reflexivity.
  2-4: vm_compute; reflexivity.
  - intros ts.
    destruct (TimeUtils.parseTimeToMinutes ts) as [x|] eqn:E; [|exact I].
    assert (Hpos : F64.is_pos x = true).
    { unfold TimeUtils.parseTimeToMinutes in E.
      destruct ts as [[|c s]|]; try discriminate.
      destruct (String.eqb (String c s) "Unknown"); try discriminate.
      match type of E with
      | (if F64.is_pos ?t then _ else _) = _ =>
          destruct (F64.is_pos t) eqn:P; [|discriminate];
          injection E as <-; exact P
      end. }
    split; [exact Hpos|].
    unfold F64.is_pos in Hpos. unfold F64.is_zero.
    apply Z.ltb_lt in Hpos. apply Z.eqb_neq. lia.
  - intros s m Hh Hm Hd Hn.
    destruct s as [|c s'].
    { vm_compute in Hn. discriminate Hn. }
    destruct (String.eqb_spec (String c s') "Unknown") as [E|E].
    { rewrite E in Hn. vm_compute in Hn. discriminate Hn. }
    unfold TimeUtils.parseTimeToMinutes.
    apply String.eqb_neq in E. rewrite E.
    unfold TimeUtils.captured. rewrite Hh, Hm, Hd, Hn.
    reflexivity.
Qed.

Lemma parseTimeToMinutes_never_zero_witness :
  TimeUtils.parseTimeToMinutes (Some "about 45 or so") = Some (F64.of_Z 45).
Proof.
  destruct parseTimeToMinutes_never_zero as (_ & _ & _ & _ & _ & H).
  rewrite (H "about 45 or so" _ eq_refl eq_refl eq_refl eq_refl).
  vm_compute. reflexivity.
Defined.

(** ** Row objects *)

Module ObjFacts.

Lemma get_set_same {V : Type} (k : string) (v : V) (o : list (string * V)) :
  obj_get k (obj_set k v o) = Some v.
Proof.
  induction o as [|[k' w] o IH]; simpl.
  - rewrite String.eqb_refl. reflexivity.
  - destruct (String.eqb k' k) eqn:E; simpl; rewrite E; [reflexivity|exact IH].
Qed.

Lemma get_set_other {V : Type} (k k' : string) (v : V)
  (o : list (string * V)) :
  k <> k' -> obj_get k (obj_set k' v o) = obj_get k o.
Proof.
  intros Hne. induction o as [|[j w] o IH]; simpl.
  - destruct (String.eqb_spec k' k); [congruence|reflexivity].
  - destruct (String.eqb_spec j k') as [->|Hj]; simpl.
    + destruct (String.eqb_spec k' k); [congruence|reflexivity].
    + destruct (String.eqb_spec j k); [reflexivity|exact IH].
Qed.

Lemma keys_set_in {V : Type} (k : string) (v : V) (o : list (string * V)) :
  In k (map fst o) -> map fst (obj_set k v o) = map fst o.
Proof.
  induction o as [|[j w] o IH]; simpl; intros Hin; [contradiction|].
  destruct (String.eqb_spec j k) as [->|Hj]; simpl; [reflexivity|].
  f_equal. apply IH. destruct Hin; [contradiction|assumption].
Qed.

Lemma keys_set_new {V : Type} (k : string) (v : V) (o : list (string * V)) :
  ~ In k (map fst o) -> map fst (obj_set k v o) = (map fst o ++ [k])%list.
Proof.
  induction o as [|[j w] o IH]; simpl; intros Hin; [reflexivity|].
  destruct (String.eqb_spec j k) as [->|Hj]; simpl.
  - exfalso. apply Hin. left. reflexivity.
  - f_equal. apply IH. intros H. apply Hin. right. exact H.
Qed.

Lemma get_none_not_in {V : Type} (k : string) (o : list (string * V)) :
  ~ In k (map fst o) -> obj_get k o = None.
Proof.
  induction o as [|[j w] o IH]; simpl; intros Hin; [reflexivity|].
  destruct (String.eqb_spec j k) as [->|Hj].
  - exfalso. apply Hin. left. reflexivity.
  - apply IH. intros H. apply Hin. right. exact H.
Qed.

End ObjFacts.

(** ** DocumentCombiner *)

Module CombinerFacts.
Import Combiner ObjFacts CombinerSpec.

Lemma str_in_In (x : string) (l : list string) :
  str_in x l = true <-> In x l.
Proof.
  unfold str_in. rewrite existsb_exists. split.
  - intros (y & Hy & E). apply String.eqb_eq in E. subst. exact Hy.
  - intros H. exists x. split; [exact H|apply String.eqb_refl].
Qed.

Lemma fill_keys (hs : list string) (row r0 : Row) :
  map fst r0 = hs -> map fst (fold_left (copyField hs) row r0) = hs.
Proof.
  revert r0. induction row as [|[k v] row IH]; intros r0 H0; simpl.
  - exact H0.
  - apply IH. unfold copyField; simpl.
    destruct (str_in k hs) eqn:E; [|exact H0].
    rewrite keys_set_in; [exact H0|].
    rewrite H0. apply str_in_In. exact E.
Qed.

Lemma fill_get_header (hs : list string) (h : string) (row r0 : Row) :
  NoDup (map fst row) -> In h hs ->
  obj_get h (fold_left (copyField hs) row r0)
  = match obj_get h row with
    | Some v => Some v
    | None => obj_get h r0
    end.
Proof.
  intros Hnd Hin. revert r0 Hnd.
  induction row as [|[k v] row IH]; intros r0 Hnd; simpl.
  - reflexivity.
  - inversion Hnd as [|? ? Hk Hnd']; subst.
    rewrite IH by exact Hnd'.
    destruct (String.eqb_spec k h) as [->|Hne].
    + rewrite (get_none_not_in h row Hk).
      unfold copyField; simpl.
      apply str_in_In in Hin. rewrite Hin.
      apply get_set_same.
    + destruct (obj_get h row); [reflexivity|].
      unfold copyField; simpl.
      destruct (str_in k hs); [|reflexivity].
      apply get_set_other. congruence.
Qed.

Lemma fill_get_other (hs : list string) (h : string) (row r0 : Row) :
  ~ In h hs ->
  obj_get h (fold_left (copyField hs) row r0) = obj_get h r0.
Proof.
  intros Hin. revert r0.
  induction row as [|[k v] row IH]; intros r0; simpl; [reflexivity|].
  rewrite IH. unfold copyField; simpl.
  destruct (str_in k hs) eqn:E; [|reflexivity].
  apply get_set_other. intros ->. apply Hin. apply str_in_In. exact E.
Qed.

Lemma standardize_three (a b c fileName : string) (row : Row) :
  NoDup [a; b; c; "Source File"] ->
  NoDup (map fst row) ->
  RowOk [a; b; c] fileName row (standardizeRow [a; b; c] fileName row).
Proof.
  intros Hnd Hrow.
  assert (Hab : a <> b /\ a <> c /\ b <> c /\
                ~ In "Source File" [a; b; c]).
  { inversion Hnd as [|? ? Ha Hnd1]; subst.
    inversion Hnd1 as [|? ? Hb Hnd2]; subst.
    inversion Hnd2 as [|? ? Hc Hnd3]; subst.
    simpl in *. repeat split; intuition congruence. }
  destruct Hab as (Hab & Hac & Hbc & Hsf).
  set (initial := fold_left (fun r header => obj_set header EmptyString r)
                            [a; b; c] ([] : Row)).
  assert (Hinit : initial = [(a, EmptyString); (b, EmptyString);
                             (c, EmptyString)]).
  { assert (Eab : String.eqb a b = false) by (apply String.eqb_neq; exact Hab).
    assert (Eac : String.eqb a c = false) by (apply String.eqb_neq; exact Hac).
    assert (Ebc : String.eqb b c = false) by (apply String.eqb_neq; exact Hbc).
    unfold initial. cbn [fold_left obj_set]. rewrite Eab.
    cbn [obj_set]. rewrite Eac, Ebc. reflexivity. }
  assert (Hstd : standardizeRow [a; b; c] fileName row
                 = obj_set "Source File" fileName
                     (fold_left (copyField [a; b; c]) row initial))
    by reflexivity.
  rewrite Hstd.
  assert (Hkeys : map fst (fold_left (copyField [a; b; c]) row initial)
                  = [a; b; c]).
  { apply fill_keys. rewrite Hinit. reflexivity. }
  repeat split.
  - rewrite keys_set_new; rewrite Hkeys; [reflexivity|exact Hsf].
  - intros h Hh.
    rewrite get_set_other by (intros ->; contradiction).
    rewrite fill_get_header by assumption.
    destruct (obj_get h row); [reflexivity|].
    rewrite Hinit. simpl.
    destruct Hh as [<-|[<-|[<-|[]]]].
    + rewrite String.eqb_refl. reflexivity.
    + destruct (String.eqb_spec a b); [contradiction|].
      rewrite String.eqb_refl. reflexivity.
    + destruct (String.eqb_spec a c); [contradiction|].
      destruct (String.eqb_spec b c); [contradiction|].
      rewrite String.eqb_refl. reflexivity.
  - apply get_set_same.
Qed.

Lemma rows_ok (hs : list string) (fileName : string) (rows : list Row) :
  (forall row, NoDup (map fst row) ->
               RowOk hs fileName row (standardizeRow hs fileName row)) ->
  Forall (fun r => NoDup (map fst r)) rows ->
  Forall2 (RowOk hs fileName) rows (map (standardizeRow hs fileName) rows).
Proof.
  intros Hstd Hrows. induction Hrows as [|r rows Hr _ IH]; simpl.
  - constructor.
  - constructor; [apply Hstd; exact Hr|exact IH].
Qed.

End CombinerFacts.

(** C7: combining two parsed CSV records whose headers are [[a; b]] and
    [[b; c]] (distinct names, none of them [Source File]) gives a record
    with [parsed = true] and headers [[a; b; c; Source File]]; its rows are
    those of the first file followed by those of the second, each with
    exactly these columns, holding the value of the source row where it
    has the field and the empty string where it has not, and the name of
    the source file in the last column. *)
Theorem combine_two_csv
  (stringify : DocContent -> string)
  (a b c file1 file2 : string) (data1 data2 : DocumentRecord)
  (rows1 rows2 : list Row) :
  NoDup [a; b; c; "Source File"] ->
  type data1 = TCsv -> parsed data1 = true ->
  headers data1 = Some [a; b] -> content data1 = CRows rows1 ->
  type data2 = TCsv -> parsed data2 = true ->
  headers data2 = Some [b; c] -> content data2 = CRows rows2 ->
  Forall (fun r => NoDup (map fst r)) rows1 ->
  Forall (fun r => NoDup (map fst r)) rows2 ->
  let r := Combiner.combineDocumentData stringify
             [Processed file1 data1; Processed file2 data2] in
  parsed r = true /\
  type r = TCsv /\
  headers r = Some [a; b; c; "Source File"] /\
  fileNames r = Some [file1; file2] /\
  exists out1 out2,
    content r = CRows (out1 ++ out2) /\
    Forall2 (CombinerSpec.RowOk [a; b; c] file1) rows1 out1 /\
    Forall2 (CombinerSpec.RowOk [a; b; c] file2) rows2 out2.
Proof.
  intros Hnd Ht1 Hp1 Hh1 Hc1 Ht2 Hp2 Hh2 Hc2 Hr1 Hr2 r.
  assert (Hne : a <> b /\ a <> c /\ b <> c /\
                "Source File" <> a /\ "Source File" <> b /\
                "Source File" <> c).
  { inversion Hnd as [|? ? Ha Hnd1]; subst.
    inversion Hnd1 as [|? ? Hb Hnd2]; subst.
    inversion Hnd2 as [|? ? Hc Hnd3]; subst.
    simpl in *. repeat split; intuition congruence. }
  destruct Hne as (Hab & Hac & Hbc & Hsa & Hsb & Hsc).
  assert (Hr : r = Combiner.mergeTabular TCsv [(file1, data1); (file2, data2)]).
  { unfold r, Combiner.combineDocumentData. simpl.
    rewrite Hp1, Hp2. simpl. rewrite Ht1, Ht2. reflexivity. }
  assert (Hall : fold_left
                   (fun acc (d : string * DocumentRecord) =>
                      match headers (snd d) with
                      | Some hs => Combiner.set_add_all hs acc
                      | None => acc
                      end)
                   [(file1, data1); (file2, data2)] [] = [a; b; c]).
  { simpl. rewrite Hh1, Hh2. simpl.
    destruct (String.eqb_spec b a); [congruence|]. simpl.
    rewrite String.eqb_refl.
    destruct (String.eqb_spec c a); [congruence|].
    destruct (String.eqb_spec c b); [congruence|].
    rewrite orb_true_r. reflexivity. }
  rewrite Hr. unfold Combiner.mergeTabular. rewrite Hall.
  cbn [parsed type headers fileNames content map fst].
  repeat split.
  - apply String.eqb_neq in Hsa, Hsb, Hsc.
    unfold Combiner.str_in. cbn [existsb]. rewrite Hsa, Hsb, Hsc.
    reflexivity.
  - exists (map (Combiner.standardizeRow [a; b; c] file1) rows1),
           (map (Combiner.standardizeRow [a; b; c] file2) rows2).
    split.
    + simpl. unfold Combiner.rowsOf. rewrite Hc1, Hc2.
      rewrite app_nil_r. reflexivity.
    + split; apply CombinerFacts.rows_ok; try assumption;
        intros row Hrow; apply CombinerFacts.standardize_three; assumption.
Qed.

Lemma combine_two_csv_witness :
  let data1 := mkDoc (CRows [[("A", "1"); ("B", "2")]]) TCsv
                     (Some ["A"; "B"]) true None None None in
  let data2 := mkDoc (CRows [[("B", "3"); ("C", "4")]; [("B", "5")]]) TCsv
                     (Some ["B"; "C"]) true None None None in
  let r := Combiner.combineDocumentData (fun _ => EmptyString)
             [Processed "one.csv" data1; Processed "two.csv" data2] in
  parsed r = true /\ headers r = Some ["A"; "B"; "C"; "Source File"].
Proof.
  assert (Hnd : NoDup ["A"; "B"; "C"; "Source File"]).
  { repeat constructor; simpl; intuition discriminate. }
  assert (Hnd1 : Forall (fun r : Row => NoDup (map fst r))
                        [[("A", "1"); ("B", "2")]]).
  { repeat constructor; simpl; intuition discriminate. }
  assert (Hnd2 : Forall (fun r : Row => NoDup (map fst r))
                        [[("B", "3"); ("C", "4")]; [("B", "5")]]).
  { repeat constructor; simpl; intuition discriminate. }
  pose proof (combine_two_csv (fun _ => EmptyString) "A" "B" "C"
                "one.csv" "two.csv"
                (mkDoc (CRows [[("A", "1"); ("B", "2")]]) TCsv
                       (Some ["A"; "B"]) true None None None)
                (mkDoc (CRows [[("B", "3"); ("C", "4")]; [("B", "5")]]) TCsv
                       (Some ["B"; "C"]) true None None None)
                _ _ Hnd eq_refl eq_refl eq_refl eq_refl
                eq_refl eq_refl eq_refl eq_refl Hnd1 Hnd2) as H.
  cbv zeta in H. destruct H as (H1 & _ & H3 & _).
  split; assumption.
Defined.

(** ** FormatParser *)

Module ParserFacts.
Import Parser.

(** The delimited-text extractor has no failure path on a string. *)
Lemma csv_string_parsed (s : string) :
  parsed (parseCsvString s) = true /\ error (parseCsvString s) = None.
Proof.
  unfold parseCsvString.
  assert (H : forall sep t cur, split_char sep t cur <> []).
  { intros sep t. induction t as [|c t IH]; intros cur; simpl.
    - discriminate.
    - destruct (Ascii.eqb c sep); [discriminate|apply IH]. }
  assert (H' : forall t cur, split_crlf t cur <> []).
  { intros t. induction t as [|c t IH]; intros cur; simpl.
    - discriminate.
    - destruct t as [|d t']; [apply IH|].
      destruct (Nat.eqb (Chars.code c) 13 && Nat.eqb (Chars.code d) 10);
        [discriminate|apply IH]. }
  destruct (JS.includes (JS.chars s) [cr; nl]).
  - destruct (split_crlf (JS.chars s) []) eqn:E; [|split; reflexivity].
    exfalso. exact (H' _ _ E).
  - destruct (split_char nl (JS.chars s) []) eqn:E; [|split; reflexivity].
    exfalso. exact (H _ _ _ E).
Qed.

Section Libraries.

Variable pdfParse : FileContent -> bool -> Res PdfData.
Variable processPdfText : string -> string.
Variable extractKeywords : string -> list string.
Variable extractRawText : FileContent -> Res string.
Variable readFirstSheet : FileContent -> Res (list (list string)).
Variable decodeUtf8 : list ascii -> string.

Let parse := parseDocument pdfParse processPdfText extractKeywords
                           extractRawText readFirstSheet decodeUtf8.

Lemma pdf_total (c : FileContent) :
  exists r, parsePdfContent pdfParse processPdfText extractKeywords c = Ok r.
Proof.
  unfold parsePdfContent.
  destruct (pdfParse c true) as [d|e]; simpl; [eexists; reflexivity|].
  destruct (pdfParse c false) as [d|e']; simpl; eexists; reflexivity.
Qed.

Lemma docx_total (c : FileContent) :
  exists r, parseDocxContent extractRawText c = Ok r.
Proof.
  unfold parseDocxContent.
  destruct (extractRawText c); simpl; eexists; reflexivity.
Qed.

Lemma excel_total (c : FileContent) :
  exists r, parseExcelContent readFirstSheet c = Ok r.
Proof.
  unfold parseExcelContent.
  destruct (readFirstSheet c) as [[|h t]|e]; simpl; eexists; reflexivity.
Qed.

Lemma parse_total (c : FileContent) (mime : option string) (name : string) :
  exists r, parse c mime name = Ok r.
Proof.
  unfold parse, parseDocument.
  destruct (mimeHas mime "pdf").
  { destruct (pdf_total c) as [r ->]. exists r. reflexivity. }
  destruct (mimeHas mime "msword" ||
            mimeHas mime "officedocument.wordprocessingml.document").
  { destruct (docx_total c) as [r ->]. exists r. reflexivity. }
  destruct (mimeHas mime "csv").
  { eexists. reflexivity. }
  destruct (mimeHas mime "excel" || mimeHas mime "spreadsheetml.sheet").
  { destruct (excel_total c) as [r ->]. exists r. reflexivity. }
  eexists. reflexivity.
Qed.

End Libraries.

End ParserFacts.

(** C3, as stated, fails for the delimited-text and plain-text formats: a
    CSV text with an unbalanced quote and a text that is a truncated PDF
    both give [parsed = true] and no [error], whatever the libraries do. *)
Lemma malformed_csv_and_text_are_parsed :
  (exists r,
      FailingLibraries.parseWithFailingLibraries (FString brokenCsv)
        (Some "text/csv") "staff.csv" = Ok r /\
      parsed r = true /\ error r = None /\ type r = TCsv) /\
  (exists r,
      FailingLibraries.parseWithFailingLibraries (FString brokenText)
        (Some "text/plain") "notes.txt" = Ok r /\
      parsed r = true /\ error r = None /\ type r = TText).
Proof.
  split; eexists; (split; [vm_compute; reflexivity|]);
    repeat split; reflexivity.
Qed.

(** C3, amended: [parseDocument] never raises.  For a PDF on which both
    extraction attempts throw, a Word file on which the extraction throws
    and a spreadsheet on which the reading throws, the record has
    [parsed = false] and [error] is the message of the (first) error
    thrown, so it is not empty when that message is not.  A string handed
    to the delimited-text extractor, and any content handed to the plain
    text extractor, gives [parsed = true] and no [error]. *)
Theorem parseDocument_failures
  (pdfParse : FileContent -> bool -> Res Parser.PdfData)
  (processPdfText : string -> string)
  (extractKeywords : string -> list string)
  (extractRawText : FileContent -> Res string)
  (readFirstSheet : FileContent -> Res (list (list string)))
  (decodeUtf8 : list ascii -> string) :
  let parse := Parser.parseDocument pdfParse processPdfText extractKeywords
                 extractRawText readFirstSheet decodeUtf8 in
  let isPdf mime := Parser.mimeHas mime "pdf" in
  let isDocx mime :=
    Parser.mimeHas mime "msword" ||
    Parser.mimeHas mime "officedocument.wordprocessingml.document" in
  let isCsv mime := Parser.mimeHas mime "csv" in
  let isExcel mime :=
    Parser.mimeHas mime "excel" || Parser.mimeHas mime "spreadsheetml.sheet" in
  (forall (c : FileContent) (mime : option string) (name : string),
      exists r, parse c mime name = Ok r) /\
  (forall c mime name e1 e2,
      isPdf mime = true ->
      pdfParse c true = Throw e1 -> pdfParse c false = Throw e2 ->
      exists r, parse c mime name = Ok r /\
                parsed r = false /\ error r = Some e1 /\ type r = TPdf) /\
  (forall c mime name e,
      isPdf mime = false -> isDocx mime = true ->
      extractRawText c = Throw e ->
      exists r, parse c mime name = Ok r /\
                parsed r = false /\ error r = Some e /\ type r = TDocx) /\
  (forall c mime name e,
      isPdf mime = false -> isDocx mime = false -> isCsv mime = false ->
      isExcel mime = true ->
      readFirstSheet c = Throw e ->
      exists r, parse c mime name = Ok r /\
                parsed r = false /\ error r = Some e /\ type r = TExcel) /\
  (forall (s : string) mime name,
      isPdf mime = false -> isDocx mime = false -> isCsv mime = true ->
      exists r, parse (FString s) mime name = Ok r /\
                parsed r = true /\ error r = None) /\
  (forall (c : FileContent) mime name,
      isPdf mime = false -> isDocx mime = false -> isCsv mime = false ->
      isExcel mime = false ->
      exists r, parse c mime name = Ok r /\
                parsed r = true /\ error r = None).
Proof.
  intros parse isPdf isDocx isCsv isExcel.
  split; [|split; [|split; [|split; [|split]]]].
  - intros c mime name. apply ParserFacts.parse_total.
  - intros c mime name e1 e2 Hm Hp1 Hp2. eexists. split.
    + unfold parse, Parser.parseDocument. fold (isPdf mime). rewrite Hm.
      unfold Parser.parsePdfContent. rewrite Hp1; simpl. rewrite Hp2; simpl.
      reflexivity.
    + repeat split; reflexivity.
  - intros c mime name e Hm1 Hm2 Hd. eexists. split.
    + unfold parse, Parser.parseDocument.
      fold (isPdf mime). rewrite Hm1. fold (isDocx mime). rewrite Hm2.
      unfold Parser.parseDocxContent. rewrite Hd; simpl. reflexivity.
    + repeat split; reflexivity.
  - intros c mime name e Hm1 Hm2 Hm3 Hm4 Hx. eexists. split.
    + unfold parse, Parser.parseDocument.
      fold (isPdf mime). rewrite Hm1. fold (isDocx mime). rewrite Hm2.
      fold (isCsv mime). rewrite Hm3. fold (isExcel mime). rewrite Hm4.
      unfold Parser.parseExcelContent. rewrite Hx; simpl. reflexivity.
    + repeat split; reflexivity.
  - intros s mime name Hm1 Hm2 Hm3. eexists. split.
    + unfold parse, Parser.parseDocument.
      fold (isPdf mime). rewrite Hm1. fold (isDocx mime). rewrite Hm2.
      fold (isCsv mime). rewrite Hm3.
      unfold try_catch. reflexivity.
    + apply ParserFacts.csv_string_parsed.
  - intros c mime name Hm1 Hm2 Hm3 Hm4. eexists. split.
    + unfold parse, Parser.parseDocument.
      fold (isPdf mime). rewrite Hm1. fold (isDocx mime). rewrite Hm2.
      fold (isCsv mime). rewrite Hm3. fold (isExcel mime). rewrite Hm4.
      unfold Parser.parseTextContent, try_catch. reflexivity.
    + split; reflexivity.
Qed.

Lemma parseDocument_failures_witness :
  exists r,
    FailingLibraries.parseWithFailingLibraries (FBuffer (JS.chars "%PDF-1."))
      (Some "application/pdf") "scan.pdf" = Ok r /\
    parsed r = false /\ error r = Some "Invalid PDF structure".
Proof.
  pose proof (parseDocument_failures
                FailingLibraries.noPdf (fun s => s) (fun _ => [])
                FailingLibraries.noDocx FailingLibraries.noSheet JS.str) as H.
  cbv zeta in H. destruct H as (_ & H & _).
  destruct (H (FBuffer (JS.chars "%PDF-1.")) (Some "application/pdf")
              "scan.pdf" "Invalid PDF structure" "Invalid PDF structure"
              eq_refl eq_refl eq_refl) as (r & Hr & Hp & He & _).
  exists r. split; [exact Hr|split; assumption].
Defined.

(** ** RecoveryParser *)

Module RecoveryFacts.
Import Recovery RecoverySpec.

Section WithJsonParse.

Variable JSON_parse : list ascii -> option json.

Lemma summary_single (s : list ascii) : single "summary" (summaryField s).
Proof.
  unfold summaryField.
  destruct (first_of _ _); [right; eexists; reflexivity|left; reflexivity].
Qed.

Lemma steps_single (s : list ascii) : single "totalSteps" (totalStepsField s).
Proof.
  unfold totalStepsField.
  destruct (first_of _ _); [right; eexists; reflexivity|left; reflexivity].
Qed.

Lemma time_single (s : list ascii) : single "totalTime" (totalTimeField s).
Proof.
  unfold totalTimeField.
  destruct (first_of _ _); [right; eexists; reflexivity|left; reflexivity].
Qed.

Lemma suggestions_single (s : list ascii) :
  single "suggestions" (suggestionsField JSON_parse s).
Proof.
  unfold suggestionsField.
  destruct (Regex.exec true suggestionsRe s); [|left; reflexivity].
  destruct (JSON_parse _); right; eexists; reflexivity.
Qed.

Lemma workflow_single (s : list ascii) : single "workflow" (workflowField s).
Proof.
  unfold workflowField.
  destruct (Regex.exec true _ s); [right; eexists; reflexivity|].
  destruct (Regex.exec false graphRe s);
    [right; eexists; reflexivity|left; reflexivity].
Qed.

(** A field of the third attempt depends on its own probe only. *)
Lemma tier3_lookup (s : list ascii) :
  obj_get "summary" (tier3Fields JSON_parse s) = obj_get "summary" (summaryField s) /\
  obj_get "totalSteps" (tier3Fields JSON_parse s)
  = obj_get "totalSteps" (totalStepsField s) /\
  obj_get "totalTime" (tier3Fields JSON_parse s)
  = obj_get "totalTime" (totalTimeField s) /\
  obj_get "suggestions" (tier3Fields JSON_parse s)
  = obj_get "suggestions" (suggestionsField JSON_parse s) /\
  obj_get "workflow" (tier3Fields JSON_parse s) = obj_get "workflow" (workflowField s).
Proof.
  unfold tier3Fields.
  destruct (summary_single s) as [->|[v1 ->]];
    destruct (steps_single s) as [->|[v2 ->]];
    destruct (time_single s) as [->|[v3 ->]];
    destruct (suggestions_single s) as [->|[v4 ->]];
    destruct (workflow_single s) as [->|[v5 ->]];
    repeat split; reflexivity.
Qed.

Lemma tier3_names (s : list ascii) :
  NoDup (map fst (tier3Fields JSON_parse s)) /\
  incl (map fst (tier3Fields JSON_parse s)) fieldNames.
Proof.
  unfold tier3Fields, fieldNames.
  destruct (summary_single s) as [->|[v1 ->]];
    destruct (steps_single s) as [->|[v2 ->]];
    destruct (time_single s) as [->|[v3 ->]];
    destruct (suggestions_single s) as [->|[v4 ->]];
    destruct (workflow_single s) as [->|[v5 ->]];
    simpl; (split;
            [repeat constructor; simpl; intuition discriminate
            |intros x Hx; simpl in *; intuition]).
Qed.

End WithJsonParse.

End RecoveryFacts.

(** C2, as stated, fails: on the text [null] the second attempt parses the
    whole text and the parser returns the JSON value [null], which is not
    an object; a fenced block that holds an array is returned as an array. *)
Lemma recovery_returns_non_object :
  Recovery.parseOptimizationResult Json.parse (Some "null") = Ok JNull /\
  ~ RecoverySpec.is_object JNull /\
  Recovery.parseOptimizationResult Json.parse
    (Some ("```json" ++ lf ++ "[1, 2]" ++ lf ++ "```"))
  = Ok (JArr [JNum "1"; JNum "2"]).
Proof.
  split; [vm_compute; reflexivity|].
  split; [intros H; exact H|vm_compute; reflexivity].
Qed.

(** C2, amended: [parseOptimizationResult] never throws.  On a string it
    returns what the first attempt parses from the fenced block, else what
    the second attempt parses from the whole text, in both cases the
    parsed JSON value as it is (an object when the payload is an object),
    else the object of the third attempt, which holds each of [summary],
    [totalSteps], [totalTime], [suggestions] and [workflow] exactly when
    its own probe found it.  On a value that is not a string the access
    throws and the fixed default object is returned: a summary, two
    suggestions, [null] steps and time and no step times. *)
Theorem parseOptimizationResult_total
  (JSON_parse : list ascii -> option json) :
  (forall result : option string,
      exists v, Recovery.parseOptimizationResult JSON_parse result = Ok v) /\
  (forall s : string,
      Recovery.parseOptimizationResult JSON_parse (Some s)
      = Ok (match Recovery.tier1 JSON_parse (JS.chars s) with
            | Some v => v
            | None =>
                match Recovery.tier2 JSON_parse (JS.chars s) with
                | Some v => v
                | None => Recovery.tier3 JSON_parse (JS.chars s)
                end
            end)) /\
  (forall s : list ascii,
      Recovery.tier3 JSON_parse s
      = JObj (RecoverySpec.tier3Fields JSON_parse s) /\
      NoDup (map fst (RecoverySpec.tier3Fields JSON_parse s)) /\
      incl (map fst (RecoverySpec.tier3Fields JSON_parse s))
           RecoverySpec.fieldNames /\
      obj_get "summary" (RecoverySpec.tier3Fields JSON_parse s)
      = obj_get "summary" (Recovery.summaryField s) /\
      obj_get "totalSteps" (RecoverySpec.tier3Fields JSON_parse s)
      = obj_get "totalSteps" (Recovery.totalStepsField s) /\
      obj_get "totalTime" (RecoverySpec.tier3Fields JSON_parse s)
      = obj_get "totalTime" (Recovery.totalTimeField s) /\
      obj_get "suggestions" (RecoverySpec.tier3Fields JSON_parse s)
      = obj_get "suggestions" (Recovery.suggestionsField JSON_parse s) /\
      obj_get "workflow" (RecoverySpec.tier3Fields JSON_parse s)
      = obj_get "workflow" (Recovery.workflowField s)) /\
  Recovery.parseOptimizationResult JSON_parse None
  = Ok Recovery.defaultOptimizationResult /\
  (exists summary s1 s2,
      Recovery.defaultOptimizationResult
      = JObj [("summary", JStr summary); ("totalSteps", JNull);
              ("totalTime", JNull); ("suggestions", JArr [s1; s2]);
              ("stepTimes", JArr [])]).
Proof.
  split; [|split; [|split; [|split]]].
  - intros [s|]; simpl.
    + unfold Recovery.parseOptimizationResult; simpl.
      destruct (Recovery.tier1 JSON_parse (JS.chars s));
        [eexists; reflexivity|].
      destruct (Recovery.tier2 JSON_parse (JS.chars s));
        eexists; reflexivity.
    + eexists. reflexivity.
  - intros s. unfold Recovery.parseOptimizationResult; simpl.
    destruct (Recovery.tier1 JSON_parse (JS.chars s)); [reflexivity|].
    destruct (Recovery.tier2 JSON_parse (JS.chars s)); reflexivity.
  - intros s. split; [reflexivity|].
    destruct (RecoveryFacts.tier3_names JSON_parse s) as [H1 H2].
    split; [exact H1|]. split; [exact H2|].
    apply RecoveryFacts.tier3_lookup.
  - reflexivity.
  - do 3 eexists. reflexivity.
Qed.

(** ** The matcher is sound for a relational reading of patterns *)

Module RegexFacts.
Import Chars Regex RegexSem.

Lemma orelse_some {A : Type} (a b : option A) (x : A) :
  orelse a b = Some x -> a = Some x \/ b = Some x.
Proof. destruct a; simpl; intros H; [left|right]; exact H. Qed.

Lemma star_loop_sound (ci g : bool) (r : regex) (k : cont) :
  SoundAt ci r ->
  forall n st0 res,
    star_loop (rmatch ci r) g k n st0 = Some res ->
    exists st', Matches ci (RStar g r) st0 st' /\ k st' = Some res.
Proof.
  intros IH. induction n as [|n IHn]; intros st0 res H; simpl in H.
  - exists st0. split; [constructor|exact H].
  - assert (Hcases :
      rmatch ci r st0
        (fun st1 =>
           if Nat.ltb (List.length (rest st1)) (List.length (rest st0))
           then star_loop (rmatch ci r) g k n st1 else None) = Some res
      \/ k st0 = Some res).
    { destruct g; apply orelse_some in H; tauto. }
    destruct Hcases as [Hagain|Hstop].
    + apply IH in Hagain. destruct Hagain as (st1 & Hm & Hk).
      destruct (Nat.ltb _ _); [|discriminate].
      apply IHn in Hk. destruct Hk as (st' & Hm' & Hk').
      exists st'. split; [|exact Hk'].
      eapply M_star_more; eassumption.
    + exists st0. split; [constructor|exact Hstop].
Qed.

Theorem rmatch_sound (ci : bool) (r : regex) : SoundAt ci r.
Proof.
  induction r as [|c| |neg items|r1 IH1 r2 IH2|r1 IH1 r2 IH2|g r IH
                 |i r IH| | |r IH];
    intros st k res H; simpl in H.
  - exists st. split; [constructor|exact H].
  - destruct (rest st) as [|x tl] eqn:E; [discriminate|].
    destruct (eqb_ci ci c x) eqn:Ec; [|discriminate].
    exists (step1 st tl). split; [econstructor; eassumption|exact H].
  - destruct (rest st) as [|x tl] eqn:E; [discriminate|].
    destruct (is_newline x) eqn:Ec; [discriminate|].
    exists (step1 st tl). split; [econstructor; eassumption|exact H].
  - destruct (rest st) as [|x tl] eqn:E; [discriminate|].
    destruct (xorb neg (existsb (item_matches ci x) items)) eqn:Ec;
      [|discriminate].
    exists (step1 st tl). split; [econstructor; eassumption|exact H].
  - apply IH1 in H. destruct H as (st1 & Hm1 & H).
    apply IH2 in H. destruct H as (st2 & Hm2 & H).
    exists st2. split; [econstructor; eassumption|exact H].
  - apply orelse_some in H. destruct H as [H|H].
    + apply IH1 in H. destruct H as (st1 & Hm & H).
      exists st1. split; [apply M_alt_l; exact Hm|exact H].
    + apply IH2 in H. destruct H as (st1 & Hm & H).
      exists st1. split; [apply M_alt_r; exact Hm|exact H].
  - apply (star_loop_sound ci g r k IH (S (List.length (rest st))) st res).
    exact H.
  - apply IH in H. destruct H as (st1 & Hm & H).
    exists (set_cap i st st1). split; [constructor; exact Hm|exact H].
  - destruct (Nat.eqb_spec (pos st) 0) as [E|E]; [|discriminate].
    exists st. split; [constructor; exact E|exact H].
  - destruct (rest st) eqn:E; [|discriminate].
    exists st. split; [constructor; exact E|exact H].
  - destruct (rmatch ci r st Some) as [st1|] eqn:E; [|discriminate].
    apply IH in E. destruct E as (st1' & Hm & E). injection E as ->.
    eexists. split; [constructor; exact Hm|exact H].
Qed.


Lemma rsearch_sound (ci : bool) (r : regex) (s : list ascii) :
  forall p m, rsearch ci r p s = Some m -> FromMatch ci r m.
Proof.
  induction s as [|c s IH]; intros p m H; simpl in H.
  - destruct (rmatch ci r (MState p [] []) Some) as [st|] eqn:E;
      [|discriminate].
    injection H as <-. apply rmatch_sound in E.
    destruct E as (st' & Hm & E). injection E as ->.
    exists [], st. split; [exact Hm|reflexivity].
  - destruct (rmatch ci r (MState p (c :: s) []) Some) as [st|] eqn:E.
    + injection H as <-. apply rmatch_sound in E.
      destruct E as (st' & Hm & E). injection E as ->.
      exists (c :: s), st. split; [exact Hm|reflexivity].
    + eapply IH. exact H.
Qed.

Lemma exec_all_from_sound (ci : bool) (r : regex) :
  forall fuel p s, Forall (FromMatch ci r) (exec_all_from ci r fuel p s).
Proof.
  induction fuel as [|fuel IH]; intros p s; simpl; [constructor|].
  destruct (rsearch ci r p s) as [m|] eqn:E; [|constructor].
  apply rsearch_sound in E.
  destruct (Nat.eqb (r_end m) (r_index m)).
  - constructor; [exact E|]. destruct (r_after m); [constructor|apply IH].
  - constructor; [exact E|apply IH].
Qed.

Lemma exec_all_sound (ci : bool) (r : regex) (s : list ascii) :
  Forall (FromMatch ci r) (exec_all ci r s).
Proof. apply exec_all_from_sound. Qed.

Lemma Consumed_refl (st : mstate) : Consumed st st [].
Proof. unfold Consumed; simpl. repeat split; lia. Qed.

Lemma Consumed_step (st : mstate) (x : ascii) (tl : list ascii) :
  rest st = x :: tl -> Consumed st (step1 st tl) [x].
Proof. intros E. unfold Consumed; simpl. repeat split; [exact E|lia]. Qed.

Lemma Consumed_trans (st st1 st2 : mstate) (u v : list ascii) :
  Consumed st st1 u -> Consumed st1 st2 v -> Consumed st st2 (u ++ v).
Proof.
  intros (E1 & P1 & C1) (E2 & P2 & C2). unfold Consumed.
  rewrite <- app_assoc, <- E2, <- E1, length_app.
  repeat split; [lia|congruence].
Qed.

Lemma set_cap_consumed (i : nat) (st st1 : mstate) (u : list ascii) :
  Consumed st st1 u ->
  rest st = (u ++ rest (set_cap i st st1))%list /\
  pos (set_cap i st st1) = pos st + List.length u /\
  caps (set_cap i st st1) = (i, u) :: caps st.
Proof.
  intros (E & P & C). unfold set_cap; simpl.
  repeat split; [exact E|exact P|].
  rewrite C, P, E.
  replace (pos st + List.length u - pos st) with (List.length u + 0) by lia.
  rewrite firstn_app_2. simpl. rewrite app_nil_r. reflexivity.
Qed.

Lemma Matches_char (ci : bool) (c : ascii) (st st' : mstate) :
  Matches ci (RChar c) st st' ->
  exists x, Consumed st st' [x] /\ eqb_ci ci c x = true.
Proof.
  intros H. inversion H; subst.
  eexists. split; [apply Consumed_step; eassumption|assumption].
Qed.

Lemma Matches_lit (ci : bool) (w : string) :
  forall st st',
    Matches ci (rlit w) st st' ->
    exists u, Consumed st st' u /\
              SameText ci (list_ascii_of_string w) u.
Proof.
  induction w as [|c w IH]; intros st st' H.
  - inversion H; subst. exists []. split; [apply Consumed_refl|constructor].
  - destruct w as [|d w].
    + apply Matches_char in H. destruct H as (x & Hc & Hx).
      exists [x]. split; [exact Hc|]. repeat constructor. exact Hx.
    + change (rlit (String c (String d w)))
        with (RSeq (RChar c) (rlit (String d w))) in H.
      inversion H as [| | | |r1 r2 s0 s1 s2 H1 H2| | | | | | | |]; subst.
      apply Matches_char in H1. destruct H1 as (x & Hc & Hx).
      apply IH in H2. destruct H2 as (u & Hu & Hs).
      exists (x :: u). split.
      * exact (Consumed_trans _ _ _ _ _ Hc Hu).
      * constructor; assumption.
Qed.

Lemma Matches_set (ci neg : bool) (items : list citem) (st st' : mstate) :
  Matches ci (RSet neg items) st st' ->
  exists x, Consumed st st' [x] /\ InSet ci neg items x.
Proof.
  intros H. inversion H; subst.
  eexists. split; [apply Consumed_step; eassumption|assumption].
Qed.

Lemma Matches_star_set (ci g neg : bool) (items : list citem)
  (st st' : mstate) :
  Matches ci (RStar g (RSet neg items)) st st' ->
  exists u, Consumed st st' u /\ Forall (InSet ci neg items) u.
Proof.
  intros H. remember (RStar g (RSet neg items)) as r eqn:Er.
  induction H; try discriminate.
  - exists []. split; [apply Consumed_refl|constructor].
  - injection Er as -> ->.
    apply Matches_set in H. destruct H as (x & Hc & Hx).
    destruct (IHMatches2 eq_refl) as (u & Hu & Hf).
    exists (x :: u). split.
    + exact (Consumed_trans _ _ _ _ _ Hc Hu).
    + constructor; assumption.
Qed.

Lemma Matches_plus_set (ci g neg : bool) (items : list citem)
  (st st' : mstate) :
  Matches ci (RPlus g (RSet neg items)) st st' ->
  exists u, Consumed st st' u /\ u <> [] /\ Forall (InSet ci neg items) u.
Proof.
  intros H. unfold RPlus in H.
  inversion H as [| | | |r1 r2 s0 s1 s2 H1 H2| | | | | | | |]; subst.
  apply Matches_set in H1. destruct H1 as (x & Hc & Hx).
  apply Matches_star_set in H2. destruct H2 as (u & Hu & Hf).
  exists (x :: u). split; [|split].
  - exact (Consumed_trans _ _ _ _ _ Hc Hu).
  - discriminate.
  - constructor; assumption.
Qed.

Lemma Matches_opt_char (ci : bool) (c : ascii) (st st' : mstate) :
  Matches ci (ROpt (RChar c)) st st' ->
  exists u, Consumed st st' u /\
            (u = [] \/ exists x, u = [x] /\ eqb_ci ci c x = true).
Proof.
  intros H. unfold ROpt in H.
  inversion H as [| | | | |r1 r2 s0 s1 H1|r1 r2 s0 s1 H1| | | | | |]; subst.
  - apply Matches_char in H1. destruct H1 as (x & Hc & Hx).
    exists [x]. split; [exact Hc|]. right. exists x. split; [reflexivity|exact Hx].
  - inversion H1; subst. exists []. split; [apply Consumed_refl|left; reflexivity].
Qed.

End RegexFacts.

(** ** Duration tokens of a diagram *)

Module DurationFacts.
Import Chars Regex JS RegexSem RegexFacts DurationShape Diagram.

Lemma InSet_digit (ci : bool) (x : ascii) :
  InSet ci false [CDigit] x -> is_digit x = true.
Proof.
  unfold InSet; simpl. rewrite orb_false_r. intros H; exact H.
Qed.

Lemma InSet_space (ci : bool) (x : ascii) :
  InSet ci false [CSpace] x -> is_space x = true.
Proof.
  unfold InSet; simpl. rewrite orb_false_r. intros H; exact H.
Qed.

Lemma Matches_word_s (w : string) (st st' : mstate) :
  Matches true (RSeq (rlit w) (ROpt (RChar "s"))) st st' ->
  exists u, Consumed st st' u /\
            (SameText true (list_ascii_of_string w) u \/
             SameText true (list_ascii_of_string (w ++ "s")) u).
Proof.
  intros H.
  inversion H as [| | | |r1 r2 s0 s1 s2 H1 H2| | | | | | | |]; subst.
  apply Matches_lit in H1. destruct H1 as (u & Hu & Hs).
  apply Matches_opt_char in H2. destruct H2 as (v & Hv & Hcase).
  exists (u ++ v)%list. split; [exact (Consumed_trans _ _ _ _ _ Hu Hv)|].
  destruct Hcase as [->|(x & -> & Hx)].
  - left. rewrite app_nil_r. exact Hs.
  - right.
    assert (E : list_ascii_of_string (w ++ "s")
                = (list_ascii_of_string w ++ ["s"%char])%list).
    { clear. induction w as [|c w IH]; simpl; [reflexivity|].
      rewrite IH. reflexivity. }
    rewrite E. apply Forall2_app; [exact Hs|]. repeat constructor. exact Hx.
Qed.

Lemma Matches_ralt (ci : bool) (rs : list regex) :
  forall r st st',
    Matches ci (ralt r rs) st st' ->
    Exists (fun r' => Matches ci r' st st') (r :: rs).
Proof.
  induction rs as [|r' rs IH]; intros r st st' H; simpl in H.
  - constructor. exact H.
  - inversion H; subst.
    + constructor. assumption.
    + apply Exists_cons_tl. apply IH. assumption.
Qed.

Lemma Matches_unit (st st' : mstate) :
  Matches true unitAlts st st' ->
  exists u W, Consumed st st' u /\ In W unitWords /\
              SameText true (list_ascii_of_string W) u.
Proof.
  intros H. unfold unitAlts in H. apply Matches_ralt in H.
  repeat (apply Exists_cons in H; destruct H as [H|H]);
    try (apply Exists_nil in H; contradiction);
    match type of H with
    | Matches true (rlit ?w) _ _ =>
        apply Matches_lit in H; destruct H as (u & Hu & Hs);
        exists u, w; split; [exact Hu|]; split; [|exact Hs];
        unfold unitWords; simpl; tauto
    | Matches true (RSeq (rlit ?w) _) _ _ =>
        apply Matches_word_s in H; destruct H as (u & Hu & [Hs|Hs]);
        [exists u, w|exists u, (w ++ "s")];
        (split; [exact Hu|]; split; [|exact Hs];
         unfold unitWords; simpl; tauto)
    end.
Qed.

Theorem token_shape (m : rresult) :
  FromMatch true timeRe m -> exists ds ws u W, TokenShape m ds ws u W.
Proof.
  intros (s & st' & HM & ->).
  set (st0 := MState (r_index m) s []) in *.
  unfold timeRe in HM. cbn [rseq] in HM.
  inversion HM as [| | | |r1 r2 s0 s1 s2 H1 H23| | | | | | | |]; subst.
  inversion H23 as [| | | |r1 r2 s0 s1' s2 H2 H3| | | | | | | |]; subst.
  inversion H1 as [| | | | | | | | |i r s0 sA HA| | |]; subst.
  inversion H3 as [| | | | | | | | |i r s0 sB HB| | |]; subst.
  apply Matches_plus_set in HA. destruct HA as (ds & Hds & Hne & Hdig).
  apply (set_cap_consumed 1) in Hds. destruct Hds as (E1 & P1 & C1).
  apply Matches_star_set in H2. destruct H2 as (ws & (E2 & P2 & C2) & Hws).
  apply Matches_unit in HB. destruct HB as (u & W & Hu & HW & Hsame).
  apply (set_cap_consumed 2) in Hu. destruct Hu as (E3 & P3 & C3).
  exists ds, ws, u, W.
  assert (Hs : s = (ds ++ ws ++ u ++ rest (set_cap 2 s1' sB))%list).
  { change s with (rest st0). rewrite E1, E2, E3. reflexivity. }
  assert (Hp : pos (set_cap 2 s1' sB)
               = r_index m + List.length (ds ++ ws ++ u)%list).
  { rewrite P3, P2, P1. rewrite !length_app. simpl. lia. }
  assert (Hc : caps (set_cap 2 s1' sB) = [(2, u); (1, ds)]).
  { rewrite C3, C2, C1. reflexivity. }
  unfold TokenShape. repeat split.
  - unfold mk_result; cbn [r_whole]. rewrite Hp.
    replace (r_index m + List.length (ds ++ ws ++ u)%list - r_index m)
      with (List.length (ds ++ ws ++ u)%list + 0) by lia.
    rewrite Hs at 1.
    replace (ds ++ ws ++ u ++ rest (set_cap 2 s1' sB))%list
      with ((ds ++ ws ++ u) ++ rest (set_cap 2 s1' sB))%list
      by (rewrite <- !app_assoc; reflexivity).
    rewrite firstn_app_2. simpl. rewrite app_nil_r. reflexivity.
  - unfold group, mk_result; cbn [r_caps]. rewrite Hc. reflexivity.
  - unfold group, mk_result; cbn [r_caps]. rewrite Hc. reflexivity.
  - exact Hne.
  - eapply Forall_impl; [|exact Hdig]. intros x. apply InSet_digit.
  - eapply Forall_impl; [|exact Hws]. intros x. apply InSet_space.
  - exact HW.
  - exact Hsame.
Qed.

(** *** Characters *)

Ltac all_chars x :=
  destruct x as [[] [] [] [] [] [] [] []]; vm_compute;
  try reflexivity; try (intros; discriminate); auto.

Lemma digit_not_space (x : ascii) : is_digit x = true -> is_space x = false.
Proof. all_chars x. Qed.

Lemma lower_canon_upper (a : ascii) :
  is_lower a = true -> is_upper (canon a) = true.
Proof. all_chars a. Qed.

Lemma canon_upper_plain (x : ascii) :
  is_upper (canon x) = true -> is_space x = false /\ is_digit x = false.
Proof. all_chars x. Qed.

Lemma eqb_ci_canon (a x : ascii) :
  eqb_ci true a x = true -> canon x = canon a.
Proof.
  unfold eqb_ci. intros H. apply Ascii.eqb_eq in H. symmetry. exact H.
Qed.

Lemma letter_plain (a x : ascii) :
  is_lower a = true -> eqb_ci true a x = true ->
  is_space x = false /\ is_digit x = false.
Proof.
  intros Ha Hx. apply canon_upper_plain.
  rewrite (eqb_ci_canon a x Hx). apply lower_canon_upper. exact Ha.
Qed.

Lemma plain_not_letter (a x : ascii) :
  is_lower a = true -> is_space x = true \/ is_digit x = true ->
  eqb_ci true a x = false.
Proof.
  intros Ha Hx. destruct (eqb_ci true a x) eqn:E; [|reflexivity].
  destruct (letter_plain a x Ha E) as [H1 H2].
  destruct Hx as [Hx|Hx]; congruence.
Qed.

(** *** Text that contains a word, up to case *)

Lemma starts_ci_same (w u : list ascii) :
  SameText true w u -> forall c, starts_ci c u = starts_ci c w.
Proof.
  induction 1 as [|a x w u Hax _ IH]; intros c.
  - reflexivity.
  - destruct c as [|c0 c]; [reflexivity|]. simpl.
    rewrite IH. f_equal. unfold eqb_ci.
    rewrite (eqb_ci_canon a x Hax). reflexivity.
Qed.

Lemma contains_ci_same (w u : list ascii) :
  SameText true w u -> forall c, contains_ci c u = contains_ci c w.
Proof.
  induction 1 as [|a x w u Hax Hwu IH]; intros c.
  - reflexivity.
  - simpl contains_ci. rewrite IH.
    rewrite (starts_ci_same (a :: w) (x :: u)); [reflexivity|].
    constructor; assumption.
Qed.

Lemma contains_ci_skip (c0 : ascii) (c pre s : list ascii) :
  Forall (fun x => eqb_ci true c0 x = false) pre ->
  contains_ci (c0 :: c) (pre ++ s) = contains_ci (c0 :: c) s.
Proof.
  induction 1 as [|x pre Hx _ IH]; [reflexivity|].
  cbn [app contains_ci starts_ci]. rewrite Hx.
  cbn [andb orb]. exact IH.
Qed.

Lemma found_orelse_last (a b : option mstate) (x : mstate) :
  exists y, orelse a (orelse b (Some x)) = Some y.
Proof. destruct a, b; simpl; eexists; reflexivity. Qed.

Lemma search_hour (s : list ascii) :
  forall p, found (rsearch true hourRe p s) = contains_ci ["h"%char] s.
Proof.
  induction s as [|x tl IH]; intros p; [reflexivity|].
  cbn [contains_ci starts_ci]. rewrite andb_true_r.
  cbn [rsearch]. unfold hourRe. cbn [ralt rlit rmatch rest].
  destruct (eqb_ci true "h" x) eqn:E.
  - match goal with
    | |- context [orelse ?a (orelse ?b (Some ?z))] =>
        destruct (found_orelse_last a b z) as (y & ->)
    end.
    reflexivity.
  - simpl. apply IH.
Qed.

Lemma search_day (s : list ascii) :
  forall p, found (rsearch true dayRe p s) = contains_ci ["d"%char] s.
Proof.
  induction s as [|x tl IH]; intros p; [reflexivity|].
  cbn [contains_ci starts_ci]. rewrite andb_true_r.
  cbn [rsearch]. unfold dayRe. cbn [ralt rlit rmatch rest].
  destruct (eqb_ci true "d" x) eqn:E.
  - match goal with
    | |- context [orelse ?a (Some ?z)] => destruct a; reflexivity
    end.
  - simpl. apply IH.
Qed.

Lemma search_min (s : list ascii) :
  forall p,
    found (rsearch true minRe p s)
    = contains_ci ["m"%char; "i"%char; "n"%char] s.
Proof.
  induction s as [|x tl IH]; intros p; [reflexivity|].
  cbn [contains_ci]. cbn [rsearch]. unfold minRe.
  cbn [ralt rlit rmatch rest step1].
  cbn [starts_ci].
  destruct (eqb_ci true "m" x); [|simpl; apply IH].
  destruct tl as [|y tl]; [reflexivity|].
  cbn [rest step1 pos caps].
  destruct (eqb_ci true "i" y); [|simpl; apply (IH (S p))].
  destruct tl as [|z tl]; [simpl; apply (IH (S p))|].
  cbn [rest step1 pos caps].
  destruct (eqb_ci true "n" z); [reflexivity|].
  simpl. apply (IH (S p)).
Qed.

(** *** The number of a token *)

Lemma rdigit_step (ci : bool) (p : nat) (d : ascii) (tl : list ascii)
  (c : list (nat * list ascii)) (k : cont) :
  is_digit d = true ->
  rmatch ci rdigit (MState p (d :: tl) c) k = k (MState (S p) tl c).
Proof. intros Hd. simpl. rewrite Hd. reflexivity. Qed.

Lemma rdigit_stop (ci : bool) (p : nat) (tail : list ascii)
  (c : list (nat * list ascii)) (k : cont) :
  no_digit_ahead tail -> rmatch ci rdigit (MState p tail c) k = None.
Proof.
  intros H. destruct tail as [|x tl]; [reflexivity|].
  simpl in *. rewrite H. reflexivity.
Qed.

(** The greedy loop over digits reads all of them when the continuation
    accepts what follows. *)
Lemma star_digits (ci : bool) (k : cont) (tail : list ascii)
  (c : list (nat * list ascii)) (res : mstate) :
  no_digit_ahead tail ->
  forall ds p n,
    Forall (fun x => is_digit x = true) ds ->
    List.length (ds ++ tail)%list < n ->
    k (MState (p + List.length ds) tail c) = Some res ->
    star_loop (rmatch ci rdigit) true k n (MState p (ds ++ tail)%list c)
    = Some res.
Proof.
  intros Htail. induction ds as [|d ds IH]; intros p n Hds Hn Hk.
  - destruct n as [|n]; [inversion Hn|].
    cbn [star_loop app]. rewrite rdigit_stop by exact Htail.
    simpl in Hk. rewrite Nat.add_0_r in Hk. exact Hk.
  - destruct n as [|n]; [inversion Hn|].
    inversion Hds as [|? ? Hd Hds']; subst.
    cbn [star_loop app]. rewrite rdigit_step by exact Hd.
    cbn [rest]. simpl List.length in *.
    destruct (Nat.ltb_spec (List.length (ds ++ tail)%list)
                           (S (List.length (ds ++ tail)%list))) as [_|Hc];
      [|lia].
    rewrite (IH (S p) n Hds'); [reflexivity|lia|].
    rewrite <- Hk. f_equal. f_equal. lia.
Qed.

Lemma number_of_token (ds tail : list ascii) :
  ds <> [] -> Forall (fun x => is_digit x = true) ds ->
  no_digit_ahead tail ->
  exists m, exec false numberRe (ds ++ tail)%list = Some m /\
            group_or_empty 1 m = ds.
Proof.
  intros Hne Hds Htail. destruct ds as [|d ds]; [contradiction|].
  inversion Hds as [|? ? Hd Hds']; subst.
  set (st0 := MState 0 ((d :: ds) ++ tail)%list []).
  set (stE := MState (1 + List.length ds) tail []).
  assert (E : rmatch false numberRe st0 Some = Some (set_cap 1 st0 stE)).
  { unfold numberRe, RPlus. cbn [rmatch]. unfold st0. cbn [app].
    rewrite rdigit_step by exact Hd.
    cbn [rmatch rest].
    apply star_digits; [exact Htail|exact Hds'|lia|reflexivity]. }
  exists (mk_result 0 ((d :: ds) ++ tail)%list (set_cap 1 st0 stE)).
  split.
  - unfold exec. cbn [app rsearch]. fold st0 in E.
    change (MState 0 (d :: (ds ++ tail)%list) []) with st0.
    rewrite E. reflexivity.
  - unfold group_or_empty, group, mk_result, set_cap, st0, stE.
    cbn [r_caps caps pos rest cap_lookup Nat.eqb].
    replace (1 + List.length ds - 0) with (List.length (d :: ds) + 0)
      by (simpl; lia).
    rewrite firstn_app_2. simpl. rewrite app_nil_r. reflexivity.
Qed.

(** *** Trimming a token *)

Lemma trim_start_plain (x : ascii) (s : list ascii) :
  is_space x = false -> trim_start (x :: s) = x :: s.
Proof. intros H. simpl. rewrite H. reflexivity. Qed.

Lemma trim_plain_ends (x z : ascii) (s : list ascii) :
  is_space x = false -> is_space z = false ->
  trim ((x :: s) ++ [z])%list = ((x :: s) ++ [z])%list.
Proof.
  intros Hx Hz. unfold trim.
  assert (E1 : trim_start ((x :: s) ++ [z])%list = ((x :: s) ++ [z])%list).
  { apply trim_start_plain. exact Hx. }
  rewrite E1.
  assert (E2 : rev ((x :: s) ++ [z])%list = z :: rev (x :: s)).
  { rewrite rev_app_distr. reflexivity. }
  rewrite E2. rewrite trim_start_plain by exact Hz.
  rewrite <- E2. apply rev_involutive.
Qed.

(** *** One token *)

Lemma same_plain (w u : list ascii) :
  SameText true w u ->
  Forall (fun a => is_lower a = true) w ->
  Forall (fun x => is_space x = false /\ is_digit x = false) u.
Proof.
  induction 1 as [|a x w u Hax _ IH]; intros Hw; [constructor|].
  inversion Hw; subst. constructor; [|apply IH; assumption].
  apply (letter_plain a x); assumption.
Qed.

Lemma same_upper (w u : list ascii) :
  SameText true w u -> DurationSpec.upper u = DurationSpec.upper w.
Proof.
  intros H. unfold DurationSpec.upper. f_equal.
  induction H as [|a x w u Hax _ IH]; [reflexivity|].
  simpl. rewrite IH, (eqb_ci_canon a x Hax). reflexivity.
Qed.

Lemma unitMinutes_same (w u : list ascii) :
  SameText true w u ->
  DurationSpec.unitMinutes u = DurationSpec.unitMinutes w.
Proof.
  intros H. unfold DurationSpec.unitMinutes, DurationSpec.unitIs.
  rewrite (same_upper _ _ H). reflexivity.
Qed.

Lemma unit_lower (W : string) :
  In W unitWords ->
  Forall (fun a => is_lower a = true) (list_ascii_of_string W) /\
  list_ascii_of_string W <> [].
Proof.
  unfold unitWords. simpl.
  intros H. repeat (destruct H as [<-|H]; [split; [repeat constructor|discriminate]|]).
  contradiction.
Qed.

Lemma tested_unit (W : string) :
  In W unitWords ->
  testedFactor (list_ascii_of_string W)
  = Some (DurationSpec.unitMinutes (list_ascii_of_string W)).
Proof.
  unfold unitWords. simpl.
  intros H. repeat (destruct H as [<-|H]; [vm_compute; reflexivity|]).
  contradiction.
Qed.

Lemma test_found (ci : bool) (r : regex) (s : list ascii) :
  test ci r s = found (rsearch ci r 0 s).
Proof. reflexivity. Qed.

Lemma token_tests (ds ws u : list ascii) (W : string) (c0 : ascii)
  (c : list ascii) :
  is_lower c0 = true ->
  Forall (fun x => is_digit x = true) ds ->
  Forall (fun x => is_space x = true) ws ->
  SameText true (list_ascii_of_string W) u ->
  contains_ci (c0 :: c) (ds ++ ws ++ u)%list
  = contains_ci (c0 :: c) (list_ascii_of_string W).
Proof.
  intros Hc Hds Hws Hu.
  rewrite contains_ci_skip.
  - rewrite contains_ci_skip.
    + apply contains_ci_same. exact Hu.
    + eapply Forall_impl; [|exact Hws]. intros x Hx.
      apply plain_not_letter; [exact Hc|left; exact Hx].
  - eapply Forall_impl; [|exact Hds]. intros x Hx.
    apply plain_not_letter; [exact Hc|right; exact Hx].
Qed.

Theorem addTime_token (m : rresult) (ds ws u : list ascii) (W : string)
  (acc : N) (b : bool) :
  TokenShape m ds ws u W ->
  addTime (acc, b) (trim (r_whole m))
  = ((acc + DurationSpec.tokenMinutes m)%N, true).
Proof.
  intros (Hwhole & Hg1 & Hg2 & Hne & Hds & Hws & HW & Hsame).
  destruct (unit_lower W HW) as [Hlow HWne].
  pose proof (same_plain _ _ Hsame Hlow) as Hplain.
  assert (Hu : u <> []).
  { intros ->. inversion Hsame as [E|]. symmetry in E. contradiction. }
  assert (Htrim : trim (ds ++ ws ++ u)%list = (ds ++ ws ++ u)%list).
  { destruct ds as [|d ds']; [contradiction|].
    destruct (exists_last Hu) as (u' & z & ->).
    inversion Hds as [|? ? Hd _]; subst.
    apply Forall_app in Hplain. destruct Hplain as [_ Hz].
    inversion Hz as [|? ? [Hzs _] _]; subst.
    replace ((d :: ds') ++ ws ++ u' ++ [z])%list
      with ((d :: (ds' ++ ws ++ u')) ++ [z])%list
      by (simpl; rewrite <- !app_assoc; reflexivity).
    apply trim_plain_ends; [apply digit_not_space; exact Hd|exact Hzs]. }
  assert (Htail : no_digit_ahead (ws ++ u)%list).
  { destruct ws as [|x ws'].
    - destruct u as [|x u']; [contradiction|].
      inversion Hplain as [|? ? [_ Hx] _]; subst. exact Hx.
    - inversion Hws as [|? ? Hx _]; subst. simpl.
      destruct (is_digit x) eqn:E; [|reflexivity].
      apply digit_not_space in E. congruence. }
  destruct (number_of_token ds (ws ++ u)%list Hne Hds Htail)
    as (m' & Hexec & Hval).
  rewrite Hwhole, Htrim. unfold addTime. rewrite Hexec, Hval.
  rewrite !test_found, search_hour, search_min, search_day.
  rewrite !(token_tests ds ws u W) by (assumption || reflexivity).
  unfold DurationSpec.tokenMinutes, group_or_empty. rewrite Hg1, Hg2.
  rewrite (unitMinutes_same _ _ Hsame).
  pose proof (tested_unit W HW) as Hf.
  unfold testedFactor in Hf. unfold chars.
  destruct (contains_ci ["h"%char] (list_ascii_of_string W)).
  { injection Hf as Hf. rewrite <- Hf. reflexivity. }
  destruct (contains_ci ["m"%char; "i"%char; "n"%char]
                        (list_ascii_of_string W)).
  { injection Hf as Hf. rewrite <- Hf. cbn [fst]. f_equal. lia. }
  destruct (contains_ci ["d"%char] (list_ascii_of_string W)).
  { injection Hf as Hf. rewrite <- Hf. cbn [fst]. f_equal. lia. }
  discriminate Hf.
Qed.

Lemma addTime_tokens (tokens : list rresult) :
  Forall (fun m => exists ds ws u W, TokenShape m ds ws u W) tokens ->
  forall acc b,
    fold_left addTime (map trim (map r_whole tokens)) (acc, b)
    = ((acc + DurationSpec.sumMinutes tokens)%N,
       match tokens with [] => b | _ :: _ => true end).
Proof.
  induction 1 as [|m tokens (ds & ws & u & W & Hm) Hall IH]; intros acc b.
  - simpl. unfold DurationSpec.sumMinutes. simpl.
    rewrite N.add_0_r. reflexivity.
  - cbn [map fold_left]. rewrite (addTime_token m ds ws u W acc b Hm).
    rewrite IH. unfold DurationSpec.sumMinutes. cbn [map fold_right].
    f_equal; [lia|]. destruct tokens; reflexivity.
Qed.

(** *** Formatting *)

Lemma append_assoc (a b c : string) : ((a ++ b) ++ c = a ++ (b ++ c))%string.
Proof. induction a as [|x a IH]; simpl; [reflexivity|]. rewrite IH. reflexivity. Qed.

Lemma append_empty (a : string) : (a ++ EmptyString)%string = a.
Proof. induction a as [|x a IH]; simpl; [reflexivity|]. rewrite IH. reflexivity. Qed.




Lemma formatTotal_spec (total : N) :
  formatTotal total = DurationSpec.formatDuration total.
Proof.
  unfold formatTotal, DurationSpec.formatDuration.
  destruct (N.leb_spec 60 total) as [H|H];
    destruct (N.ltb_spec total 60) as [H'|H']; try lia.
  - destruct (total mod 60 =? 0)%N eqn:Ez.
    + apply N.eqb_eq in Ez. rewrite Ez.
      change (0 <? 0)%N with false. cbv iota.
      unfold DurationSpec.counted, plural.
      rewrite append_empty. reflexivity.
    + assert (Hm : (0 <? total mod 60)%N = true).
      { apply N.ltb_lt. apply N.neq_0_lt_0. apply N.eqb_neq. exact Ez. }
      rewrite Hm. unfold DurationSpec.counted, plural.
      rewrite !append_assoc. reflexivity.
  - reflexivity.
Qed.

End DurationFacts.

(** ** The tokens that the duration pattern finds *)

Module DurationScanFacts.
Import Chars Regex JS RegexSem DurationShape DurationFacts DurationScan.


(** *** Letters and words *)

Lemma ci_letter (a x : ascii) :
  is_lower a = true -> eqb_ci true a x = sameLetter a x.
Proof.
  assert (H : forallb (fun i =>
                forallb (fun j =>
                  Bool.eqb (eqb_ci true (ascii_of_nat i) (ascii_of_nat j))
                           (sameLetter (ascii_of_nat i) (ascii_of_nat j)))
                  (seq 0 256)) (seq 97 26) = true) by (vm_compute; reflexivity).
  intros Ha. rewrite forallb_forall in H.
  specialize (H (nat_of_ascii a)).
  rewrite in_seq in H.
  assert (Hr : 97 <= nat_of_ascii a < 97 + 26).
  { unfold is_lower, between, code in Ha.
    apply andb_true_iff in Ha. destruct Ha as (H1 & H2).
    apply Nat.leb_le in H1. apply Nat.leb_le in H2. lia. }
  specialize (H Hr).
  rewrite forallb_forall in H. specialize (H (nat_of_ascii x)).
  rewrite in_seq in H.
  specialize (H (conj (Nat.le_0_l _) (nat_ascii_bounded x))).
  rewrite !ascii_nat_embedding in H.
  apply Bool.eqb_prop in H. exact H.
Qed.

Lemma lit_eval (w : string) :
  w <> EmptyString ->
  Forall (fun a => is_lower a = true) (list_ascii_of_string w) ->
  forall p s c k,
    rmatch true (rlit w) (MState p s c) k
    = match afterWord (list_ascii_of_string w) s with
      | Some rest' =>
          k (MState (p + List.length (list_ascii_of_string w)) rest' c)
      | None => None
      end.
Proof.
  induction w as [|a w IH]; intros Hne Hlow p s c k; [contradiction|].
  cbn [list_ascii_of_string] in Hlow. inversion Hlow as [|? ? Ha Hw]; subst.
  destruct w as [|b w].
  - cbn [rlit rmatch rest list_ascii_of_string afterWord List.length].
    destruct s as [|x s]; [reflexivity|].
    rewrite (ci_letter a x Ha). destruct (sameLetter a x); [|reflexivity].
    unfold step1. cbn [pos caps]. rewrite Nat.add_1_r. reflexivity.
  - change (rlit (String a (String b w)))
      with (RSeq (RChar a) (rlit (String b w))).
    change (list_ascii_of_string (String a (String b w)))
      with (a :: list_ascii_of_string (String b w)).
    cbn [rmatch rest afterWord List.length].
    destruct s as [|x s]; [reflexivity|].
    rewrite (ci_letter a x Ha). destruct (sameLetter a x); [|reflexivity].
    unfold step1. cbn [pos caps].
    rewrite (IH ltac:(discriminate) Hw).
    rewrite Nat.add_succ_r. reflexivity.
Qed.

Lemma afterWord_app (w1 w2 s : list ascii) :
  afterWord (w1 ++ w2) s
  = match afterWord w1 s with
    | Some r => afterWord w2 r
    | None => None
    end.
Proof.
  revert s. induction w1 as [|a w1 IH]; intros s; [reflexivity|].
  cbn [app afterWord]. destruct s as [|x s]; [reflexivity|].
  destruct (sameLetter a x); [apply IH|reflexivity].
Qed.

(** The text read by a word is the word up to case, and it is followed by
    what [afterWord] returns. *)
Lemma afterWord_text (w : list ascii) :
  Forall (fun a => is_lower a = true) w ->
  forall s r,
    afterWord w s = Some r ->
    exists u, s = (u ++ r)%list /\ SameText true w u /\
              List.length u = List.length w.
Proof.
  induction 1 as [|a w Ha _ IH]; intros s r E.
  - cbn in E. injection E as <-. exists []. repeat split. constructor.
  - cbn [afterWord] in E. destruct s as [|x s]; [discriminate|].
    destruct (sameLetter a x) eqn:Ex; [|discriminate].
    destruct (IH _ _ E) as (u & -> & Hs & Hl).
    exists (x :: u). split; [reflexivity|]. split.
    + constructor; [|exact Hs]. rewrite (ci_letter a x Ha). exact Ex.
    + cbn [List.length]. rewrite Hl. reflexivity.
Qed.

Lemma prefix_none (w1 w2 s : list ascii) :
  afterWord w1 s = None -> afterWord (w1 ++ w2) s = None.
Proof. intros E. rewrite afterWord_app, E. reflexivity. Qed.

Ltac word_side := first [discriminate | repeat constructor].

(** *** The unit alternatives *)

Lemma unit_eval (f : mstate -> mstate) (q : nat) (r : list ascii)
  (c : list (nat * list ascii)) :
  rmatch true Diagram.unitAlts (MState q r c) (fun st => Some (f st))
  = match unitAt unitWords r with
    | Some (wu, rest') =>
        Some (f (MState (q + String.length (fst wu)) rest' c))
    | None => None
    end.
Proof.
  unfold Diagram.unitAlts. cbn [ralt rmatch].
  rewrite !lit_eval by word_side.
  cbn [unitAt unitWords fst snd].
  destruct (afterWord (list_ascii_of_string "min") r) eqn:E1;
    [reflexivity|].
  rewrite (prefix_none (list_ascii_of_string "min")
             (list_ascii_of_string "ute") r E1
           : afterWord (list_ascii_of_string "minute") r = None).
  rewrite (prefix_none (list_ascii_of_string "min")
             (list_ascii_of_string "utes") r E1
           : afterWord (list_ascii_of_string "minutes") r = None).
  cbn [orelse].
  destruct (afterWord (list_ascii_of_string "hour") r) eqn:E2;
    [reflexivity|].
  rewrite (prefix_none (list_ascii_of_string "hour")
             (list_ascii_of_string "s") r E2
           : afterWord (list_ascii_of_string "hours") r = None).
  cbn [orelse].
  destruct (afterWord (list_ascii_of_string "day") r) eqn:E3;
    [reflexivity|].
  rewrite (prefix_none (list_ascii_of_string "day")
             (list_ascii_of_string "s") r E3
           : afterWord (list_ascii_of_string "days") r = None).
  cbn [orelse].
  destruct (afterWord (list_ascii_of_string "hr") r) eqn:E4;
    [reflexivity|].
  rewrite (prefix_none (list_ascii_of_string "hr")
             (list_ascii_of_string "s") r E4
           : afterWord (list_ascii_of_string "hrs") r = None).
  cbn [orelse].
  destruct (afterWord (list_ascii_of_string "h") r) eqn:E5;
    [reflexivity|].
  destruct (afterWord (list_ascii_of_string "d") r) eqn:E6;
    reflexivity.
Qed.

(** *** Runs of digits and of white space *)

Lemma orelse_none (a : option mstate) : orelse a None = a.
Proof. destruct a; reflexivity. Qed.

Lemma class_step (it : citem) (p : nat) (x : ascii) (tl : list ascii)
  (c : list (nat * list ascii)) (k : cont) :
  rmatch true (RSet false [it]) (MState p (x :: tl) c) k
  = if item_matches true x it then k (MState (S p) tl c) else None.
Proof.
  cbn [rmatch rest existsb xorb]. rewrite orb_false_r. reflexivity.
Qed.

(** The greedy loop over a class reads the whole run, when the
    continuation refuses to start inside the run. *)
Lemma star_class (it : citem) (k : cont) :
  (forall q x tl c,
     item_matches true x it = true -> k (MState q (x :: tl) c) = None) ->
  forall s q c n,
    List.length s < n ->
    star_loop (rmatch true (RSet false [it])) true k n (MState q s c)
    = k (MState (q + List.length (leading (fun x => item_matches true x it) s))
                (behind (fun x => item_matches true x it) s) c).
Proof.
  intros Hk. induction s as [|x tl IH]; intros q c n Hn;
    (destruct n as [|n]; [simpl in Hn; lia|]).
  - cbn [leading behind List.length]. rewrite Nat.add_0_r. reflexivity.
  - cbn [star_loop]. rewrite class_step.
    cbn [leading behind].
    destruct (item_matches true x it) eqn:Ex.
    + cbn [rest List.length].
      assert (L : Nat.ltb (List.length tl) (S (List.length tl)) = true)
        by (apply Nat.ltb_lt; lia).
      rewrite L. rewrite (Hk q x tl c Ex), orelse_none.
      rewrite IH by (simpl in Hn; lia).
      cbn [List.length]. rewrite Nat.add_succ_r. reflexivity.
    + cbn [orelse List.length]. rewrite Nat.add_0_r. reflexivity.
Qed.

Lemma firstn_leading (P : ascii -> bool) (s : list ascii) :
  firstn (List.length (leading P s)) s = leading P s.
Proof.
  induction s as [|x s IH]; [reflexivity|].
  cbn [leading]. destruct (P x); [|reflexivity].
  cbn [List.length firstn]. rewrite IH. reflexivity.
Qed.

Lemma leading_behind (P : ascii -> bool) (s : list ascii) :
  s = (leading P s ++ behind P s)%list.
Proof.
  induction s as [|x s IH]; [reflexivity|].
  cbn [leading behind]. destruct (P x); [|reflexivity].
  cbn [app]. rewrite <- IH. reflexivity.
Qed.

Lemma leading_all (P : ascii -> bool) (s : list ascii) :
  Forall (fun x => P x = true) (leading P s).
Proof.
  induction s as [|x s IH]; [constructor|].
  cbn [leading]. destruct (P x) eqn:E; [|constructor].
  constructor; assumption.
Qed.

Lemma unitAt_plain (x : ascii) (tl : list ascii) :
  is_space x = true \/ is_digit x = true ->
  unitAt unitWords (x :: tl) = None.
Proof.
  intros Hx.
  assert (H : forall a, is_lower a = true -> sameLetter a x = false).
  { intros a Ha. rewrite <- (ci_letter a x Ha).
    apply plain_not_letter; assumption. }
  cbn [unitAt unitWords fst list_ascii_of_string afterWord].
  rewrite !H by reflexivity. reflexivity.
Qed.

(** *** The duration pattern at the head of a text *)

Lemma unit_group_eval (q : nat) (r : list ascii)
  (c : list (nat * list ascii)) :
  rmatch true (RGroup 2 Diagram.unitAlts) (MState q r c) Some
  = match unitAt unitWords r with
    | Some (wu, rest') =>
        Some (MState (q + String.length (fst wu)) rest'
                ((2, firstn (String.length (fst wu)) r) :: c))
    | None => None
    end.
Proof.
  cbn [rmatch].
  rewrite (unit_eval (set_cap 2 (MState q r c))).
  destruct (unitAt unitWords r) as [[wu rest']|]; [|reflexivity].
  unfold set_cap. cbn [pos rest caps].
  replace (q + String.length (fst wu) - q) with (String.length (fst wu))
    by lia.
  reflexivity.
Qed.

Lemma after_digits_eval (q : nat) (s : list ascii)
  (c : list (nat * list ascii)) :
  rmatch true (RSeq (RStar true rspace) (RGroup 2 Diagram.unitAlts))
    (MState q s c) Some
  = match unitAt unitWords (behind is_space s) with
    | Some (wu, rest') =>
        Some (MState (q + List.length (leading is_space s)
                      + String.length (fst wu)) rest'
                ((2, firstn (String.length (fst wu)) (behind is_space s))
                 :: c))
    | None => None
    end.
Proof.
  change (rmatch true (RSeq (RStar true rspace) (RGroup 2 Diagram.unitAlts))
            (MState q s c) Some)
    with (star_loop (rmatch true (RSet false [CSpace])) true
            (fun st1 => rmatch true (RGroup 2 Diagram.unitAlts) st1 Some)
            (S (List.length s)) (MState q s c)).
  rewrite (star_class CSpace) by
    first [lia
          | intros q' x tl c' Hx; rewrite unit_group_eval;
            rewrite unitAt_plain by (left; exact Hx); reflexivity].
  cbn [item_matches]. apply unit_group_eval.
Qed.

Lemma timeRe_eval (p : nat) (s : list ascii) :
  rmatch true Diagram.timeRe (MState p s []) Some
  = match leading is_digit s with
    | [] => None
    | _ :: _ =>
        match unitAt unitWords (behind is_space (behind is_digit s)) with
        | Some (wu, rest') =>
            Some (MState
                    (p + List.length (leading is_digit s)
                     + List.length (leading is_space (behind is_digit s))
                     + String.length (fst wu))
                    rest'
                    [(2, firstn (String.length (fst wu))
                           (behind is_space (behind is_digit s)));
                     (1, leading is_digit s)])
        | None => None
        end
    end.
Proof.
  change (rmatch true Diagram.timeRe (MState p s []) Some)
    with (rmatch true (RSet false [CDigit]) (MState p s [])
            (fun st1 =>
               star_loop (rmatch true (RSet false [CDigit])) true
                 (fun st2 =>
                    rmatch true
                      (RSeq (RStar true rspace) (RGroup 2 Diagram.unitAlts))
                      (set_cap 1 (MState p s []) st2) Some)
                 (S (List.length (rest st1))) st1)).
  destruct s as [|x tl]; [reflexivity|].
  rewrite class_step. cbn [item_matches leading behind].
  destruct (is_digit x) eqn:Hx; [|reflexivity].
  cbn [rest].
  rewrite (star_class CDigit).
  - cbn [item_matches]. unfold set_cap. cbn [pos rest caps].
    rewrite after_digits_eval.
    change (fun x0 : ascii => is_digit x0) with is_digit.
    replace (S p + List.length (leading is_digit tl) - p)
      with (S (List.length (leading is_digit tl))) by lia.
    cbn [firstn List.length]. rewrite firstn_leading.
    destruct (unitAt unitWords (behind is_space (behind is_digit tl)))
      as [[wu rest']|]; [|reflexivity].
    rewrite <- Nat.add_succ_comm. reflexivity.
  - intros q x' tl' c Hd. cbn [item_matches] in Hd.
    unfold set_cap. cbn [pos rest caps].
    rewrite after_digits_eval. cbn [behind].
    rewrite (digit_not_space x' Hd).
    rewrite unitAt_plain by (right; exact Hd). reflexivity.
  - lia.
Qed.

(** *** Numbers and units of a token *)

Lemma parseInt_decimal (ds : list ascii) : parseInt ds = decimal ds.
Proof.
  unfold decimal. induction ds as [|d ds IH] using rev_ind; [reflexivity|].
  rewrite rev_app_distr. cbn [rev app decimalRev].
  unfold parseInt in *. rewrite fold_left_app. cbn [fold_left].
  rewrite IH. unfold digit_val, code. lia.
Qed.

Lemma unitAt_spec (r : list ascii) (wu : string * Unit)
  (rest' : list ascii) :
  unitAt unitWords r = Some (wu, rest') ->
  In wu unitWords /\
  exists u, r = (u ++ rest')%list /\
            SameText true (list_ascii_of_string (fst wu)) u /\
            List.length u = String.length (fst wu).
Proof.
  assert (G : forall words,
             Forall (fun wu' => Forall (fun a => is_lower a = true)
                                  (list_ascii_of_string (fst wu'))) words ->
             unitAt words r = Some (wu, rest') ->
             In wu words /\
             exists u, r = (u ++ rest')%list /\
                       SameText true (list_ascii_of_string (fst wu)) u /\
                       List.length u = String.length (fst wu)).
  { induction 1 as [|wu' words Hlow _ IH]; intros E; [discriminate|].
    cbn [unitAt] in E.
    destruct (afterWord (list_ascii_of_string (fst wu')) r) as [r'|] eqn:Ea.
    - injection E as <- <-. split; [left; reflexivity|].
      destruct (afterWord_text _ Hlow _ _ Ea) as (u & Hr & Hs & Hl).
      exists u. split; [exact Hr|]. split; [exact Hs|].
      rewrite Hl. clear. induction (fst wu'); [reflexivity|].
      cbn [list_ascii_of_string List.length String.length].
      f_equal. assumption.
    - destruct (IH E) as (Hin & H). split; [right; exact Hin|exact H]. }
  apply G. unfold unitWords. repeat constructor.
Qed.

Lemma unit_minutes (wu : string * Unit) (u : list ascii) :
  In wu unitWords ->
  SameText true (list_ascii_of_string (fst wu)) u ->
  DurationSpec.unitMinutes u = minutesIn (snd wu).
Proof.
  intros Hin Hs. rewrite (unitMinutes_same _ _ Hs).
  unfold unitWords in Hin. simpl in Hin.
  repeat (destruct Hin as [<-|Hin]; [reflexivity|]).
  contradiction.
Qed.

Lemma total_fold (l : list Token) :
  totalMinutes l = fold_right N.add 0%N (map contribution l).
Proof.
  unfold totalMinutes.
  assert (G : forall a,
             fold_left (fun total t => (total + contribution t)%N) l a
             = (a + fold_right N.add 0%N (map contribution l))%N).
  { induction l as [|t l IH]; intros a; cbn [fold_left map fold_right].
    - lia.
    - rewrite IH. lia. }
  rewrite G. reflexivity.
Qed.

(** *** The matches of the pattern are the tokens of the text *)

Lemma exec_all_skip (f p : nat) (x : ascii) (tl : list ascii) :
  rmatch true Diagram.timeRe (MState p (x :: tl) []) Some = None ->
  exec_all_from true Diagram.timeRe (S f) p (x :: tl)
  = exec_all_from true Diagram.timeRe (S f) (S p) tl.
Proof. intros E. cbn [exec_all_from rsearch]. rewrite E. reflexivity. Qed.

Lemma matches_are_tokens (n : nat) :
  forall s, List.length s < n ->
  forall f1 f2 p,
    List.length s < f1 -> List.length s < f2 ->
    map DurationSpec.tokenMinutes
      (exec_all_from true Diagram.timeRe f1 p s)
    = map contribution (tokensFrom f2 s).
Proof.
  induction n as [|n IH]; intros s Hn f1 f2 p H1 H2; [lia|].
  destruct f1 as [|f1]; [lia|]. destruct f2 as [|f2]; [lia|].
  pose proof (timeRe_eval p s) as Ev.
  cbn [tokensFrom]. unfold tokenAt.
  destruct (leading is_digit s) as [|d ds] eqn:El.
  - destruct s as [|x tl]; [reflexivity|].
    rewrite (exec_all_skip _ _ _ _ Ev).
    apply IH; simpl in *; lia.
  - destruct (unitAt unitWords (behind is_space (behind is_digit s)))
      as [[wu rest']|] eqn:Eu.
    + destruct (unitAt_spec _ _ _ Eu) as (Hin & u & Hr & Hs & Hl).
      assert (Hlen : List.length s
                     = List.length (d :: ds)
                       + List.length (leading is_space (behind is_digit s))
                       + List.length u + List.length rest').
      { rewrite (leading_behind is_digit s) at 1. rewrite El.
        rewrite (leading_behind is_space (behind is_digit s)) at 1.
        rewrite Hr at 1. rewrite !length_app. lia. }
      assert (Es : exists x tl, s = x :: tl).
      { destruct s as [|x tl]; [discriminate El|]. eexists _, _. reflexivity. }
      destruct Es as (x & tl & Es).
      assert (Er : rsearch true Diagram.timeRe p s
                   = Some (mk_result p s
                             (MState
                                (p + List.length (d :: ds)
                                 + List.length
                                     (leading is_space (behind is_digit s))
                                 + String.length (fst wu))
                                rest'
                                [(2, firstn (String.length (fst wu))
                                       (behind is_space (behind is_digit s)));
                                 (1, d :: ds)]))).
      { rewrite Es in Ev |- *. cbn [rsearch]. rewrite Ev. reflexivity. }
      cbn [exec_all_from]. rewrite Er.
      match goal with
      | |- context [mk_result p s ?st] => set (m := mk_result p s st)
      end.
      change (r_index m) with p.
      change (r_end m)
        with (p + List.length (d :: ds)
              + List.length (leading is_space (behind is_digit s))
              + String.length (fst wu)).
      change (r_after m) with rest'.
      assert (Hneq : Nat.eqb
                (p + List.length (d :: ds)
                 + List.length (leading is_space (behind is_digit s))
                 + String.length (fst wu)) p = false).
      { apply Nat.eqb_neq. cbn [List.length]. lia. }
      rewrite Hneq. cbn [map]. f_equal.
      * unfold DurationSpec.tokenMinutes, contribution, m, mk_result,
          Diagram.group_or_empty, group.
        cbn [r_caps caps cap_lookup Nat.eqb number unit].
        rewrite parseInt_decimal. f_equal.
        rewrite Hr, <- Hl, firstn_app, firstn_all, Nat.sub_diag.
        cbn [firstn]. rewrite app_nil_r.
        apply unit_minutes; assumption.
      * apply IH; cbn [List.length] in *; lia.
    + destruct s as [|x tl]; [discriminate El|].
      rewrite (exec_all_skip _ _ _ _ Ev).
      apply IH; simpl in *; lia.
Qed.

Lemma matches_count (ms : list rresult) (l : list Token) :
  map DurationSpec.tokenMinutes ms = map contribution l ->
  DurationSpec.sumMinutes ms = totalMinutes l /\ (ms = [] <-> l = []).
Proof.
  intros E. split.
  - rewrite total_fold. unfold DurationSpec.sumMinutes. rewrite E.
    reflexivity.
  - destruct ms, l; try discriminate E; split; intros H;
      first [reflexivity | discriminate H].
Qed.

Lemma length_chars (s : string) :
  List.length (list_ascii_of_string s) = String.length s.
Proof.
  induction s as [|a s IH]; [reflexivity|].
  cbn [list_ascii_of_string List.length String.length]. rewrite IH.
  reflexivity.
Qed.

(** The total time of the metrics, from the matches of the pattern. *)
Lemma total_time_of_matches (diagram : string) :
  totalTime (Diagram.extractWorkflowMetrics diagram)
  = DurationSpec.totalTimeOf
      (exec_all true Diagram.timeRe (chars diagram)).
Proof.
  assert (Hshape : Forall (fun m => exists ds ws u W, TokenShape m ds ws u W)
                     (exec_all true Diagram.timeRe (chars diagram))).
  { eapply Forall_impl; [|apply RegexFacts.exec_all_sound].
    intros m. apply token_shape. }
  unfold Diagram.extractWorkflowMetrics.
  pose proof (addTime_tokens _ Hshape 0%N false) as Hfold.
  clear Hshape.
  destruct (chars diagram) as [|c s].
  - reflexivity.
  - unfold match_all. rewrite Hfold.
    cbn [totalTime]. unfold DurationSpec.totalTimeOf.
    destruct (exec_all true Diagram.timeRe (c :: s)); [reflexivity|].
    rewrite formatTotal_spec. reflexivity.
Qed.

Lemma total_time_of_tokens (diagram : string) :
  totalTime (Diagram.extractWorkflowMetrics diagram)
  = match tokens diagram with
    | [] => "Unknown"
    | _ :: _ => DurationSpec.formatDuration (totalMinutes (tokens diagram))
    end.
Proof.
  rewrite total_time_of_matches.
  assert (E : map DurationSpec.tokenMinutes
                (exec_all true Diagram.timeRe (chars diagram))
              = map contribution (tokens diagram)).
  { unfold exec_all, tokens, chars.
    apply (matches_are_tokens (S (List.length (list_ascii_of_string diagram))));
      rewrite ?length_chars; lia. }
  destruct (matches_count _ _ E) as (Hsum & Hnil).
  unfold DurationSpec.totalTimeOf.
  destruct (exec_all true Diagram.timeRe (chars diagram)) as [|m ms];
    destruct (tokens diagram) as [|t l]; try reflexivity.
  - destruct Hnil as (H & _). discriminate (H eq_refl).
  - destruct Hnil as (_ & H). discriminate (H eq_refl).
  - rewrite Hsum. reflexivity.
Qed.

End DurationScanFacts.



(** * Further properties *)

(** ** Step times of the optimization response *)

Module OptimizeStepsFacts.
Import OptimizeSteps.

Lemma optimized_pad_spec (k : nat) (st : list StepTime) :
  pad k st = (st ++ map placeholder (seq (List.length st) k))%list.
Proof.
  revert st. induction k as [|k IH]; intros st; simpl.
  - rewrite app_nil_r. reflexivity.
  - rewrite IH. rewrite <- app_assoc. simpl.
    rewrite length_app. simpl. rewrite Nat.add_1_r. reflexivity.
Qed.

Lemma optimized_spec (n : N) (st : list StepTime) :
  optimizedStepTimes n (Some st)
  = (firstn (N.to_nat n) st ++
     map placeholder (seq (List.length st) (N.to_nat n - List.length st)))%list.
Proof.
  unfold optimizedStepTimes.
  destruct (Nat.eqb_spec (List.length st) (N.to_nat n)) as [E|E]; simpl.
  - rewrite <- E, firstn_all, Nat.sub_diag. simpl.
    rewrite app_nil_r. reflexivity.
  - destruct (Nat.ltb_spec (N.to_nat n) (List.length st)) as [L|L].
    + rewrite optimized_pad_spec. rewrite length_firstn.
      replace (Nat.min (N.to_nat n) (List.length st)) with (N.to_nat n) by lia.
      rewrite Nat.sub_diag.
      replace (N.to_nat n - List.length st) with 0 by lia.
      reflexivity.
    + rewrite optimized_pad_spec. rewrite firstn_all2 by lia. reflexivity.
Qed.

End OptimizeStepsFacts.

(** X1: when the number of steps of the parsed answer is a natural number
    or is missing, and the number of steps of the original metrics is a
    natural number, the step times of the optimization response number
    exactly the optimized total of steps, whatever list of step times the
    parsed answer holds: the parsed list (empty when missing) is cut to
    its first [n] entries or extended with entries named
    [Optimized Step k].  Unlike the document metrics extractor, the block
    has no guard on [n > 0]: for [n = 0] the list is emptied. *)
Theorem optimized_stepTimes_match_total
  (parsedTotalSteps : option N) (originalTotalSteps : N)
  (parsedStepTimes : option (list StepTime)) :
  NumberSpec.Safe originalTotalSteps ->
  (forall k, parsedTotalSteps = Some k -> NumberSpec.Safe k) ->
  let n := OptimizeSteps.optimizedTotalSteps parsedTotalSteps
             originalTotalSteps in
  let given := match parsedStepTimes with Some l => l | None => [] end in
  let r := OptimizeSteps.optimizedStepTimes n parsedStepTimes in
  List.length r = N.to_nat n /\
  r = (firstn (N.to_nat n) given ++
       map OptimizeSteps.placeholder
           (seq (List.length given) (N.to_nat n - List.length given)))%list /\
  (n = 0%N -> r = []).
Proof.
  intros _ _ n given r.
  assert (Hr : r = OptimizeSteps.optimizedStepTimes n (Some given)).
  { unfold r, given. destruct parsedStepTimes; reflexivity. }
  assert (Hspec := OptimizeStepsFacts.optimized_spec n given).
  rewrite <- Hr in Hspec.
  split; [|split].
  - rewrite Hspec.
    rewrite length_app, length_firstn, length_map, length_seq. lia.
  - exact Hspec.
  - intros H0. rewrite Hspec, H0. reflexivity.
Qed.

(** ** The document metrics extractor *)

Module DocMetricsTextFacts.
Import DocMetrics DocMetricsText.

Lemma adjust_same_length (n : N) (st : list StepTime) :
  List.length st = N.to_nat n -> adjustStepTimes n st = st.
Proof.
  intros E. unfold adjustStepTimes.
  rewrite E, Nat.eqb_refl. reflexivity.
Qed.

Lemma adjust_zero (st : list StepTime) : adjustStepTimes 0 st = st.
Proof.
  unfold adjustStepTimes. rewrite andb_false_r. reflexivity.
Qed.

End DocMetricsTextFacts.

(** X2: the adjustment of the step times in [extractProcessMetrics] is
    idempotent: adjusting an adjusted list for the same number of steps
    changes nothing. *)
Theorem adjustStepTimes_idempotent (n : N) (st : list StepTime) :
  DocMetrics.adjustStepTimes n (DocMetrics.adjustStepTimes n st)
  = DocMetrics.adjustStepTimes n st.
Proof.
  destruct (N.eq_dec n 0) as [->|Hn].
  - rewrite !DocMetricsTextFacts.adjust_zero. reflexivity.
  - apply DocMetricsTextFacts.adjust_same_length.
    apply DocMetricsFacts.adjust_length. lia.
Qed.

(** X3: [extractProcessMetrics] returns as many step times as its
    [totalSteps], except in one case.  When the table of the generated
    document gives no step row, the steps found in the text set the total
    if the table gave none, and otherwise the list is cut or padded to the
    total of the table.  When the table gives step rows and a total, the
    rows are cut or padded to the total.  When the table gives step rows
    but no total, the rows are returned as they are with [totalSteps = 0]. *)
Theorem process_metrics_consistency
  (tableTotalSteps : N) (totalTime' : string) (tableSteps : list StepTime)
  (documentContent : list ascii) :
  let r := DocMetricsText.extractProcessMetricsFrom tableTotalSteps totalTime'
             tableSteps documentContent in
  (tableSteps = [] \/ tableTotalSteps <> 0%N -> MetricsSpec.consistent r) /\
  (tableSteps = [] -> tableTotalSteps = 0%N ->
   stepTimes r = DocMetricsText.textStepTimes documentContent) /\
  (tableTotalSteps <> 0%N -> totalSteps r = tableTotalSteps) /\
  (tableSteps <> [] -> tableTotalSteps = 0%N ->
   stepTimes r = tableSteps /\ totalSteps r = 0%N).
Proof.
  intros r. unfold r, DocMetricsText.extractProcessMetricsFrom,
    MetricsSpec.consistent.
  destruct tableSteps as [|e0 rows].
  - set (st := DocMetricsText.textStepTimes documentContent).
    destruct (N.eqb_spec tableTotalSteps 0) as [->|Hn].
    + rewrite andb_true_r.
      destruct st as [|e st'] eqn:Est; cbn [DocMetricsText.is_nil negb];
        unfold DocMetrics.finishProcessMetrics; cbn [stepTimes totalSteps].
      * rewrite DocMetricsTextFacts.adjust_zero.
        repeat split; try reflexivity; intros; contradiction.
      * rewrite DocMetricsTextFacts.adjust_same_length
          by (rewrite Nat2N.id; reflexivity).
        rewrite Nat2N.id.
        repeat split; try reflexivity; intros; contradiction.
    + rewrite andb_false_r.
      unfold DocMetrics.finishProcessMetrics. cbn [stepTimes totalSteps].
      repeat split; try reflexivity; try (intros; contradiction).
      intros _. apply DocMetricsFacts.adjust_length. lia.
  - unfold DocMetrics.finishProcessMetrics. cbn [stepTimes totalSteps].
    split; [|split; [|split]].
    + intros [H|H]; [discriminate H|].
      apply DocMetricsFacts.adjust_length. lia.
    + intros H. discriminate H.
    + reflexivity.
    + intros _ ->. rewrite DocMetricsTextFacts.adjust_zero.
      split; reflexivity.
Qed.

(** ** The list of files to upload *)

Module UploaderFacts.
Import Uploader UploaderSpec.

Lemma validate_length (files newFiles : list File) :
  List.length (fst (validate files newFiles)) <= List.length newFiles.
Proof.
  induction newFiles as [|f more IH]; cbn [validate fst List.length]; [lia|].
  destruct (MAX_FILE_SIZE <? f_size f)%N; cbn [fst]; [lia|].
  destruct (negb (Combiner.str_in (f_type f) acceptedTypes)); cbn [fst];
    [lia|].
  destruct (is_listed files f); cbn [fst List.length]; lia.
Qed.

Lemma is_listed_In (files : list File) (f : File) :
  is_listed files f = false -> ~ In (f_name f) (map f_name files).
Proof.
  unfold is_listed. intros H Hin.
  apply in_map_iff in Hin. destruct Hin as (g & Hg & Hin).
  assert (E : existsb (fun existingFile : File =>
                         String.eqb (f_name existingFile) (f_name f)) files
              = true).
  { apply existsb_exists. exists g. split; [exact Hin|].
    rewrite Hg. apply String.eqb_refl. }
  congruence.
Qed.

Lemma validate_kept (files newFiles : list File) (f : File) :
  In f (fst (validate files newFiles)) ->
  In f newFiles /\ accepted f /\ ~ In (f_name f) (map f_name files).
Proof.
  induction newFiles as [|g more IH]; cbn [validate fst In];
    [contradiction|].
  destruct (N.ltb_spec MAX_FILE_SIZE (f_size g)) as [Hs|Hs]; cbn [fst].
  { intros H. destruct (IH H) as (A & B & C). auto. }
  destruct (Combiner.str_in (f_type g) acceptedTypes) eqn:Ht; cbn [negb fst].
  2:{ intros H. destruct (IH H) as (A & B & C). auto. }
  destruct (is_listed files g) eqn:Hl; cbn [fst In].
  { intros H. destruct (IH H) as (A & B & C). auto. }
  intros [<-|H].
  - split; [left; reflexivity|]. split.
    + split; [exact Hs|]. apply CombinerFacts.str_in_In. exact Ht.
    + apply is_listed_In. exact Hl.
  - destruct (IH H) as (A & B & C). auto.
Qed.

Lemma remove_sub (l : list File) (index : nat) :
  forall start,
    List.length
      (map snd (filter (fun p : nat * File => negb (Nat.eqb (fst p) index))
                       (combine (seq start (List.length l)) l)))
    <= List.length l /\
    forall f,
      In f (map snd (filter (fun p : nat * File =>
                               negb (Nat.eqb (fst p) index))
                            (combine (seq start (List.length l)) l))) ->
      In f l.
Proof.
  induction l as [|x l IH]; intros start; simpl.
  - split; [lia|intros f H; exact H].
  - destruct (IH (S start)) as (HL & HI).
    destruct (negb (Nat.eqb start index)); simpl.
    + split; [lia|]. intros f [<-|H]; [left; reflexivity|right; auto].
    + split; [lia|]. intros f H. right. auto.
Qed.

Lemma handleFiles_inv (st : State) (newFiles : list File) :
  Inv st -> Inv (handleFiles st newFiles).
Proof.
  intros (HL & HA). unfold handleFiles.
  destruct (Nat.ltb_spec MAX_FILES
              (List.length (files st) + List.length newFiles)) as [H|H].
  - split; assumption.
  - split; cbn [files].
    + rewrite length_app.
      pose proof (validate_length (files st) newFiles). lia.
    + apply Forall_app. split; [exact HA|].
      apply Forall_forall. intros f Hf.
      apply validate_kept in Hf. tauto.
Qed.

Lemma step_inv (st : State) (e : event) : Inv st -> Inv (step_event st e).
Proof.
  intros H. destruct e as [newFiles|index| |message]; cbn [step_event].
  - apply handleFiles_inv. exact H.
  - destruct H as (HL & HA).
    destruct (remove_sub (files st) index 0) as (H1 & H2).
    split; cbn [removeFile files].
    + lia.
    + apply Forall_forall. intros f Hf.
      rewrite Forall_forall in HA. apply HA. apply H2. exact Hf.
  - destruct (files st) eqn:E; [exact H|].
    split; cbn [files]; [simpl; lia|constructor].
  - destruct (files st) eqn:E; [exact H|].
    unfold Inv. cbn [files]. rewrite <- E. exact H.
Qed.

Lemma run_inv (events : list event) : forall st,
  Inv st -> Inv (fold_left step_event events st).
Proof.
  induction events as [|e events IH]; intros st H; simpl; [exact H|].
  apply IH. apply step_inv. exact H.
Qed.

End UploaderFacts.

(** X4: whatever files are selected, removed or uploaded, and in whatever
    order, the list of the upload component never holds more than five
    files, and every file in it is at most 15 MB (15 * 1024 * 1024 bytes)
    and of one of the seven accepted MIME types. *)
Theorem uploader_list_bounded (events : list Uploader.event) :
  let st := Uploader.run events in
  List.length (Uploader.files st) <= 5 /\
  Forall (fun f => (Uploader.f_size f <= 15728640)%N /\
                   In (Uploader.f_type f) Uploader.acceptedTypes)
         (Uploader.files st).
Proof.
  intros st.
  assert (H : UploaderSpec.Inv st).
  { apply UploaderFacts.run_inv. split; [simpl; lia|constructor]. }
  exact H.
Qed.

(** X5: one selection either is refused as a whole, when it would bring
    the list above five files, and then nothing is added and the error
    tells the count; or it keeps the list and appends, in order, new files
    only: each of them accepted and with a name that no listed file had.
    Two new files of one selection may share a name: names are compared
    with the files listed before the selection only. *)
Theorem handleFiles_adds_new_names
  (st : Uploader.State) (newFiles : list Uploader.File) :
  let st' := Uploader.handleFiles st newFiles in
  (5 < List.length (Uploader.files st) + List.length newFiles ->
   Uploader.files st' = Uploader.files st /\
   Uploader.uploadError st'
   = Some (Uploader.tooManyError
             (List.length (Uploader.files st) + List.length newFiles))) /\
  (List.length (Uploader.files st) + List.length newFiles <= 5 ->
   exists added,
     Uploader.files st' = (Uploader.files st ++ added)%list /\
     (forall f, In f added ->
                In f newFiles /\
                (Uploader.f_size f <= Uploader.MAX_FILE_SIZE)%N /\
                In (Uploader.f_type f) Uploader.acceptedTypes /\
                ~ In (Uploader.f_name f)
                     (map Uploader.f_name (Uploader.files st))) /\
     (Uploader.uploadError st' = None <-> added = newFiles)) /\
  (let a := Uploader.mkFile "a.csv" 10 "text/csv" in
   Uploader.files (Uploader.handleFiles Uploader.initial [a; a]) = [a; a]).
Proof.
  intros st'. split; [|split].
  - intros H. unfold st', Uploader.handleFiles.
    destruct (Nat.ltb_spec Uploader.MAX_FILES
                (List.length (Uploader.files st) + List.length newFiles))
      as [L|L]; [split; reflexivity|].
    unfold Uploader.MAX_FILES in L. lia.
  - intros H. unfold st', Uploader.handleFiles.
    destruct (Nat.ltb_spec Uploader.MAX_FILES
                (List.length (Uploader.files st) + List.length newFiles))
      as [L|L]; [unfold Uploader.MAX_FILES in L; lia|].
    exists (fst (Uploader.validate (Uploader.files st) newFiles)).
    cbn [Uploader.files Uploader.uploadError].
    split; [reflexivity|]. split.
    + intros f Hf. apply UploaderFacts.validate_kept in Hf.
      destruct Hf as (A & (B & C) & D). auto.
    + clear. induction newFiles as [|g more IH];
        cbn [Uploader.validate fst snd].
      * split; reflexivity.
      * assert (Hlen := UploaderFacts.validate_length (Uploader.files st) more).
        assert (Hne : fst (Uploader.validate (Uploader.files st) more)
                      <> g :: more).
        { intros E. rewrite E in Hlen. simpl in Hlen. lia. }
        destruct (Uploader.MAX_FILE_SIZE <? Uploader.f_size g)%N;
          cbn [fst snd].
        { split; [discriminate|intros E; contradiction]. }
        destruct (negb (Combiner.str_in (Uploader.f_type g)
                          Uploader.acceptedTypes)); cbn [fst snd].
        { split; [discriminate|intros E; contradiction]. }
        destruct (Uploader.is_listed (Uploader.files st) g); cbn [fst snd].
        { split; [discriminate|intros E; contradiction]. }
        destruct IH as (I1 & I2). split.
        -- intros E. f_equal. apply I1. exact E.
        -- intros E. injection E as E. apply I2. exact E.
  - reflexivity.
Qed.

Lemma handleFiles_adds_new_names_witness :
  let a := Uploader.mkFile "a.csv" 10 "text/csv" in
  let b := Uploader.mkFile "b.pdf" 20 "application/pdf" in
  exists added,
    Uploader.files (Uploader.handleFiles (Uploader.mkState [a] None) [a; b])
    = ([a] ++ added)%list.
Proof.
  intros a b.
  destruct (handleFiles_adds_new_names (Uploader.mkState [a] None) [a; b])
    as (_ & H & _).
  destruct (H ltac:(simpl; lia)) as (added & E & _).
  exists added. exact E.
Defined.

Lemma optimized_stepTimes_match_total_witness :
  OptimizeSteps.optimizedStepTimes (OptimizeSteps.optimizedTotalSteps None 1)
    (Some [mkStepTime "1" "Review" "5 min"]) = [].
Proof.
  destruct (optimized_stepTimes_match_total None 1
              (Some [mkStepTime "1" "Review" "5 min"])
              ltac:(apply N.leb_le; vm_compute; reflexivity)
              ltac:(intros k E; discriminate E)) as (_ & _ & H).
  apply H. vm_compute. reflexivity.
Defined.

Lemma process_metrics_consistency_witness :
  let r := DocMetricsText.extractProcessMetricsFrom 0 "Not specified" []
             (JS.chars "Step 1: Review the form. Estimated time: 5 min") in
  List.length (stepTimes r) = N.to_nat (totalSteps r).
Proof.
  intros r.
  destruct (process_metrics_consistency 0 "Not specified" []
              (JS.chars "Step 1: Review the form. Estimated time: 5 min"))
    as (H & _).
  apply H. left. reflexivity.
Defined.

(** ** The combiner, for any number of documents *)

Module CombinerMoreFacts.
Import Combiner ObjFacts CombinerSpec CombinerFacts CombinedSpec.

Lemma validDocuments_parsed (docs : list ProcessedDocument) :
  Forall (fun d => parsed (snd d) = true) (validDocuments docs).
Proof.
  induction docs as [|[n e|n data] docs IH]; simpl.
  - constructor.
  - exact IH.
  - destruct (parsed data) eqn:E; [constructor; [exact E|exact IH]|exact IH].
Qed.

Lemma validDocuments_names (docs : list ProcessedDocument) :
  map fst (validDocuments docs) = map doc_fileName (filter doc_parsed docs).
Proof.
  induction docs as [|[n e|n data] docs IH]; simpl.
  - reflexivity.
  - exact IH.
  - destruct (parsed data); simpl; [rewrite IH; reflexivity|exact IH].
Qed.

Lemma validDocuments_filter (docs : list ProcessedDocument) :
  validDocuments (filter doc_parsed docs) = validDocuments docs.
Proof.
  induction docs as [|[n e|n data] docs IH]; simpl.
  - reflexivity.
  - exact IH.
  - destruct (parsed data) eqn:E; simpl; [rewrite E, IH; reflexivity|exact IH].
Qed.

Lemma validDocuments_length (docs : list ProcessedDocument) :
  List.length (validDocuments docs) = List.length (filter doc_parsed docs).
Proof.
  rewrite <- (length_map fst), validDocuments_names, length_map. reflexivity.
Qed.

Lemma DocType_eqb_eq (a b : DocType) : DocType_eqb a b = true <-> a = b.
Proof. destruct a, b; simpl; split; intros H; congruence. Qed.

Lemma type_set_all (t : DocType) (ts : list DocType) :
  Forall (fun x => x = t) ts -> type_set ts [t] = [t].
Proof.
  induction 1 as [|x ts Hx _ IH]; simpl; [reflexivity|].
  subst x. assert (E : DocType_eqb t t = true) by (apply DocType_eqb_eq; reflexivity).
  rewrite E. simpl. exact IH.
Qed.

Lemma type_set_In (ts : list DocType) :
  forall seen t, In t ts -> In t (type_set ts seen).
Proof.
  assert (Hseen : forall ts seen t, In t seen -> In t (type_set ts seen)).
  { intros l. induction l as [|x l IH]; intros seen t H; simpl; [exact H|].
    destruct (existsb (DocType_eqb x) seen); apply IH; [exact H|].
    apply in_or_app. left. exact H. }
  induction ts as [|x ts IH]; intros seen t H; simpl; [contradiction|].
  destruct H as [->|H].
  - destruct (existsb (DocType_eqb t) seen) eqn:E.
    + apply Hseen. apply existsb_exists in E. destruct E as (y & Hy & E).
      apply DocType_eqb_eq in E. subst y. exact Hy.
    + apply Hseen. apply in_or_app. right. left. reflexivity.
  - destruct (existsb (DocType_eqb x) seen); apply IH; exact H.
Qed.

Lemma type_set_single (ts : list DocType) (t : DocType) :
  type_set ts [] = [t] <-> (ts <> [] /\ Forall (fun x => x = t) ts).
Proof.
  split.
  - intros H. split.
    + intros ->. discriminate H.
    + apply Forall_forall. intros x Hx.
      pose proof (type_set_In ts [] x Hx) as Hin. rewrite H in Hin.
      destruct Hin as [<-|[]]. reflexivity.
  - intros (Hne & Hall). destruct ts as [|x ts]; [contradiction|].
    inversion Hall; subst. simpl. apply type_set_all. assumption.
Qed.

Lemma forallb_type (t : DocType) (ts : list DocType) :
  forallb (DocType_eqb t) ts = true <-> Forall (fun x => x = t) ts.
Proof.
  rewrite forallb_forall, Forall_forall. split; intros H x Hx.
  - symmetry. apply DocType_eqb_eq. apply H. exact Hx.
  - apply DocType_eqb_eq. symmetry. apply H. exact Hx.
Qed.

Lemma set_add_all_spec (xs : list string) :
  forall seen,
    NoDup seen ->
    NoDup (set_add_all xs seen) /\
    (forall x, In x (set_add_all xs seen) <-> In x seen \/ In x xs) /\
    exists more, set_add_all xs seen = (seen ++ more)%list.
Proof.
  induction xs as [|x xs IH]; intros seen Hnd; simpl.
  - split; [exact Hnd|]. split; [intros y; tauto|].
    exists []. rewrite app_nil_r. reflexivity.
  - destruct (str_in x seen) eqn:E.
    + destruct (IH seen Hnd) as (H1 & H2 & H3).
      split; [exact H1|]. split; [|exact H3].
      intros y. rewrite H2. apply str_in_In in E.
      split; [tauto|]. intros [H|[<-|H]]; tauto.
    + assert (Hx : ~ In x seen).
      { intros H. apply str_in_In in H. congruence. }
      assert (Hnd' : NoDup (seen ++ [x])).
      { apply NoDup_app; [exact Hnd|repeat constructor; simpl; tauto|].
        intros y Hy [<-|[]]. exact (Hx Hy). }
      destruct (IH (seen ++ [x])%list Hnd') as (H1 & H2 & (more & H3)).
      split; [exact H1|]. split.
      * intros y. rewrite H2, in_app_iff. simpl. tauto.
      * exists (x :: more). rewrite H3, <- app_assoc. reflexivity.
Qed.

Lemma unionOf_spec (field : DocumentRecord -> option (list string))
  (valid : list (string * DocumentRecord)) :
  forall seen,
    NoDup seen ->
    NoDup (unionOf field valid seen) /\
    (forall x, In x (unionOf field valid seen) <->
               In x seen \/
               exists d hs, In d valid /\ field (snd d) = Some hs /\ In x hs).
Proof.
  induction valid as [|d valid IH]; intros seen Hnd; simpl.
  - split; [exact Hnd|]. intros x. split; [tauto|].
    intros [H|(d & hs & [] & _)]. exact H.
  - destruct (field (snd d)) as [hs|] eqn:E.
    + destruct (set_add_all_spec hs seen Hnd) as (H1 & H2 & _).
      destruct (IH _ H1) as (I1 & I2).
      split; [exact I1|]. intros x. rewrite I2, H2. split.
      * intros [[H|H]|(d' & hs' & Hd & Hf & Hx)].
        -- left. exact H.
        -- right. exists d, hs. split; [left; reflexivity|]. tauto.
        -- right. exists d', hs'. split; [right; exact Hd|]. tauto.
      * intros [H|(d' & hs' & [<-|Hd] & Hf & Hx)].
        -- tauto.
        -- rewrite E in Hf. injection Hf as <-. tauto.
        -- right. exists d', hs'. tauto.
    + destruct (IH _ Hnd) as (I1 & I2).
      split; [exact I1|]. intros x. rewrite I2. split.
      * intros [H|(d' & hs' & Hd & Hf & Hx)]; [tauto|].
        right. exists d', hs'. split; [right; exact Hd|]. tauto.
      * intros [H|(d' & hs' & [<-|Hd] & Hf & Hx)]; [tauto| |].
        -- rewrite E in Hf. discriminate Hf.
        -- right. exists d', hs'. tauto.
Qed.

Lemma initial_row (hs : list string) :
  forall r0 : Row,
    NoDup (map fst r0 ++ hs) ->
    map fst (fold_left (fun r header => obj_set header EmptyString r) hs r0)
    = (map fst r0 ++ hs)%list /\
    (forall h, In h hs ->
       obj_get h (fold_left (fun r header => obj_set header EmptyString r)
                            hs r0) = Some EmptyString).
Proof.
  induction hs as [|h hs IH]; intros r0 Hnd; simpl.
  - rewrite app_nil_r. split; [reflexivity|intros h []].
  - assert (Hh : ~ In h (map fst r0)).
    { intros Hin. apply NoDup_remove_2 in Hnd. apply Hnd.
      apply in_or_app. left. exact Hin. }
    assert (Hk : map fst (obj_set h EmptyString r0)
                 = (map fst r0 ++ [h])%list)
      by (apply keys_set_new; exact Hh).
    assert (Hnd' : NoDup (map fst (obj_set h EmptyString r0) ++ hs)).
    { rewrite Hk, <- app_assoc. exact Hnd. }
    destruct (IH _ Hnd') as (I1 & I2).
    split.
    + rewrite I1, Hk, <- app_assoc. reflexivity.
    + intros x [<-|Hx]; [|apply I2; exact Hx].
      assert (Hnot : ~ In h hs).
      { intros Hin. apply NoDup_remove_2 in Hnd. apply Hnd.
        apply in_or_app. right. exact Hin. }
      clear - Hnot. revert r0.
      induction hs as [|y hs IHs]; intros r0; simpl.
      * apply get_set_same.
      * assert (Hy : h <> y) by (intros ->; apply Hnot; left; reflexivity).
        assert (Hn' : ~ In h hs) by (intros H; apply Hnot; right; exact H).
        specialize (IHs Hn').
        assert (G : forall r : Row,
                   obj_get h r = Some EmptyString ->
                   obj_get h (fold_left
                                (fun r header => obj_set header EmptyString r)
                                hs r) = Some EmptyString).
        { clear - Hn'. induction hs as [|z hs IHz]; intros r Hr; simpl;
            [exact Hr|].
          apply IHz; [intros H; apply Hn'; right; exact H|].
          rewrite get_set_other; [exact Hr|].
          intros ->. apply Hn'. left. reflexivity. }
        apply G. rewrite get_set_other by exact Hy.
        apply get_set_same.
Qed.

(** The row that the tabular merge pushes has the final headers as its
    properties, in order; each header other than [Source File] holds the
    value of the source row, or the empty string; [Source File] holds the
    file name. *)
Lemma standardize_any (hs : list string) (fileName : string) (row : Row) :
  NoDup hs -> NoDup (map fst row) ->
  let out := standardizeRow hs fileName row in
  map fst out
  = (if str_in "Source File" hs then hs else hs ++ ["Source File"])%list /\
  (forall h, In h hs -> h <> "Source File" ->
             obj_get h out
             = Some (match obj_get h row with
                     | Some v => v
                     | None => EmptyString
                     end)) /\
  obj_get "Source File" out = Some fileName.
Proof.
  intros Hnd Hrow out.
  set (initial := fold_left (fun r header => obj_set header EmptyString r)
                            hs ([] : Row)).
  assert (Hout : out = obj_set "Source File" fileName
                         (fold_left (copyField hs) row initial))
    by reflexivity.
  destruct (initial_row hs [] Hnd) as (Hk0 & Hg0). fold initial in Hk0, Hg0.
  simpl in Hk0.
  assert (Hkeys : map fst (fold_left (copyField hs) row initial) = hs)
    by (apply fill_keys; exact Hk0).
  rewrite Hout. split; [|split].
  - destruct (str_in "Source File" hs) eqn:E.
    + rewrite keys_set_in; [exact Hkeys|].
      rewrite Hkeys. apply str_in_In. exact E.
    + rewrite keys_set_new; [rewrite Hkeys; reflexivity|].
      rewrite Hkeys. intros H. apply str_in_In in H. congruence.
  - intros h Hh Hne.
    rewrite get_set_other by exact Hne.
    rewrite fill_get_header by assumption.
    destruct (obj_get h row); [reflexivity|].
    apply Hg0. exact Hh.
  - apply get_set_same.
Qed.

Lemma combine_many (stringify : DocContent -> string)
  (docs : list ProcessedDocument) :
  2 <= List.length (validDocuments docs) ->
  let valid := validDocuments docs in
  let ts := map (fun d : string * DocumentRecord => type (snd d)) valid in
  combineDocumentData stringify docs
  = if forallb (DocType_eqb TCsv) ts then mergeTabular TCsv valid
    else if forallb (DocType_eqb TExcel) ts then mergeTabular TExcel valid
    else if has_type TPdf (type_set ts []) || has_type TDocx (type_set ts [])
            || has_type TText (type_set ts [])
    then mergeText stringify (type_set ts []) valid
    else mergeMixed stringify valid.
Proof.
  intros Hlen valid ts. unfold combineDocumentData. fold valid.
  destruct valid as [|d1 [|d2 rest]] eqn:Ev;
    [simpl in Hlen; unfold valid in *; rewrite Ev in Hlen; simpl in Hlen; lia
    |unfold valid in *; rewrite Ev in Hlen; simpl in Hlen; lia|].
  fold ts.
  assert (Hne : ts <> []) by (unfold ts; simpl; discriminate).
  destruct (forallb (DocType_eqb TCsv) ts) eqn:Ec.
  { apply forallb_type in Ec.
    assert (E : type_set ts [] = [TCsv])
      by (apply type_set_single; split; assumption).
    rewrite E. reflexivity. }
  destruct (forallb (DocType_eqb TExcel) ts) eqn:Ee.
  { apply forallb_type in Ee.
    assert (E : type_set ts [] = [TExcel])
      by (apply type_set_single; split; assumption).
    rewrite E. reflexivity. }
  destruct (type_set ts []) as [|t [|t' l]] eqn:Et; try reflexivity.
  assert (Hall : Forall (fun x => x = t) ts)
    by (apply type_set_single in Et; tauto).
  destruct t; try reflexivity.
  - apply forallb_type in Hall. congruence.
  - apply forallb_type in Hall. congruence.
Qed.

Lemma filter_filter (p q : string -> bool) (l : list string) :
  filter p (filter q l) = filter (fun y => q y && p y) l.
Proof.
  induction l as [|x l IH]; [reflexivity|].
  cbn [filter]. destruct (q x); cbn [filter andb].
  - destruct (p x); rewrite IH; reflexivity.
  - exact IH.
Qed.

Lemma str_in_app (y : string) (a b : list string) :
  str_in y (a ++ b) = str_in y a || str_in y b.
Proof. unfold str_in. apply existsb_app. Qed.

Lemma set_add_all_order (xs : list string) :
  forall seen,
    set_add_all xs seen
    = (seen ++ filter (fun y => negb (str_in y seen)) (firstOccurrences xs))%list.
Proof.
  induction xs as [|x xs IH]; intros seen; cbn [set_add_all firstOccurrences filter].
  - rewrite app_nil_r. reflexivity.
  - destruct (str_in x seen) eqn:E; cbn [negb].
    + rewrite IH. f_equal. rewrite filter_filter.
      apply filter_ext_in. intros y _.
      destruct (String.eqb_spec x y) as [<-|Hne]; cbn [negb andb];
        [rewrite E|]; reflexivity.
    + rewrite IH, <- app_assoc. cbn [app]. f_equal. f_equal.
      rewrite filter_filter. apply filter_ext_in. intros y _.
      rewrite str_in_app. unfold str_in at 2. cbn [existsb].
      rewrite orb_false_r, negb_orb, andb_comm.
      rewrite (String.eqb_sym y x). reflexivity.
Qed.

Lemma firstOccurrences_app (a b : list string) :
  firstOccurrences (a ++ b)
  = (firstOccurrences a
     ++ filter (fun y => negb (str_in y a)) (firstOccurrences b))%list.
Proof.
  induction a as [|x a IH]; cbn [app firstOccurrences].
  - symmetry. apply forallb_filter_id. apply forallb_forall. reflexivity.
  - rewrite IH, filter_app. f_equal. f_equal.
    rewrite filter_filter. apply filter_ext_in. intros y _.
    unfold str_in. cbn [existsb]. rewrite negb_orb, andb_comm.
    rewrite (String.eqb_sym y x). reflexivity.
Qed.

Lemma in_firstOccurrences (l : list string) (y : string) :
  In y (firstOccurrences l) <-> In y l.
Proof.
  induction l as [|x l IH]; [reflexivity|].
  cbn [firstOccurrences In]. rewrite filter_In, IH.
  destruct (String.eqb_spec x y) as [->|Hne]; cbn [negb].
  - split; [intros [H|[H _]]; auto|intros _; left; reflexivity].
  - intuition congruence.
Qed.

Lemma unionOf_order (valid : list (string * DocumentRecord)) :
  forall seen,
    unionOf headers valid seen
    = (seen ++ filter (fun y => negb (str_in y seen))
                 (firstOccurrences
                    (flat_map (fun d => headersOf (snd d)) valid)))%list.
Proof.
  induction valid as [|d valid IH]; intros seen.
  - cbn. rewrite app_nil_r. reflexivity.
  - cbn [flat_map]. unfold unionOf in *. cbn [fold_left].
    unfold headersOf at 1.
    destruct (headers (snd d)) as [hs|].
    + rewrite IH, set_add_all_order, firstOccurrences_app, <- app_assoc.
      f_equal. rewrite filter_app. f_equal.
      rewrite filter_filter. apply filter_ext_in. intros y _.
      rewrite str_in_app.
      destruct (str_in y seen) eqn:E1; [rewrite andb_false_r; reflexivity|].
      cbn [orb]. rewrite andb_true_r. f_equal.
      destruct (str_in y hs) eqn:E2.
      * apply str_in_In. apply filter_In. split.
        -- apply in_firstOccurrences. apply str_in_In. exact E2.
        -- rewrite E1. reflexivity.
      * destruct (str_in y (filter _ _)) eqn:E3; [|reflexivity].
        apply str_in_In in E3. apply filter_In in E3.
        destruct E3 as (E3 & _).
        apply (proj1 (in_firstOccurrences hs y)) in E3.
        apply (proj2 (str_in_In y hs)) in E3. congruence.
    + cbn [app]. apply IH.
Qed.

Lemma union_order (valid : list (string * DocumentRecord)) :
  unionOf headers valid []
  = firstOccurrences (flat_map (fun d => headersOf (snd d)) valid).
Proof.
  rewrite unionOf_order. cbn [app].
  apply forallb_filter_id. apply forallb_forall. reflexivity.
Qed.
End CombinerMoreFacts.

(** X6: what [combineDocumentData] returns depends on the documents that
    were parsed only, and on how many they are.  With none, it is the
    record [No valid documents to process] with [parsed = false]; with
    one, the data of that document, unchanged; with two or more, a record
    with [parsed = true], no error, the names of the parsed documents in
    upload order as [fileNames], and the type csv when all are csv, excel
    when all are excel, text in every other case. *)
Theorem combine_by_parsed_documents
  (stringify : DocContent -> string) (docs : list ProcessedDocument) :
  let good := filter Combiner.doc_parsed docs in
  let r := Combiner.combineDocumentData stringify docs in
  Combiner.combineDocumentData stringify good = r /\
  (good = [] ->
   r = mkDoc (CText "No valid documents to process") TText None false
             None None None) /\
  (forall n data, good = [Processed n data] -> r = data) /\
  (2 <= List.length good ->
   parsed r = true /\ error r = None /\
   fileNames r = Some (map Combiner.doc_fileName good) /\
   type r
   = CombinedSpec.combinedType
       (map (fun d => type (snd d)) (Combiner.validDocuments docs))).
Proof.
  intros good r.
  assert (Hv : Combiner.validDocuments good = Combiner.validDocuments docs)
    by apply CombinerMoreFacts.validDocuments_filter.
  split; [|split; [|split]].
  - unfold r, Combiner.combineDocumentData. rewrite Hv. reflexivity.
  - intros E. unfold r, Combiner.combineDocumentData.
    rewrite <- Hv, E. reflexivity.
  - intros n data E. unfold r, Combiner.combineDocumentData.
    rewrite <- Hv, E. simpl.
    assert (Hp : parsed data = true).
    { assert (Hin : In (Processed n data) good) by (rewrite E; left; reflexivity).
      apply filter_In in Hin. exact (proj2 Hin). }
    rewrite Hp. reflexivity.
  - intros Hlen.
    assert (Hlen' : 2 <= List.length (Combiner.validDocuments docs)).
    { rewrite CombinerMoreFacts.validDocuments_length. exact Hlen. }
    unfold r. rewrite (CombinerMoreFacts.combine_many stringify docs Hlen').
    unfold CombinedSpec.combinedType, good.
    rewrite <- CombinerMoreFacts.validDocuments_names.
    destruct (forallb _ _); [repeat split; reflexivity|].
    destruct (forallb _ _); [repeat split; reflexivity|].
    destruct (_ || _); repeat split; reflexivity.
Qed.

Lemma combine_by_parsed_documents_witness :
  let a := mkDoc (CText "first") TText None true None None None in
  let b := mkDoc (CText "broken") TPdf None false (Some "bad") None None in
  let c := mkDoc (CRows []) TCsv (Some ["x"]) true None None None in
  let r := Combiner.combineDocumentData (fun _ => EmptyString)
             [Processed "a.txt" a; Processed "b.pdf" b; Failed "d" "gone";
              Processed "c.csv" c] in
  parsed r = true /\ fileNames r = Some ["a.txt"; "c.csv"] /\ type r = TText.
Proof.
  intros a b c r.
  destruct (combine_by_parsed_documents (fun _ => EmptyString)
              [Processed "a.txt" a; Processed "b.pdf" b; Failed "d" "gone";
               Processed "c.csv" c]) as (_ & _ & _ & H).
  destruct (H ltac:(simpl; lia)) as (H1 & _ & H3 & H4).
  split; [exact H1|]. split; [exact H3|exact H4].
Defined.

(** X7: the tabular merge, for any two or more parsed documents that are
    all csv or all excel and none of whose headers is [__proto__], which
    an assignment does not create.  The headers of the combined record are
    the headers of the documents in order of first occurrence, without
    repetition, followed by [Source File] unless a document has a header of
    that name; the rows are those of the documents in order, one for one,
    and every row has exactly the combined headers and [Source File] as
    its columns, with the name of its file under [Source File] and, under
    every other header, the value of the source row or the empty string. *)
Theorem combine_tabular_any
  (stringify : DocContent -> string) (t : DocType)
  (docs : list ProcessedDocument) :
  t = TCsv \/ t = TExcel ->
  2 <= List.length (Combiner.validDocuments docs) ->
  Forall (fun d => type (snd d) = t) (Combiner.validDocuments docs) ->
  Forall (fun d => Forall (fun row => NoDup (map fst row))
                          (Combiner.rowsOf (snd d)))
         (Combiner.validDocuments docs) ->
  Forall (fun d => Forall ObjectSpec.Assignable
                          (CombinedSpec.headersOf (snd d)))
         (Combiner.validDocuments docs) ->
  let valid := Combiner.validDocuments docs in
  let r := Combiner.combineDocumentData stringify docs in
  let hs :=
    CombinedSpec.firstOccurrences
      (flat_map (fun d => CombinedSpec.headersOf (snd d)) valid) in
  headers r
  = Some (if Combiner.str_in "Source File" hs then hs
          else hs ++ ["Source File"])%list /\
  type r = t /\
  content r
  = CRows (flat_map (fun d => map (Combiner.standardizeRow hs (fst d))
                                  (Combiner.rowsOf (snd d))) valid) /\
  forall d row, In d valid -> In row (Combiner.rowsOf (snd d)) ->
    let out := Combiner.standardizeRow hs (fst d) row in
    NoDup (map fst out) /\
    (forall h, In h (map fst out) <-> In h hs \/ h = "Source File") /\
    obj_get "Source File" out = Some (fst d) /\
    forall h, In h hs -> h <> "Source File" ->
              obj_get h out
              = Some (match obj_get h row with
                      | Some v => v
                      | None => EmptyString
                      end).
Proof.
  intros Ht Hlen Hty Hrows _ valid r hs.
  set (ts := map (fun d : string * DocumentRecord => type (snd d)) valid).
  assert (Hts : Forall (fun x => x = t) ts).
  { unfold ts. apply Forall_map. exact Hty. }
  assert (Hr : r = Combiner.mergeTabular t valid).
  { unfold r. rewrite (CombinerMoreFacts.combine_many stringify docs Hlen).
    fold valid. fold ts.
    destruct Ht as [-> | ->].
    - apply CombinerMoreFacts.forallb_type in Hts. rewrite Hts. reflexivity.
    - destruct (forallb (DocType_eqb TCsv) ts) eqn:Ec.
      + apply CombinerMoreFacts.forallb_type in Ec.
        assert (Hl : 2 <= List.length ts)
          by (unfold ts; rewrite length_map; exact Hlen).
        clearbody ts. destruct ts as [|x ts']; [simpl in Hl; lia|].
        inversion Ec; inversion Hts; subst. discriminate.
      + apply CombinerMoreFacts.forallb_type in Hts. rewrite Hts.
        reflexivity. }
  assert (Ehs : CombinedSpec.unionOf headers valid [] = hs)
    by apply CombinerMoreFacts.union_order.
  destruct (CombinerMoreFacts.unionOf_spec headers valid [] (NoDup_nil _))
    as (Hnd & _). rewrite Ehs in Hnd.
  rewrite Hr. unfold Combiner.mergeTabular.
  change (fold_left _ valid []) with (CombinedSpec.unionOf headers valid []).
  rewrite Ehs.
  cbn [headers type content].
  split; [reflexivity|]. split; [reflexivity|]. split; [reflexivity|].
  intros d row Hd Hrow.
  assert (Hnr : NoDup (map fst row)).
  { rewrite Forall_forall in Hrows. specialize (Hrows d Hd).
    rewrite Forall_forall in Hrows. apply Hrows. exact Hrow. }
  destruct (CombinerMoreFacts.standardize_any hs (fst d) row Hnd Hnr)
    as (H1 & H2 & H3).
  split; [|split; [|split]].
  - rewrite H1. destruct (Combiner.str_in "Source File" hs) eqn:E;
      [exact Hnd|].
    apply NoDup_app; [exact Hnd|repeat constructor; simpl; tauto|].
    intros y Hy [<-|[]].
    apply CombinerFacts.str_in_In in Hy. congruence.
  - intros h. rewrite H1.
    destruct (Combiner.str_in "Source File" hs) eqn:E.
    + apply CombinerFacts.str_in_In in E.
      split; [tauto|intros [H| ->]; assumption].
    + rewrite in_app_iff. simpl. intuition congruence.
  - exact H3.
  - exact H2.
Qed.

Lemma combine_tabular_any_witness :
  let d1 := mkDoc (CRows [[("A", "1"); ("B", "2")]]) TExcel
                  (Some ["A"; "B"]) true None None None in
  let d2 := mkDoc (CRows [[("B", "3"); ("Source File", "x")]]) TExcel
                  (Some ["B"; "Source File"]) true None None None in
  let d3 := mkDoc (CRows [[("C", "4")]]) TExcel (Some ["C"]) true None None
                  None in
  headers (Combiner.combineDocumentData (fun _ => EmptyString)
             [Processed "1.xlsx" d1; Processed "2.xlsx" d2;
              Processed "3.xlsx" d3])
  = Some ["A"; "B"; "Source File"; "C"].
Proof.
  intros d1 d2 d3.
  assert (Hrows : Forall (fun d : string * DocumentRecord =>
                            Forall (fun row : Row => NoDup (map fst row))
                                   (Combiner.rowsOf (snd d)))
                         (Combiner.validDocuments
                            [Processed "1.xlsx" d1; Processed "2.xlsx" d2;
                             Processed "3.xlsx" d3])).
  { repeat constructor; simpl; intuition discriminate. }
  assert (Hkeys : Forall (fun d : string * DocumentRecord =>
                            Forall ObjectSpec.Assignable
                                   (CombinedSpec.headersOf (snd d)))
                         (Combiner.validDocuments
                            [Processed "1.xlsx" d1; Processed "2.xlsx" d2;
                             Processed "3.xlsx" d3])).
  { repeat constructor; intros E; discriminate E. }
  destruct (combine_tabular_any (fun _ => EmptyString) TExcel
              [Processed "1.xlsx" d1; Processed "2.xlsx" d2;
               Processed "3.xlsx" d3]
              (or_intror eq_refl) ltac:(simpl; lia)
              ltac:(repeat constructor) Hrows Hkeys)
    as (H & _).
  exact H.
Defined.

(** X8: the keywords of a combined text record are the union of the
    keywords of the parsed documents: each keyword of a document occurs,
    nothing else does, and none occurs twice. *)
Theorem combined_keywords_union
  (stringify : DocContent -> string) (tys : list DocType)
  (valid : list (string * DocumentRecord)) :
  exists ks,
    keywords (Combiner.mergeText stringify tys valid) = Some ks /\
    NoDup ks /\
    forall k, In k ks <->
              exists d l, In d valid /\ keywords (snd d) = Some l /\ In k l.
Proof.
  exists (CombinedSpec.unionOf keywords valid []).
  destruct (CombinerMoreFacts.unionOf_spec keywords valid [] (NoDup_nil _))
    as (Hnd & Hin).
  split; [reflexivity|]. split; [exact Hnd|].
  intros k. rewrite Hin. simpl. tauto.
Qed.

(** ** The upload handler *)

Module IngestFacts.
Import Ingest IngestSpec.

Section Handler.

Variable readFileSync : string -> bool -> Res FileContent.
Variable canUnlink : string -> bool.
Variable parseDocument :
  FileContent -> option string -> string -> Res DocumentRecord.
Hypothesis parse_total :
  forall c mime name, exists r, parseDocument c mime name = Ok r.

Lemma processFiles_entries (documentFiles : list UploadedFile) :
  forall deleted,
    let r := processFiles readFileSync canUnlink parseDocument documentFiles
               deleted in
    Forall2 Entry documentFiles (fst r) /\
    forall p, In p (snd r) ->
      In p deleted \/
      exists f utf8 c,
        In f documentFiles /\ filePathOf f = Some p /\
        readFileSync p utf8 = Ok c /\ canUnlink p = true.
Proof.
  induction documentFiles as [|f more IH]; intros deleted r.
  - split; [constructor|]. intros p H. left. exact H.
  - unfold r. cbn [processFiles].
    fold (filePathOf f).
    destruct (filePathOf f) as [p|] eqn:Ep.
    2:{ destruct (IH deleted) as (I1 & I2). cbn [fst snd]. split.
        - constructor; [|exact I1]. left. repeat split. exact Ep.
        - intros q Hq. destruct (I2 q Hq) as [H|(g & u & c & Hg & H)];
            [left; exact H|].
          right. exists g, u, c. split; [right; exact Hg|exact H]. }
    fold (fileNameOf f).
    set (mimeType := orDefault (firstTruthy [uf_mimetype f; uf_type f])
                               "text/plain").
    set (utf8 := JS.includes (JS.chars mimeType) (JS.chars "text") ||
                 JS.includes (JS.chars mimeType) (JS.chars "csv")).
    destruct (readFile readFileSync deleted p utf8) as [c|e] eqn:Er.
    2:{ destruct (IH deleted) as (I1 & I2). cbn [fst snd]. split.
        - constructor; [|exact I1]. right. exists p, e. repeat split.
          exact Ep.
        - intros q Hq. destruct (I2 q Hq) as [H|(g & u & c & Hg & H)];
            [left; exact H|].
          right. exists g, u, c. split; [right; exact Hg|exact H]. }
    destruct (parse_total c (Some mimeType) (fileNameOf f)) as (data & Ed).
    rewrite Ed.
    assert (Hread : readFileSync p utf8 = Ok c).
    { unfold readFile in Er.
      destruct (Combiner.str_in p deleted); [discriminate|exact Er]. }
    set (deleted' := if canUnlink p then p :: deleted else deleted).
    destruct (IH deleted') as (I1 & I2). cbn [fst snd]. split.
    + constructor; [|exact I1]. exists p. split; [exact Ep|reflexivity].
    + intros q Hq. destruct (I2 q Hq) as [H|(g & u & c' & Hg & H)].
      * unfold deleted' in H. destruct (canUnlink p) eqn:Eu.
        -- destruct H as [<-|H]; [|left; exact H].
           right. exists f, utf8, c.
           split; [left; reflexivity|]. repeat split; assumption.
        -- left. exact H.
      * right. exists g, u, c'. split; [right; exact Hg|exact H].
Qed.

End Handler.

Lemma combine_parsed (stringify : DocContent -> string)
  (docs : list ProcessedDocument) :
  Combiner.validDocuments docs <> [] ->
  parsed (Combiner.combineDocumentData stringify docs) = true.
Proof.
  intros Hne.
  destruct (Combiner.validDocuments docs) as [|d1 [|d2 rest]] eqn:Ev.
  - contradiction.
  - unfold Combiner.combineDocumentData. rewrite Ev. simpl.
    pose proof (CombinerMoreFacts.validDocuments_parsed docs) as H.
    rewrite Ev in H. inversion H; subst. assumption.
  - rewrite CombinerMoreFacts.combine_many by (rewrite Ev; simpl; lia).
    destruct (forallb _ _); [reflexivity|].
    destruct (forallb _ _); [reflexivity|].
    destruct (_ || _); reflexivity.
Qed.

Lemma some_valid (docs : list ProcessedDocument) :
  forallb (fun doc => negb (Combiner.doc_parsed doc)) docs = false ->
  Combiner.validDocuments docs <> [] /\
  exists d, In d docs /\ Combiner.doc_parsed d = true.
Proof.
  induction docs as [|[n e|n data] docs IH]; simpl; intros H.
  - discriminate.
  - destruct (IH H) as (I1 & d & I2 & I3).
    split; [exact I1|]. exists d. split; [right; exact I2|exact I3].
  - destruct (parsed data) eqn:E; simpl in H.
    + split; [discriminate|].
      exists (Processed n data). split; [left; reflexivity|exact E].
    + destruct (IH H) as (I1 & d & I2 & I3).
      split; [exact I1|]. exists d. split; [right; exact I2|exact I3].
Qed.

End IngestFacts.

(** X9: the loop of the upload handler over the uploaded files, with the
    parser of the repository.  [processedDocuments] has one entry per file,
    in order, under the name of the file ([unknown] when it has none).  An
    entry is a failure only for a file without a path or a file that
    cannot be read: a file that is read always gives an entry with
    extracted data, the branch for a parser that throws is never taken.
    A temporary file is deleted only after it has been read. *)
Theorem upload_loop_entries
  (pdfParse : FileContent -> bool -> Res Parser.PdfData)
  (processPdfText : string -> string)
  (extractKeywords : string -> list string)
  (extractRawText : FileContent -> Res string)
  (readFirstSheet : FileContent -> Res (list (list string)))
  (decodeUtf8 : list ascii -> string)
  (readFileSync : string -> bool -> Res FileContent)
  (canUnlink : string -> bool)
  (documentFiles : list Ingest.UploadedFile) :
  let parse := Parser.parseDocument pdfParse processPdfText extractKeywords
                 extractRawText readFirstSheet decodeUtf8 in
  let r := Ingest.processFiles readFileSync canUnlink parse documentFiles []
  in
  Forall2 IngestSpec.Entry documentFiles (fst r) /\
  forall p, In p (snd r) ->
    exists f utf8 c,
      In f documentFiles /\ IngestSpec.filePathOf f = Some p /\
      readFileSync p utf8 = Ok c /\ canUnlink p = true.
Proof.
  intros parse r.
  destruct (IngestFacts.processFiles_entries readFileSync canUnlink parse
              (ParserFacts.parse_total pdfParse processPdfText
                 extractKeywords extractRawText readFirstSheet decodeUtf8)
              documentFiles []) as (H1 & H2).
  split; [exact H1|].
  intros p Hp. destruct (H2 p Hp) as [[]|H]. exact H.
Qed.

(** X10: when the upload handler goes on to generate documents, the
    combined data it passes on always has [parsed = true]: the handler
    answers with status 400 when no file is uploaded or no document is
    parsed, so the record [No valid documents to process] of the combiner
    never leaves the handler. *)
Theorem ingest_combined_is_parsed
  (readFileSync : string -> bool -> Res FileContent)
  (canUnlink : string -> bool)
  (parse : FileContent -> option string -> string -> Res DocumentRecord)
  (stringify : DocContent -> string)
  (documentFiles : list Ingest.UploadedFile) :
  match Ingest.ingest readFileSync canUnlink parse stringify documentFiles
  with
  | Ingest.NoDocuments => documentFiles = []
  | Ingest.NoneProcessed docs =>
      documentFiles <> [] /\
      Forall (fun d => Combiner.doc_parsed d = false) docs
  | Ingest.Combined docs combined =>
      parsed combined = true /\
      combined = Combiner.combineDocumentData stringify docs /\
      exists d, In d docs /\ Combiner.doc_parsed d = true
  end.
Proof.
  unfold Ingest.ingest. destruct documentFiles as [|f more]; [reflexivity|].
  set (docs := fst (Ingest.processFiles readFileSync canUnlink parse
                      (f :: more) [])).
  destruct (forallb (fun doc => negb (Combiner.doc_parsed doc)) docs) eqn:E.
  - split; [discriminate|].
    apply Forall_forall. intros d Hd.
    rewrite forallb_forall in E. specialize (E d Hd).
    destruct (Combiner.doc_parsed d); [discriminate|reflexivity].
  - destruct (IngestFacts.some_valid docs E) as (H1 & H2).
    split; [|split; [reflexivity|exact H2]].
    apply IngestFacts.combine_parsed. exact H1.
Qed.

(** X11: the component sends its files under the keys [document0],
    [document1], ... and the handler reads the keys [document0] to
    [document4].  Whatever events led to the list of the component, the
    handler finds every listed file, in order, whether the form parser
    gives each file alone or in an array. *)
Theorem uploaded_files_all_received
  (events : list Uploader.event) (asArray : Uploader.File -> bool) :
  let listed := Uploader.files (Uploader.run events) in
  let received :=
    map (fun kv : string * Uploader.File =>
           (fst kv,
            if asArray (snd kv) then Ingest.Many [snd kv]
            else Ingest.One (snd kv)))
        (Uploader.formData listed) in
  Ingest.documentFiles received = listed.
Proof.
  intros listed received.
  assert (H : List.length listed <= 5).
  { assert (Hinv : UploaderSpec.Inv (Uploader.run events)).
    { apply UploaderFacts.run_inv. split; [simpl; lia|constructor]. }
    exact (proj1 Hinv). }
  unfold received. clearbody listed. clear received.
  destruct listed as [|a [|b [|c [|d [|e [|f l]]]]]];
    [| | | | | |simpl in H; lia];
    clear H; cbv;
    repeat match goal with
           | |- context [asArray ?x] => destruct (asArray x)
           end; reflexivity.
Qed.

(** ** Calls to the provider *)

(** X12: [generateFormattedDocument] calls the provider once or twice: a
    second call is made only when the first has failed, and the function
    throws only when both have failed, with the message of the first
    failure. *)
Theorem formatted_document_calls
  (process : string -> string) (first second : Provider.outcome)
  (w : list Provider.outcome) :
  let r := Provider.generateFormattedDocument process (first :: second :: w) 0
  in
  match first, second with
  | Provider.Reply text, _ =>
      r = (Ok (Provider.mkFormatted (process text) "html"), (second :: w, 1))
  | Provider.Failure e1, Provider.Reply text =>
      r = (Ok (Provider.mkFormatted (process text) "html"), (w, 2))
  | Provider.Failure e1, Provider.Failure e2 => r = (Throw e1, (w, 2))
  end.
Proof. destruct first, second; reflexivity. Qed.

(** X13: the optimization handler always answers, provided that the
    processing of an answer of the provider returns or throws, and lets no
    error escape.  A request that is not a POST gets status 405; a body
    that is [null] or [undefined] gets status 500, with the message of the
    error thrown when its properties are read; a body without
    [originalMetrics] or [workflowDiagram] gets status 400; none of these
    calls the provider.  Otherwise the provider is called once, and once
    more when the first call fails: the first answer received is
    processed and the response is status 200 with the optimized process,
    or status 500 with the message of the error thrown while processing
    it; when both calls fail the response is status 500 with the message
    of the second failure. *)
Theorem optimize_handler_always_answers
  (Body : Type) (build : string -> Res Body) (isPost : bool)
  (body : OptimizeRequest.RequestBody)
  (first second : Provider.outcome) (w : list Provider.outcome) :
  exists resp left calls,
    OptimizeRequest.handler Body build isPost body (first :: second :: w) 0
    = (Ok resp, (left, calls)) /\
    calls <= 2 /\
    (isPost = false ->
     resp = Provider.Status405 "Method not allowed" /\ calls = 0) /\
    (isPost = true ->
     match body with
     | OptimizeRequest.NoBody message =>
         resp = Provider.Status500 "Failed to optimize process" message /\
         calls = 0
     | OptimizeRequest.BodyWith originalMetrics workflowDiagram =>
         if originalMetrics && workflowDiagram then
           match first, second with
           | Provider.Reply text, _ =>
               resp = OptimizeSpec.answerFor build text /\ calls = 1
           | Provider.Failure _, Provider.Reply text =>
               resp = OptimizeSpec.answerFor build text /\ calls = 2
           | Provider.Failure _, Provider.Failure e2 =>
               resp = Provider.Status500 "Failed to optimize process" e2 /\
               calls = 2
           end
         else
           resp = Provider.Status400 "Missing required data" /\ calls = 0
     end).
Proof.
  unfold OptimizeRequest.handler.
  destruct isPost; cbn [negb].
  2:{ eexists _, _, _. split; [reflexivity|]. split; [lia|].
      split; [intros _; split; reflexivity|intros H; discriminate H]. }
  destruct body as [message|om wd].
  { eexists _, _, _. split; [reflexivity|]. split; [lia|].
    split; [intros H; discriminate H|]. intros _. split; reflexivity. }
  destruct om, wd; cbn [negb orb andb];
    try (eexists _, _, _; split; [reflexivity|]; split; [lia|];
         split; [intros H; discriminate H|]; intros _; split; reflexivity).
  unfold OptimizeSpec.answerFor, Provider.ctry, Provider.cbind,
    Provider.create, Provider.ret, Provider.throw.
  destruct first as [t1|e1].
  - destruct (build t1) as [b|e];
      eexists _, _, _; (split; [reflexivity|]); (split; [lia|]);
      (split; [intros H; discriminate H|]); intros _; split; reflexivity.
  - destruct second as [t2|e2].
    + destruct (build t2) as [b|e];
        eexists _, _, _; (split; [reflexivity|]); (split; [lia|]);
        (split; [intros H; discriminate H|]); intros _; split; reflexivity.
    + eexists _, _, _. split; [reflexivity|]. split; [lia|].
      split; [intros H; discriminate H|]. intros _. split; reflexivity.
Qed.

Lemma optimize_handler_always_answers_witness :
  exists left,
    OptimizeRequest.handler nat (fun _ => Ok 7) true
      (OptimizeRequest.BodyWith true true)
      [Provider.Failure "down"; Provider.Reply "{}"] 0
    = (Ok (Provider.Status200 7), (left, 2)).
Proof.
  destruct (optimize_handler_always_answers nat (fun _ => Ok 7) true
              (OptimizeRequest.BodyWith true true)
              (Provider.Failure "down") (Provider.Reply "{}") [])
    as (resp & left & calls & E & _ & _ & H).
  destruct (H eq_refl) as (-> & ->).
  exists left. exact E.
Defined.

(** ** Lines and rows of delimited text *)

Module CsvFacts.
Import Chars Parser ParserSpec ObjFacts.

Lemma split_char_cons (sep : ascii) (s cur : list ascii) :
  exists f fs, split_char sep s cur = f :: fs.
Proof.
  revert cur. induction s as [|c s IH]; intros cur; simpl.
  - eexists _, _. reflexivity.
  - destruct (Ascii.eqb c sep); [eexists _, _; reflexivity|apply IH].
Qed.

Lemma dropEmptyLast_cons (f : list ascii) (fs : list (list ascii)) :
  fs <> [] -> dropEmptyLast (f :: fs) = f :: dropEmptyLast fs.
Proof. destruct fs; [contradiction|reflexivity]. Qed.

Lemma csvLoop_plain (d : ascii) (line : list ascii) :
  Forall (fun c => c <> dquote) line ->
  forall prev cur res,
    csvLoop d line prev false cur res
    = (rev res ++
       map cleanField (dropEmptyLast (split_char d line cur)))%list.
Proof.
  induction 1 as [|c line Hc _ IH]; intros prev cur res.
  - cbn [csvLoop split_char dropEmptyLast].
    destruct cur as [|x cur].
    + simpl. rewrite app_nil_r. reflexivity.
    + destruct (rev (x :: cur)) as [|y l] eqn:E.
      * apply (f_equal (@List.length ascii)) in E.
        rewrite length_rev in E. discriminate E.
      * rewrite <- E. reflexivity.
  - cbn [csvLoop split_char].
    assert (Eq : Ascii.eqb c dquote = false)
      by (apply Ascii.eqb_neq; exact Hc).
    rewrite Eq. cbn [andb negb]. rewrite andb_true_r.
    destruct (Ascii.eqb c d).
    + rewrite IH.
      destruct (split_char_cons d line []) as (f & fs & E). rewrite E.
      rewrite (dropEmptyLast_cons (rev cur) (f :: fs)) by discriminate.
      cbn [rev map]. rewrite <- app_assoc. reflexivity.
    + apply IH.
Qed.

(** Characters that are read into the current field: no quote, and no
    delimiter outside quotes. *)
Lemma csvLoop_run (d : ascii) (inside : bool) (l : list ascii) :
  Forall (fun c => c <> dquote /\ (inside = true \/ c <> d)) l ->
  forall rest prev cur res,
    csvLoop d (l ++ rest)%list prev inside cur res
    = csvLoop d rest (lastRead l prev) inside (rev l ++ cur)%list res.
Proof.
  induction 1 as [|c l (Hq & Hd) _ IH]; intros rest prev cur res.
  - reflexivity.
  - cbn [app csvLoop].
    assert (Eq : Ascii.eqb c dquote = false)
      by (apply Ascii.eqb_neq; exact Hq).
    rewrite Eq. cbn [andb].
    assert (Ed : Ascii.eqb c d && negb inside = false).
    { destruct Hd as [-> | Hd]; [apply andb_false_r|].
      apply Ascii.eqb_neq in Hd. rewrite Hd. reflexivity. }
    rewrite Ed. rewrite IH.
    f_equal.
    + unfold lastRead. cbn [rev].
      destruct (rev l) as [|x t]; reflexivity.
    + cbn [rev]. rewrite <- app_assoc. reflexivity.
Qed.

Lemma lastRead_not_backslash (l : list ascii) (prev : option ascii) :
  last l " "%char <> "\"%char ->
  prev <> Some "\"%char ->
  match lastRead l prev with
  | None => true
  | Some p => negb (Ascii.eqb p "\")
  end = true.
Proof.
  intros Hl Hp. unfold lastRead.
  destruct l as [|x l] using rev_ind.
  - simpl. destruct prev as [p|]; [|reflexivity].
    destruct (Ascii.eqb_spec p "\"%char); [subst; contradiction|reflexivity].
  - rewrite rev_app_distr. simpl.
    rewrite last_last in Hl.
    destruct (Ascii.eqb_spec x "\"%char); [contradiction|reflexivity].
Qed.

Lemma obj_set_keys {V : Type} (h : string) (v : V) (r : list (string * V)) :
  (forall k, In k (map fst (obj_set h v r)) <-> k = h \/ In k (map fst r)) /\
  (NoDup (map fst r) -> NoDup (map fst (obj_set h v r))).
Proof.
  destruct (in_dec string_dec h (map fst r)) as [Hin|Hin].
  - rewrite (keys_set_in h v r Hin). split.
    + intros k. split; [tauto|]. intros [->|H]; assumption.
    + tauto.
  - rewrite (keys_set_new h v r Hin). split.
    + intros k. rewrite in_app_iff. simpl. intuition.
    + intros Hnd. apply NoDup_app; [exact Hnd|repeat constructor; simpl; tauto|].
      intros y Hy [<-|[]]. exact (Hin Hy).
Qed.

(** [fillRow] and [fillCells] are one loop, on texts and on strings. *)
Lemma fillRow_fillCells (hs : list string) :
  forall (vals : list (list ascii)) (row : Row),
    fillRow hs vals row = fillCells hs (map JS.str vals) row.
Proof.
  induction hs as [|h hs IH]; intros vals row; [reflexivity|].
  destruct vals as [|v vals]; simpl.
  - rewrite IH. reflexivity.
  - apply IH.
Qed.

Lemma fillCells_keys (hs : list string) :
  forall (cells : list string) (row : Row),
    (forall k, In k (map fst (fillCells hs cells row)) <->
               In k (map fst row) \/ In k hs) /\
    (NoDup (map fst row) -> NoDup (map fst (fillCells hs cells row))).
Proof.
  induction hs as [|h hs IH]; intros cells row.
  - simpl. split; [intros k; tauto|tauto].
  - destruct cells as [|v cells]; cbn [fillCells].
    + destruct (IH [] (obj_set h EmptyString row)) as (I1 & I2).
      destruct (obj_set_keys h EmptyString row) as (K1 & K2).
      split.
      * intros k. rewrite I1, K1. simpl. intuition.
      * intros Hnd. apply I2. apply K2. exact Hnd.
    + destruct (IH cells (obj_set h v row)) as (I1 & I2).
      destruct (obj_set_keys h v row) as (K1 & K2).
      split.
      * intros k. rewrite I1, K1. simpl. intuition.
      * intros Hnd. apply I2. apply K2. exact Hnd.
Qed.

Lemma cellsFor_nil (n : nat) :
  cellsFor (S n) [] = EmptyString :: cellsFor n [].
Proof. reflexivity. Qed.

Lemma cellsFor_cons (n : nat) (v : string) (cells : list string) :
  cellsFor (S n) (v :: cells) = v :: cellsFor n cells.
Proof.
  unfold cellsFor. cbn [app firstn]. f_equal.
  change (repeat EmptyString (S n)) with (EmptyString :: repeat EmptyString n).
  replace (EmptyString :: repeat EmptyString n)
    with (repeat EmptyString n ++ [EmptyString])%list
    by (symmetry; apply (repeat_cons n EmptyString)).
  rewrite app_assoc.
  rewrite firstn_app.
  replace (n - List.length (cells ++ repeat EmptyString n)) with 0
    by (rewrite length_app, repeat_length; lia).
  simpl. rewrite app_nil_r. reflexivity.
Qed.

(** With distinct headers the row is the list of the headers, each with
    its cell. *)
Lemma fillCells_distinct (hs : list string) :
  forall (cells : list string) (row : Row),
    NoDup (map fst row ++ hs) ->
    fillCells hs cells row
    = (row ++ combine hs (cellsFor (List.length hs) cells))%list.
Proof.
  induction hs as [|h hs IH]; intros cells row Hnd.
  - simpl. rewrite app_nil_r. reflexivity.
  - assert (Hh : ~ In h (map fst row)).
    { intros Hin. apply NoDup_remove_2 in Hnd. apply Hnd.
      apply in_or_app. left. exact Hin. }
    assert (Hset : forall v : string, obj_set h v row = (row ++ [(h, v)])%list).
    { intros v. clear - Hh. induction row as [|[k w] row IHr]; simpl.
      - reflexivity.
      - destruct (String.eqb_spec k h) as [->|Hk].
        + exfalso. apply Hh. left. reflexivity.
        + f_equal. apply IHr. intros H. apply Hh. right. exact H. }
    assert (Hnd' : forall v : string,
               NoDup (map fst (row ++ [(h, v)]) ++ hs)).
    { intros v. rewrite map_app. simpl. rewrite <- app_assoc. exact Hnd. }
    destruct cells as [|v cells]; cbn [fillCells List.length].
    + rewrite Hset, IH by apply Hnd'.
      rewrite cellsFor_nil. cbn [combine]. rewrite <- app_assoc. reflexivity.
    + rewrite Hset, IH by apply Hnd'.
      rewrite cellsFor_cons. cbn [combine]. rewrite <- app_assoc. reflexivity.
Qed.

Lemma cellsFor_nth (n : nat) :
  forall (cells : list string) j,
    j < n -> nth j (cellsFor n cells) EmptyString = nth j cells EmptyString.
Proof.
  induction n as [|n IH]; intros cells j Hj; [lia|].
  destruct cells as [|v cells].
  - rewrite cellsFor_nil. destruct j as [|j]; [reflexivity|].
    cbn [nth]. rewrite IH by lia. destruct j; reflexivity.
  - rewrite cellsFor_cons. destruct j as [|j]; [reflexivity|].
    cbn [nth]. apply IH. lia.
Qed.

Lemma cellsFor_length (n : nat) (cells : list string) :
  List.length (cellsFor n cells) = n.
Proof.
  unfold cellsFor. rewrite length_firstn, length_app, repeat_length. lia.
Qed.

Lemma get_combine_gen (hs : list string) :
  forall (vs : list string) j,
    NoDup hs -> j < List.length hs -> List.length vs = List.length hs ->
    obj_get (nth j hs EmptyString) (combine hs vs)
    = Some (nth j vs EmptyString).
Proof.
  induction hs as [|h hs IH]; intros vs j Hnd Hj Hl; [simpl in Hj; lia|].
  destruct vs as [|v vs]; [discriminate Hl|].
  inversion Hnd as [|? ? Hh Hnd']; subst.
  destruct j as [|j]; cbn [nth combine obj_get].
  - rewrite String.eqb_refl. reflexivity.
  - destruct (String.eqb_spec h (nth j hs EmptyString)) as [E|E].
    + exfalso. apply Hh. rewrite E. apply nth_In. simpl in Hj. lia.
    + apply IH; [exact Hnd'|simpl in Hj; lia|simpl in Hl; lia].
Qed.

Lemma get_combine (hs cells : list string) (j : nat) :
  NoDup hs -> j < List.length hs ->
  obj_get (nth j hs EmptyString)
          (combine hs (cellsFor (List.length hs) cells))
  = Some (nth j cells EmptyString).
Proof.
  intros Hnd Hj.
  rewrite get_combine_gen by (try assumption; apply cellsFor_length).
  rewrite cellsFor_nth by exact Hj. reflexivity.
Qed.

End CsvFacts.

(** X14: on a line without double quotes [parseCSVLine] gives the fields
    that splitting the line at the delimiter gives, each trimmed and
    without its enclosing quotes, as the header line is treated; except
    that an empty last field is dropped. *)
Theorem csv_line_without_quotes (line : list ascii) (delimiter : ascii) :
  Forall (fun c => c <> Chars.dquote) line ->
  Parser.parseCSVLine line delimiter
  = map Parser.cleanField
        (ParserSpec.dropEmptyLast (Parser.split_char delimiter line [])).
Proof.
  intros H. unfold Parser.parseCSVLine.
  rewrite (CsvFacts.csvLoop_plain delimiter line H). reflexivity.
Qed.

Lemma csv_line_without_quotes_witness :
  Parser.parseCSVLine (JS.chars "ann, dev ,") ","
  = [JS.chars "ann"; JS.chars "dev"].
Proof.
  rewrite csv_line_without_quotes.
  - vm_compute. reflexivity.
  - repeat constructor; intros H; discriminate H.
Defined.

(** X15: a field in double quotes keeps the delimiters it holds.  A line
    made of a text [a], a quoted text [q] and a text [b], where only [q]
    may hold the delimiter, none holds a double quote and neither [a] nor
    [q] ends with a backslash, is one field: the three texts together,
    without the two quotes, trimmed. *)
Theorem csv_quoted_field_keeps_delimiter
  (a q b : list ascii) (delimiter : ascii) :
  Forall (fun c => c <> Chars.dquote /\ c <> delimiter) a ->
  Forall (fun c => c <> Chars.dquote) q ->
  Forall (fun c => c <> Chars.dquote /\ c <> delimiter) b ->
  last a " "%char <> "\"%char ->
  last q " "%char <> "\"%char ->
  Parser.parseCSVLine (a ++ Chars.dquote :: q ++ Chars.dquote :: b)%list
                      delimiter
  = match (a ++ q ++ b)%list with
    | [] => []
    | _ :: _ => [Parser.cleanField (a ++ q ++ b)%list]
    end.
Proof.
  intros Ha Hq Hb Hla Hlq. unfold Parser.parseCSVLine.
  rewrite (CsvFacts.csvLoop_run delimiter false a).
  2:{ apply Forall_impl with (2 := Ha). intros c (H1 & H2). auto. }
  cbn [Parser.csvLoop]. rewrite Ascii.eqb_refl. cbn [andb].
  rewrite (CsvFacts.lastRead_not_backslash a None Hla) by discriminate.
  cbn [negb].
  rewrite (CsvFacts.csvLoop_run delimiter true q).
  2:{ apply Forall_impl with (2 := Hq). intros c H. auto. }
  cbn [Parser.csvLoop]. rewrite Ascii.eqb_refl. cbn [andb].
  rewrite (CsvFacts.lastRead_not_backslash q (Some Chars.dquote) Hlq)
    by (intros H; discriminate H).
  cbn [negb].
  rewrite <- (app_nil_r b) at 1.
  rewrite (CsvFacts.csvLoop_run delimiter false b).
  2:{ apply Forall_impl with (2 := Hb). intros c (H1 & H2). auto. }
  cbn [Parser.csvLoop].
  rewrite !app_nil_r.
  replace (rev b ++ rev q ++ rev a)%list with (rev (a ++ q ++ b)%list)
    by (rewrite !rev_app_distr, <- app_assoc; reflexivity).
  destruct (a ++ q ++ b)%list as [|x l] eqn:E; [reflexivity|].
  destruct (rev (x :: l)) as [|y t] eqn:Er.
  - apply (f_equal (@List.length ascii)) in Er.
    rewrite length_rev in Er. discriminate Er.
  - rewrite <- Er, rev_involutive. reflexivity.
Qed.

Lemma csv_quoted_field_keeps_delimiter_witness :
  Parser.parseCSVLine
    (Chars.dquote :: JS.chars "Smith, John" ++ [Chars.dquote])%list ","
  = [JS.chars "Smith, John"].
Proof.
  assert (Hq : Forall (fun c => c <> Chars.dquote) (JS.chars "Smith, John")).
  { repeat constructor; intros H; discriminate H. }
  pose proof (csv_quoted_field_keeps_delimiter [] (JS.chars "Smith, John") []
                "," (Forall_nil _) Hq (Forall_nil _)
                ltac:(intros H; discriminate H)
                ltac:(intros H; discriminate H)) as H.
  vm_compute in H. vm_compute. exact H.
Defined.

(** X16: the rows that the parser of delimited text builds, for headers
    that an assignment can create, that is none of which is [__proto__].
    Every row has the distinct header names as its property names, none
    twice, whatever the number of cells of its line; when the headers are
    distinct, the property of the header at position [j] holds the cell at
    position [j] of the line, or the empty string when the line has no
    such cell, and cells beyond the last header are dropped. *)
Theorem parsed_rows_follow_headers
  (hs : list string) (cells : list (list ascii)) :
  Forall ObjectSpec.Assignable hs ->
  let row := Parser.fillRow hs cells [] in
  NoDup (map fst row) /\
  (forall k, In k (map fst row) <-> In k hs) /\
  (NoDup hs ->
   forall j, j < List.length hs ->
     obj_get (nth j hs EmptyString) row
     = Some (nth j (map JS.str cells) EmptyString)).
Proof.
  intros _ row. unfold row.
  rewrite CsvFacts.fillRow_fillCells.
  destruct (CsvFacts.fillCells_keys hs (map JS.str cells) []) as (K1 & K2).
  split; [apply K2; constructor|].
  split; [intros k; rewrite K1; simpl; tauto|].
  intros Hnd j Hj.
  rewrite (CsvFacts.fillCells_distinct hs (map JS.str cells) [] Hnd).
  cbn [app]. apply CsvFacts.get_combine; [exact Hnd|exact Hj].
Qed.

Lemma parsed_rows_follow_headers_witness :
  obj_get "team"
    (Parser.fillRow ["name"; "role"; "team"]
       [JS.chars "ann"; JS.chars "dev"] [])
  = Some EmptyString.
Proof.
  destruct (parsed_rows_follow_headers ["name"; "role"; "team"]
              [JS.chars "ann"; JS.chars "dev"]
              ltac:(repeat constructor; intros E; discriminate E))
    as (_ & _ & H).
  apply (H ltac:(repeat constructor; simpl; intuition discriminate) 2).
  simpl. lia.
Defined.

(** X17: [parseCsvContent] on a string always gives a csv record with
    [parsed = true], at least one header, and one row for each line after
    the first that is not blank; when no header is [__proto__], which an
    assignment does not create, every row has exactly the distinct header
    names as its property names. *)
Theorem csv_string_record (s : string) :
  let text := JS.chars s in
  let lines :=
    if JS.includes text [Parser.cr; Parser.nl]
    then Parser.split_crlf text [] else Parser.split_char Parser.nl text [] in
  exists hs rows,
    Parser.parseCsvContent (FString s)
    = mkDoc (CRows rows) TCsv (Some hs) true None None None /\
    hs <> [] /\
    List.length rows
    = List.length (filter (fun line => negb (Parser.is_blank line))
                          (tl lines)) /\
    (Forall ObjectSpec.Assignable hs ->
     Forall (fun row => NoDup (map fst row) /\
                        forall k, In k (map fst row) <-> In k hs) rows).
Proof.
  intros text lines. cbn [Parser.parseCsvContent].
  unfold Parser.parseCsvString. fold text. fold lines.
  assert (Hl : exists first rest, lines = first :: rest).
  { unfold lines. destruct (JS.includes text [Parser.cr; Parser.nl]).
    - destruct (Parser.split_crlf text []) as [|f r] eqn:E.
      + exfalso. revert E. generalize (@nil ascii) as cur.
        induction text as [|c t IH]; intros cur; simpl; [discriminate|].
        destruct t as [|d t']; [apply IH|].
        destruct (Nat.eqb (Chars.code c) 13 && Nat.eqb (Chars.code d) 10);
          [discriminate|apply IH].
      + eexists _, _. reflexivity.
    - apply CsvFacts.split_char_cons. }
  destruct Hl as (first & rest & El). rewrite El. cbn [tl].
  eexists _, _. split; [reflexivity|]. split; [|split].
  - match goal with
    | |- map _ (Parser.split_char ?d first []) <> [] =>
        destruct (CsvFacts.split_char_cons d first []) as (f & fs & E);
          rewrite E; discriminate
    end.
  - rewrite length_map. reflexivity.
  - intros _. apply Forall_forall. intros row Hrow.
    apply in_map_iff in Hrow. destruct Hrow as (line & <- & _).
    rewrite CsvFacts.fillRow_fillCells.
    match goal with
    | |- context [Parser.fillCells ?hs ?cells []] =>
        destruct (CsvFacts.fillCells_keys hs cells []) as (K1 & K2)
    end.
    split; [apply K2; constructor|].
    intros k. rewrite K1. simpl. tauto.
Qed.

Lemma csv_string_record_witness :
  exists hs rows,
    Parser.parseCsvContent
      (FString ("name,team" ++ lf ++ "ann,dev" ++ lf ++ lf ++ "bob"))
    = mkDoc (CRows rows) TCsv (Some hs) true None None None /\
    List.length rows = 2 /\
    Forall (fun row => forall k, In k (map fst row) <-> In k hs) rows.
Proof.
  destruct (csv_string_record
              ("name,team" ++ lf ++ "ann,dev" ++ lf ++ lf ++ "bob"))
    as (hs & rows & E & _ & Hlen & Hrows).
  exists hs, rows. split; [exact E|]. split; [exact Hlen|].
  assert (Hhs : hs = ["name"; "team"]).
  { vm_compute in E. injection E as _ E. symmetry. exact E. }
  assert (Hkeys : Forall ObjectSpec.Assignable hs).
  { rewrite Hhs. repeat constructor; intros H; discriminate H. }
  eapply Forall_impl; [|exact (Hrows Hkeys)].
  intros row H. exact (proj2 H).
Defined.

(** ** Step times read off the boxes of a diagram *)

Module BoxFacts.
Import Regex JS Diagram.

(** The boxes that the second pass keeps. *)
Lemma box_steps_numbered (boxes : list rresult) :
  forall n,
    map step (boxStepTimes boxes n)
    = map (fun i => N_to_string (n + N.of_nat i))
          (seq 0 (List.length (boxStepTimes boxes n))) /\
    List.length (boxStepTimes boxes n)
    = List.length
        (filter (fun b => negb (is_terminal_box (trim (group_or_empty 1 b))))
                boxes).
Proof.
  induction boxes as [|b boxes IH]; intros n; cbn [boxStepTimes filter].
  - split; reflexivity.
  - destruct (is_terminal_box (trim (group_or_empty 1 b))); cbn [negb].
    + apply IH.
    + destruct (IH (n + 1)%N) as (I1 & I2).
      cbn [map List.length step seq]. split.
      * rewrite N.add_0_r. f_equal.
        rewrite I1, <- seq_shift, map_map.
        apply map_ext. intros i. f_equal. lia.
      * rewrite I2. reflexivity.
Qed.

End BoxFacts.

(** X18: when no box of the diagram carries a step label with a duration,
    the step times come from the boxes: one entry for each box whose text
    holds none of the words start, end and begin (in any case, also inside
    a longer word), numbered 1, 2, 3, ... in the order of the boxes,
    without gaps. *)
Theorem box_step_times_are_numbered (diagramCode : list ascii) :
  Regex.exec_all true Diagram.stepPattern diagramCode = [] ->
  let st := Diagram.extractStepTimesFromDiagram diagramCode in
  map step st
  = map (fun i => JS.N_to_string (N.of_nat i)) (seq 1 (List.length st)) /\
  List.length st
  = List.length
      (filter (fun b => negb (Diagram.is_terminal_box
                                (JS.trim (Diagram.group_or_empty 1 b))))
              (Regex.exec_all false Diagram.boxPattern diagramCode)).
Proof.
  intros H st. unfold st, Diagram.extractStepTimesFromDiagram.
  rewrite H. cbn [map].
  destruct (BoxFacts.box_steps_numbered
              (Regex.exec_all false Diagram.boxPattern diagramCode) 1)
    as (H1 & H2).
  split; [|exact H2].
  rewrite H1, <- seq_shift, map_map.
  apply map_ext. intros i. f_equal. lia.
Qed.

Lemma box_step_times_are_numbered_witness :
  map step
      (Diagram.extractStepTimesFromDiagram
         (JS.chars
            "A[Start] --> B[Check form (5 min)] --> C[Send mail] --> D[Approve]"))
  = ["1"; "2"].
Proof.
  rewrite (proj1 (box_step_times_are_numbered
                    (JS.chars
                       "A[Start] --> B[Check form (5 min)] --> C[Send mail] --> D[Approve]")
                    eq_refl)).
  vm_compute. reflexivity.
Defined.

(** ** Answers without a code fence *)

Module FenceFacts.
Import Chars Regex JS RegexSem RegexFacts Recovery.

(** What a search returns comes from a match inside the text searched. *)
Lemma rsearch_within (ci : bool) (r : regex) (s : list ascii) :
  forall p m,
    rsearch ci r p s = Some m ->
    exists pre s' st',
      s = (pre ++ s')%list /\
      Matches ci r (MState (p + List.length pre) s' []) st'.
Proof.
  induction s as [|c s IH]; intros p m H; cbn [rsearch] in H.
  - destruct (rmatch ci r (MState p [] []) Some) as [st|] eqn:E;
      [|discriminate].
    apply rmatch_sound in E. destruct E as (st' & Hm & _).
    exists [], [], st'. split; [reflexivity|].
    simpl. rewrite Nat.add_0_r. exact Hm.
  - destruct (rmatch ci r (MState p (c :: s) []) Some) as [st|] eqn:E.
    + apply rmatch_sound in E. destruct E as (st' & Hm & _).
      exists [], (c :: s), st'. split; [reflexivity|].
      simpl. rewrite Nat.add_0_r. exact Hm.
    + apply IH in H. destruct H as (pre & s' & st' & -> & Hm).
      exists (c :: pre), s', st'. split; [reflexivity|].
      simpl. rewrite <- Nat.add_succ_comm. exact Hm.
Qed.

Lemma starts_with_app (u t : list ascii) : starts_with u (u ++ t)%list = true.
Proof.
  induction u as [|x u IH]; simpl; [reflexivity|].
  rewrite Ascii.eqb_refl. exact IH.
Qed.

Lemma includes_app (pre u t : list ascii) :
  includes (pre ++ u ++ t)%list u = true.
Proof.
  induction pre as [|x pre IH].
  - simpl. destruct (u ++ t)%list eqn:E; simpl; rewrite <- E;
      rewrite starts_with_app; reflexivity.
  - cbn [app includes]. rewrite IH. apply orb_true_r.
Qed.

Lemma SameText_exact (w u : list ascii) : SameText false w u -> u = w.
Proof.
  induction 1 as [|a x w u Hax _ IH]; [reflexivity|].
  simpl in Hax. apply Ascii.eqb_eq in Hax. subst. reflexivity.
Qed.

(** A text in which the pattern of the fenced block is found holds three
    backquotes. *)
Lemma fence_needs_backquotes (s : list ascii) (m : rresult) :
  exec false fenceRe s = Some m -> includes s (chars "```") = true.
Proof.
  intros H. apply rsearch_within in H.
  destruct H as (pre & s' & st' & -> & Hm).
  unfold fenceRe in Hm. cbn [rseq] in Hm.
  inversion Hm as [| | | |r1 r2 s0 s1 s2 H1 H2| | | | | | | |]; subst.
  apply (Matches_lit false "```") in H1.
  destruct H1 as (u & (Hu & _) & Hsame).
  apply SameText_exact in Hsame. subst u.
  cbn [rest] in Hu. rewrite Hu. apply includes_app.
Qed.

End FenceFacts.

(** X19: an answer that holds no run of three backquotes and whose text,
    trimmed, is valid JSON is returned as [JSON.parse] gives it: the
    attempt on a fenced block finds nothing, and the attempt on the whole
    text succeeds. *)
Theorem bare_json_answer_is_parsed
  (JSON_parse : list ascii -> option json) (s : string) (v : json) :
  JS.includes (JS.chars s) (JS.chars "```") = false ->
  JSON_parse (JS.trim (JS.chars s)) = Some v ->
  Recovery.parseOptimizationResult JSON_parse (Some s) = Ok v.
Proof.
  intros Hno Hparse.
  unfold Recovery.parseOptimizationResult, Recovery.as_string.
  cbn [bind try_catch].
  assert (H1 : Recovery.tier1 JSON_parse (JS.chars s) = None).
  { unfold Recovery.tier1.
    destruct (Regex.exec false Recovery.fenceRe (JS.chars s)) as [m|] eqn:E;
      [|reflexivity].
    apply FenceFacts.fence_needs_backquotes in E. congruence. }
  rewrite H1. unfold Recovery.tier2. rewrite Hparse. reflexivity.
Qed.

Lemma bare_json_answer_is_parsed_witness :
  Recovery.parseOptimizationResult Json.parse
    (Some (" " ++ quoted ["{"; "totalSteps"; ": 3}"] ++ lf))
  = Ok (JObj [("totalSteps", JNum "3")]).
Proof.
  apply bare_json_answer_is_parsed; vm_compute; reflexivity.
Defined.

(** ** Normalised text *)

Module ReplaceFacts.
Import Chars Regex JS ReplaceSpec.

Lemma chars_str (l : list ascii) : chars (str l) = l.
Proof. apply list_ascii_of_string_of_list_ascii. Qed.

Lemma rsearch_from (ci : bool) (r : regex) (s : list ascii) :
  forall p m, rsearch ci r p s = Some m -> p <= r_index m.
Proof.
  induction s as [|c s IH]; intros p m H; cbn [rsearch] in H.
  - destruct (rmatch ci r (MState p [] []) Some); [|discriminate].
    injection H as <-. simpl. lia.
  - destruct (rmatch ci r (MState p (c :: s) []) Some).
    + injection H as <-. simpl. lia.
    + apply IH in H. lia.
Qed.

Section Scan.

Variable ci : bool.
Variable r : regex.
Variable after : list ascii -> option (list ascii).
Variable t : string.

(** [after] tells what the matcher does at the head of a text. *)
Hypothesis at_head :
  forall p s,
    match after s with
    | Some s' =>
        exists q, p < q /\
                  rmatch ci r (MState p s []) Some = Some (MState q s' [])
    | None => rmatch ci r (MState p s []) Some = None
    end.

Hypothesis after_shorter :
  forall s s', after s = Some s' -> List.length s' < List.length s.

Lemma replace_skip (fuel p : nat) (x : ascii) (tl : list ascii) :
  after (x :: tl) = None ->
  replace_all_from ci r [TLit t] fuel p (x :: tl)
  = x :: replace_all_from ci r [TLit t] fuel (S p) tl.
Proof.
  intros Hn. destruct fuel as [|fuel]; [reflexivity|].
  cbn [replace_all_from].
  assert (E : rsearch ci r p (x :: tl) = rsearch ci r (S p) tl).
  { cbn [rsearch]. pose proof (at_head p (x :: tl)) as H.
    rewrite Hn in H. rewrite H. reflexivity. }
  rewrite E.
  destruct (rsearch ci r (S p) tl) as [m|] eqn:Em; [|reflexivity].
  apply rsearch_from in Em.
  replace (r_index m - p) with (S (r_index m - S p)) by lia.
  cbn [firstn].
  destruct (Nat.eqb (r_end m) (r_index m)); reflexivity.
Qed.

Lemma replace_head (fuel p : nat) (s s' : list ascii) :
  after s = Some s' ->
  exists q,
    replace_all_from ci r [TLit t] (S fuel) p s
    = (list_ascii_of_string t ++ replace_all_from ci r [TLit t] fuel q s')%list.
Proof.
  intros Hs. pose proof (at_head p s) as H. rewrite Hs in H.
  destruct H as (q & Hq & H). exists q.
  cbn [replace_all_from].
  assert (E : rsearch ci r p s = Some (mk_result p s (MState q s' []))).
  { destruct s; cbn [rsearch]; rewrite H; reflexivity. }
  rewrite E. cbn [mk_result r_index r_end r_after pos rest].
  rewrite Nat.sub_diag. cbn [firstn app].
  destruct (Nat.eqb_spec q p) as [->|_]; [lia|].
  unfold expand. cbn [flat_map]. rewrite app_nil_r. reflexivity.
Qed.

Lemma replace_scan (n : nat) :
  forall fuel p s,
    List.length s <= n -> List.length s < fuel ->
    replace_all_from ci r [TLit t] fuel p s
    = scan after (list_ascii_of_string t) n s.
Proof.
  induction n as [|n IH]; intros fuel p s Hn Hf.
  - destruct s; [|simpl in Hn; lia].
    destruct fuel as [|fuel]; [reflexivity|].
    cbn [replace_all_from scan].
    pose proof (at_head p []) as H.
    destruct (after []) as [s'|] eqn:E.
    + apply after_shorter in E. simpl in E. lia.
    + cbn [rsearch]. rewrite H. reflexivity.
  - cbn [scan]. destruct (after s) as [s'|] eqn:E.
    + destruct fuel as [|fuel]; [lia|].
      destruct (replace_head fuel p s s' E) as (q & ->).
      pose proof (after_shorter s s' E) as Hlt.
      rewrite (IH fuel q s') by lia. reflexivity.
    + destruct s as [|x tl].
      * destruct fuel as [|fuel]; [reflexivity|].
        cbn [replace_all_from rsearch].
        pose proof (at_head p []) as H. rewrite E in H. rewrite H.
        reflexivity.
      * rewrite replace_skip by exact E.
        rewrite (IH fuel (S p) tl) by (simpl in *; lia). reflexivity.
Qed.

Lemma replace_all_scan (s : list ascii) :
  replace_all ci r [TLit t] s
  = scan after (list_ascii_of_string t) (List.length s) s.
Proof. unfold replace_all. apply replace_scan; lia. Qed.

End Scan.

Lemma at_head_crlf (p : nat) (s : list ascii) :
  match after_crlf s with
  | Some s' =>
      exists q, p < q /\
                rmatch false Parser.crlfRe (MState p s []) Some
                = Some (MState q s' [])
  | None => rmatch false Parser.crlfRe (MState p s []) Some = None
  end.
Proof.
  unfold after_crlf, Parser.crlfRe.
  destruct s as [|c [|d tl]]; cbn [rmatch rest eqb_ci step1 pos caps].
  - reflexivity.
  - destruct (Ascii.eqb Parser.cr c); reflexivity.
  - destruct (Ascii.eqb Parser.cr c); cbn [andb]; [|reflexivity].
    destruct (Ascii.eqb Parser.nl d); [|reflexivity].
    exists (S (S p)). split; [lia|reflexivity].
Qed.

Lemma at_head_cr (p : nat) (s : list ascii) :
  match after_cr s with
  | Some s' =>
      exists q, p < q /\
                rmatch false Parser.crRe (MState p s []) Some
                = Some (MState q s' [])
  | None => rmatch false Parser.crRe (MState p s []) Some = None
  end.
Proof.
  unfold after_cr, Parser.crRe.
  destruct s as [|c tl]; cbn [rmatch rest eqb_ci step1 pos caps].
  - reflexivity.
  - destruct (Ascii.eqb Parser.cr c); [|reflexivity].
    exists (S p). split; [lia|reflexivity].
Qed.

Lemma rchar_step (c x : ascii) (p : nat) (tl : list ascii)
  (cs : list (nat * list ascii)) (k : cont) :
  rmatch false (RChar c) (MState p (x :: tl) cs) k
  = if Ascii.eqb c x then k (MState (S p) tl cs) else None.
Proof. reflexivity. Qed.

Lemma star_loop_greedy (mr : mstate -> cont -> option mstate) (k : cont)
  (n : nat) (st0 : mstate) :
  star_loop mr true k (S n) st0
  = orelse
      (mr st0 (fun st1 =>
                 if Nat.ltb (List.length (rest st1)) (List.length (rest st0))
                 then star_loop mr true k n st1 else None))
      (k st0).
Proof. reflexivity. Qed.

Lemma star_nl (s : list ascii) :
  forall p n c,
    List.length s < n ->
    exists q, p <= q /\
      star_loop (rmatch false (RChar Parser.nl)) true Some n (MState p s c)
      = Some (MState q (drop_nl s) c).
Proof.
  induction s as [|x tl IH]; intros p n c Hn;
    (destruct n as [|n]; [simpl in Hn; lia|]).
  - exists p. split; [lia|reflexivity].
  - rewrite star_loop_greedy, rchar_step. cbn [drop_nl].
    destruct (Ascii.eqb Parser.nl x).
    + cbn [rest List.length].
      assert (L : Nat.ltb (List.length tl) (S (List.length tl)) = true)
        by (apply Nat.ltb_lt; lia).
      rewrite L.
      destruct (IH (S p) n c ltac:(simpl in Hn; lia)) as (q & Hq & ->).
      exists q. split; [lia|reflexivity].
    + exists p. split; [lia|reflexivity].
Qed.

Lemma at_head_blank (p : nat) (s : list ascii) :
  match after_blank s with
  | Some s' =>
      exists q, p < q /\
                rmatch false Parser.blankLinesRe (MState p s []) Some
                = Some (MState q s' [])
  | None => rmatch false Parser.blankLinesRe (MState p s []) Some = None
  end.
Proof.
  unfold after_blank, Parser.blankLinesRe.
  destruct s as [|a [|b [|c tl]]];
    cbn [rseq rmatch rest eqb_ci step1 pos caps].
  - reflexivity.
  - destruct (Ascii.eqb Parser.nl a); reflexivity.
  - destruct (Ascii.eqb Parser.nl a); [|reflexivity].
    destruct (Ascii.eqb Parser.nl b); reflexivity.
  - destruct (Ascii.eqb Parser.nl a); cbn [andb]; [|reflexivity].
    destruct (Ascii.eqb Parser.nl b); cbn [andb]; [|reflexivity].
    destruct (Ascii.eqb Parser.nl c); [|reflexivity].
    destruct (star_nl tl (S (S (S p))) (S (List.length tl)) []
                ltac:(lia)) as (q & Hq & E).
    exists q. split; [lia|exact E].
Qed.

Lemma drop_nl_length (s : list ascii) :
  List.length (drop_nl s) <= List.length s.
Proof.
  induction s as [|x tl IH]; cbn [drop_nl List.length]; [lia|].
  destruct (Ascii.eqb Parser.nl x); cbn [List.length]; lia.
Qed.

Lemma after_crlf_shorter (s s' : list ascii) :
  after_crlf s = Some s' -> List.length s' < List.length s.
Proof.
  unfold after_crlf. destruct s as [|c [|d tl]]; try discriminate.
  destruct (_ && _); [|discriminate]. intros H. injection H as <-.
  simpl. lia.
Qed.

Lemma after_cr_shorter (s s' : list ascii) :
  after_cr s = Some s' -> List.length s' < List.length s.
Proof.
  unfold after_cr. destruct s as [|c tl]; try discriminate.
  destruct (Ascii.eqb _ _); [|discriminate]. intros H. injection H as <-.
  simpl. lia.
Qed.

Lemma after_blank_shorter (s s' : list ascii) :
  after_blank s = Some s' -> List.length s' < List.length s.
Proof.
  unfold after_blank. destruct s as [|a [|b [|c tl]]]; try discriminate.
  destruct (_ && _); [|discriminate]. intros H. injection H as <-.
  pose proof (drop_nl_length tl). simpl. lia.
Qed.

Lemma replace_crlf (s : list ascii) :
  replace_all false Parser.crlfRe [TLit (String Parser.nl EmptyString)] s
  = scan after_crlf (lfs 1) (List.length s) s.
Proof.
  apply (replace_all_scan false Parser.crlfRe after_crlf
           (String Parser.nl EmptyString) at_head_crlf after_crlf_shorter).
Qed.

Lemma replace_cr (s : list ascii) :
  replace_all false Parser.crRe [TLit (String Parser.nl EmptyString)] s
  = scan after_cr (lfs 1) (List.length s) s.
Proof.
  apply (replace_all_scan false Parser.crRe after_cr
           (String Parser.nl EmptyString) at_head_cr after_cr_shorter).
Qed.

Lemma replace_blank (s : list ascii) :
  replace_all false Parser.blankLinesRe
    [TLit (String Parser.nl (String Parser.nl EmptyString))] s
  = scan after_blank (lfs 2) (List.length s) s.
Proof.
  apply (replace_all_scan false Parser.blankLinesRe after_blank
           (String Parser.nl (String Parser.nl EmptyString))
           at_head_blank after_blank_shorter).
Qed.

(** No carriage return is left by the second replacement. *)
Lemma scan_cr_none (n : nat) :
  forall s, List.length s <= n -> ~ In Parser.cr (scan after_cr (lfs 1) n s).
Proof.
  induction n as [|n IH]; intros s Hn.
  - destruct s; [intros []|simpl in Hn; lia].
  - cbn [scan]. unfold after_cr at 1.
    destruct s as [|c tl]; [intros []|].
    destruct (Ascii.eqb_spec Parser.cr c) as [<-|Hc].
    + cbn [lfs repeat app]. intros [H|H]; [discriminate H|].
      revert H. apply IH. simpl in Hn. lia.
    + intros [H|H]; [congruence|].
      revert H. apply IH. simpl in Hn. lia.
Qed.

Lemma drop_nl_In (x : ascii) (s : list ascii) :
  In x (drop_nl s) -> In x s.
Proof.
  induction s as [|c tl IH]; cbn [drop_nl In]; [tauto|].
  destruct (Ascii.eqb Parser.nl c); cbn [In]; tauto.
Qed.

(** The third replacement brings no character that was not there, but
    line feeds. *)
Lemma scan_blank_In (x : ascii) (n : nat) :
  forall s, In x (scan after_blank (lfs 2) n s) -> x = Parser.nl \/ In x s.
Proof.
  induction n as [|n IH]; intros s H; [right; exact H|].
  cbn [scan] in H. destruct (after_blank s) as [s'|] eqn:E.
  - cbn [lfs repeat app] in H.
    destruct H as [H|[H|H]]; [left; congruence|left; congruence|].
    apply IH in H. destruct H as [H|H]; [left; exact H|]. right.
    unfold after_blank in E. destruct s as [|a [|b [|c tl]]];
      try discriminate.
    destruct (_ && _); [|discriminate]. injection E as <-.
    apply drop_nl_In in H. simpl. tauto.
  - destruct s as [|c tl]; [destruct H|].
    destruct H as [H|H]; [right; left; exact H|].
    apply IH in H. simpl. tauto.
Qed.

Lemma drop_nl_head (s : list ascii) :
  match drop_nl s with
  | [] => True
  | x :: _ => Ascii.eqb Parser.nl x = false
  end.
Proof.
  induction s as [|c tl IH]; cbn [drop_nl]; [exact I|].
  destruct (Ascii.eqb Parser.nl c) eqn:E; [exact IH|exact E].
Qed.

Lemma scan_blank_plain (n : nat) (x : ascii) (tl : list ascii) :
  Ascii.eqb Parser.nl x = false ->
  scan after_blank (lfs 2) (S n) (x :: tl)
  = x :: scan after_blank (lfs 2) n tl.
Proof.
  intros Hx. cbn [scan]. unfold after_blank at 1.
  destruct tl as [|b [|c tl']]; try reflexivity.
  rewrite Hx. reflexivity.
Qed.

Lemma starts3 (a b c : ascii) (l : list ascii) :
  starts_with three (a :: b :: c :: l)
  = Ascii.eqb Parser.nl a && Ascii.eqb Parser.nl b && Ascii.eqb Parser.nl c.
Proof.
  unfold three, lfs. cbn [repeat starts_with]. rewrite andb_true_r.
  rewrite andb_assoc. reflexivity.
Qed.

Lemma inc_cons (x : ascii) (l : list ascii) :
  includes (x :: l) three = starts_with three (x :: l) || includes l three.
Proof. reflexivity. Qed.

Lemma st3_a (a : ascii) (l : list ascii) :
  Ascii.eqb Parser.nl a = false -> starts_with three (a :: l) = false.
Proof.
  intros H. unfold three, lfs. cbn [repeat starts_with]. rewrite H.
  reflexivity.
Qed.

Lemma st3_ab (a b : ascii) (l : list ascii) :
  Ascii.eqb Parser.nl b = false -> starts_with three (a :: b :: l) = false.
Proof.
  intros H. unfold three, lfs. cbn [repeat starts_with]. rewrite H.
  apply andb_false_r.
Qed.

Lemma st3_abc (a b c : ascii) (l : list ascii) :
  Ascii.eqb Parser.nl c = false ->
  starts_with three (a :: b :: c :: l) = false.
Proof. intros H. rewrite starts3, H. apply andb_false_r. Qed.

Lemma st3_1 (a : ascii) : starts_with three [a] = false.
Proof. unfold three, lfs. cbn [repeat starts_with]. apply andb_false_r. Qed.

Lemma st3_2 (a b : ascii) : starts_with three [a; b] = false.
Proof.
  unfold three, lfs. cbn [repeat starts_with]. rewrite !andb_false_r.
  reflexivity.
Qed.

Lemma scan_blank_nil (n : nat) : scan after_blank (lfs 2) n [] = [].
Proof. destruct n; reflexivity. Qed.

Lemma scan_blank_two (n : nat) (l : list ascii) :
  (lfs 2 ++ l)%list = Parser.nl :: Parser.nl :: l.
Proof. reflexivity. Qed.

(** No run of three line feeds is left by the third replacement. *)
Lemma scan_blank_none (n : nat) :
  forall s, List.length s <= n ->
            includes (scan after_blank (lfs 2) n s) three = false.
Proof.
  induction n as [n IH] using lt_wf_ind. intros s Hn.
  destruct n as [|n].
  { destruct s; [reflexivity|simpl in Hn; lia]. }
  cbn [scan]. destruct (after_blank s) as [s'|] eqn:E.
  - pose proof (after_blank_shorter s s' E) as Hlt.
    assert (Hhead : match s' with
                    | [] => True
                    | x :: _ => Ascii.eqb Parser.nl x = false
                    end).
    { unfold after_blank in E. destruct s as [|a [|b [|c tl]]];
        try discriminate.
      destruct (_ && _); [|discriminate]. injection E as <-.
      apply drop_nl_head. }
    rewrite (scan_blank_two n).
    destruct s' as [|x tl'].
    + rewrite scan_blank_nil. reflexivity.
    + destruct n as [|n]; [simpl in Hlt; lia|].
      rewrite scan_blank_plain by exact Hhead.
      pose proof (IH n ltac:(lia) tl' ltac:(simpl in Hlt; lia)) as I.
      rewrite inc_cons, (st3_abc _ _ _ _ Hhead).
      rewrite inc_cons, (st3_ab _ _ _ Hhead).
      rewrite inc_cons, (st3_a _ _ Hhead), I. reflexivity.
  - destruct s as [|a tl]; [reflexivity|].
    assert (I := IH n ltac:(lia) tl ltac:(simpl in Hn; lia)).
    rewrite inc_cons, I, orb_false_r.
    destruct (Ascii.eqb Parser.nl a) eqn:Ea; [|apply st3_a; exact Ea].
    destruct tl as [|b tl].
    { rewrite scan_blank_nil. apply st3_1. }
    destruct n as [|n]; [simpl in Hn; lia|].
    destruct (Ascii.eqb Parser.nl b) eqn:Eb.
    2:{ rewrite scan_blank_plain by exact Eb. apply st3_ab. exact Eb. }
    destruct tl as [|c tl].
    { cbn [scan after_blank]. rewrite scan_blank_nil. apply st3_2. }
    destruct (Ascii.eqb Parser.nl c) eqn:Ec.
    { unfold after_blank in E. rewrite Ea, Eb, Ec in E. discriminate E. }
    assert (Eb' : after_blank (b :: c :: tl) = None).
    { unfold after_blank. destruct tl as [|d tl]; [reflexivity|].
      rewrite Eb, Ec. reflexivity. }
    cbn [scan]. rewrite Eb'.
    destruct n as [|n]; [simpl in Hn; lia|].
    rewrite scan_blank_plain by exact Ec.
    apply st3_abc. exact Ec.
Qed.

(** A text without a match is left as it is. *)
Lemma scan_same (after : list ascii -> option (list ascii))
  (t : list ascii) (n : nat) :
  forall s,
    (forall pre s', s = (pre ++ s')%list -> after s' = None) ->
    scan after t n s = s.
Proof.
  induction n as [|n IH]; intros s H; [reflexivity|].
  cbn [scan]. rewrite (H [] s eq_refl).
  destruct s as [|x tl]; [reflexivity|].
  f_equal. apply IH. intros pre s' ->. apply (H (x :: pre) s'). reflexivity.
Qed.

Lemma no_cr_after (s : list ascii) :
  ~ In Parser.cr s ->
  forall pre s', s = (pre ++ s')%list ->
                 after_cr s' = None /\ after_crlf s' = None.
Proof.
  intros Hno pre s' ->.
  assert (H : ~ In Parser.cr s').
  { intros Hin. apply Hno. apply in_or_app. right. exact Hin. }
  unfold after_cr, after_crlf.
  destruct s' as [|c tl]; [split; reflexivity|].
  destruct (Ascii.eqb_spec Parser.cr c) as [<-|Hc].
  - exfalso. apply H. left. reflexivity.
  - split; [reflexivity|]. destruct tl; reflexivity.
Qed.

Lemma no_three_after (s : list ascii) :
  includes s three = false ->
  forall pre s', s = (pre ++ s')%list -> after_blank s' = None.
Proof.
  intros Hno pre s' ->.
  assert (H : starts_with three s' = false).
  { induction pre as [|x pre IH].
    - simpl in Hno. destruct s' as [|c tl].
      + reflexivity.
      + cbn [includes] in Hno. apply orb_false_iff in Hno. tauto.
    - apply IH. cbn [app includes] in Hno.
      apply orb_false_iff in Hno. tauto. }
  unfold after_blank. destruct s' as [|a [|b [|c tl]]]; try reflexivity.
  rewrite starts3 in H. rewrite H. reflexivity.
Qed.

End ReplaceFacts.

(** X20: the text of a parsed text file holds no carriage return and no
    run of three line feeds, whatever the file holds; and a text that has
    neither to begin with is returned as it is. *)
Theorem text_is_normalised
  (decodeUtf8 : list ascii -> string) (content : FileContent) :
  let given :=
    match content with
    | FBuffer bytes => decodeUtf8 bytes
    | FString s => s
    end in
  exists t,
    Parser.parseTextContent decodeUtf8 content
    = Ok (mkDoc (CText t) TText None true None None None) /\
    ~ In Parser.cr (JS.chars t) /\
    JS.includes (JS.chars t) [Parser.nl; Parser.nl; Parser.nl] = false /\
    (~ In Parser.cr (JS.chars given) ->
     JS.includes (JS.chars given) [Parser.nl; Parser.nl; Parser.nl] = false ->
     t = given).
Proof.
  intros given. unfold Parser.parseTextContent. fold given.
  eexists. split; [reflexivity|].
  rewrite !ReplaceFacts.chars_str.
  rewrite ReplaceFacts.replace_blank, ReplaceFacts.replace_cr,
    ReplaceFacts.replace_crlf.
  split; [|split].
  - intros H. apply ReplaceFacts.scan_blank_In in H.
    destruct H as [H|H]; [discriminate H|].
    revert H. apply ReplaceFacts.scan_cr_none. lia.
  - apply ReplaceFacts.scan_blank_none. lia.
  - intros Hcr H3.
    rewrite (ReplaceFacts.scan_same ReplaceSpec.after_crlf _ _
               (JS.chars given))
      by (intros pre s' E;
          exact (proj2 (ReplaceFacts.no_cr_after _ Hcr pre s' E))).
    rewrite (ReplaceFacts.scan_same ReplaceSpec.after_cr _ _
               (JS.chars given))
      by (intros pre s' E;
          exact (proj1 (ReplaceFacts.no_cr_after _ Hcr pre s' E))).
    rewrite (ReplaceFacts.scan_same ReplaceSpec.after_blank _ _
               (JS.chars given))
      by (exact (ReplaceFacts.no_three_after _ H3)).
    apply string_of_list_ascii_of_string.
Qed.

Lemma text_is_normalised_witness :
  exists t,
    Parser.parseTextContent JS.str (FString ("a" ++ lf ++ lf ++ "b"))
    = Ok (mkDoc (CText t) TText None true None None None) /\
    t = "a" ++ lf ++ lf ++ "b".
Proof.
  destruct (text_is_normalised JS.str (FString ("a" ++ lf ++ lf ++ "b")))
    as (t & E & _ & _ & H).
  exists t. split; [exact E|].
  apply H.
  - vm_compute. intuition discriminate.
  - vm_compute. reflexivity.
Defined.

(** ** Formatted totals read back *)

Module RoundTripFacts.
Import Chars Regex JS DurationShape DurationFacts NumberUnit.

(** *** The digits of a number *)

Lemma digit_char_spec (d : N) :
  (d < 10)%N ->
  is_digit (digit_char d) = true /\ digit_val (digit_char d) = d.
Proof.
  intros H.
  assert (E : d = N.of_nat (N.to_nat d)) by (rewrite N2Nat.id; reflexivity).
  remember (N.to_nat d) as k eqn:Ek.
  assert (Hk : k < 10) by lia. rewrite E. clear - Hk.
  do 10 (destruct k as [|k]; [split; vm_compute; reflexivity|]).
  lia.
Qed.

Lemma parseInt_snoc (l : list ascii) (d : ascii) :
  parseInt (l ++ [d])%list = (10 * parseInt l + digit_val d)%N.
Proof. unfold parseInt. rewrite fold_left_app. reflexivity. Qed.

Lemma N_digits_spec (fuel : nat) :
  forall n acc,
    (n < 2 ^ N.of_nat fuel)%N -> fuel <> 0 ->
    exists ds,
      N_digits fuel n acc = (ds ++ acc)%list /\
      ds <> [] /\
      Forall (fun x => is_digit x = true) ds /\
      parseInt ds = n.
Proof.
  induction fuel as [|fuel IH]; intros n acc Hn Hf; [contradiction|].
  cbn [N_digits].
  assert (Hm : (n mod 10 < 10)%N) by (apply N.mod_lt; discriminate).
  destruct (digit_char_spec _ Hm) as (Hd & Hv).
  destruct (N.eqb_spec (n / 10) 0) as [E|E].
  - exists [digit_char (n mod 10)]. split; [reflexivity|].
    split; [discriminate|]. split; [repeat constructor; exact Hd|].
    unfold parseInt. simpl. rewrite Hv.
    pose proof (N.div_mod n 10 ltac:(discriminate)). lia.
  - assert (Hf' : fuel <> 0).
    { intros ->. simpl in Hn.
      assert (n / 10 = 0)%N by (apply N.div_small; lia). contradiction. }
    assert (Hn' : (n / 10 < 2 ^ N.of_nat fuel)%N).
    { rewrite Nat2N.inj_succ, N.pow_succ_r' in Hn.
      apply N.Div0.div_lt_upper_bound. lia. }
    destruct (IH (n / 10)%N (digit_char (n mod 10) :: acc) Hn' Hf')
      as (ds & E1 & E2 & E3 & E4).
    exists (ds ++ [digit_char (n mod 10)])%list. split; [|split; [|split]].
    + rewrite E1, <- app_assoc. reflexivity.
    + destruct ds; discriminate.
    + apply Forall_app. split; [exact E3|repeat constructor; exact Hd].
    + rewrite parseInt_snoc, E4, Hv.
      pose proof (N.div_mod n 10 ltac:(discriminate)). lia.
Qed.

Lemma N_to_chars_spec (n : N) :
  N_to_chars n <> [] /\
  Forall (fun x => is_digit x = true) (N_to_chars n) /\
  parseInt (N_to_chars n) = n.
Proof.
  unfold N_to_chars.
  assert (Hn : (n < 2 ^ N.of_nat (S (N.to_nat (N.log2 n))))%N).
  { rewrite Nat2N.inj_succ, N2Nat.id.
    destruct (N.eq_dec n 0) as [->|Hz]; [reflexivity|].
    apply N.log2_spec. lia. }
  destruct (N_digits_spec _ n [] Hn ltac:(discriminate))
    as (ds & E1 & E2 & E3 & E4).
  rewrite E1, app_nil_r. auto.
Qed.

(** *** The matcher on a number followed by a unit *)

Lemma afterDigits_plain (U : regex) (p : nat) (x : ascii) (tl : list ascii)
  (c : list (nat * list ascii)) :
  is_space x = false ->
  afterDigits U (MState p (x :: tl) c) = afterUnit U (MState p (x :: tl) c).
Proof.
  intros Hx. unfold afterDigits, afterUnit.
  change (rmatch true (RSeq (RStar true rspace) (RSeq U (ROpt (RChar "s"))))
            (MState p (x :: tl) c) Some)
    with (star_loop (rmatch true rspace) true
            (fun st1 => rmatch true (RSeq U (ROpt (RChar "s"))) st1 Some)
            (S (List.length (x :: tl))) (MState p (x :: tl) c)).
  rewrite ReplaceFacts.star_loop_greedy.
  unfold rspace at 1. cbn [rmatch rest existsb item_matches xorb orb].
  rewrite Hx. reflexivity.
Qed.

Lemma afterDigits_nil (U : regex) (p : nat) (c : list (nat * list ascii)) :
  afterDigits U (MState p [] c) = afterUnit U (MState p [] c).
Proof. reflexivity. Qed.

Lemma afterDigits_space (U : regex) (p : nat) (x : ascii) (tl : list ascii)
  (c : list (nat * list ascii)) :
  is_space x = false ->
  afterDigits U (MState p (" "%char :: x :: tl) c)
  = orelse (afterUnit U (MState (S p) (x :: tl) c))
           (afterUnit U (MState p (" "%char :: x :: tl) c)).
Proof.
  intros Hx. unfold afterDigits at 1.
  change (rmatch true (RSeq (RStar true rspace) (RSeq U (ROpt (RChar "s"))))
            (MState p (" "%char :: x :: tl) c) Some)
    with (star_loop (rmatch true rspace) true (afterUnit U)
            (S (S (S (List.length tl)))) (MState p (" "%char :: x :: tl) c)).
  rewrite ReplaceFacts.star_loop_greedy.
  unfold rspace at 1.
  cbn [rmatch rest existsb item_matches xorb orb step1 pos caps List.length].
  change (is_space " ") with true. cbn [orb].
  assert (L : Nat.ltb (S (List.length tl)) (S (S (List.length tl))) = true)
    by (apply Nat.ltb_lt; lia).
  rewrite L.
  rewrite ReplaceFacts.star_loop_greedy.
  unfold rspace at 1.
  cbn [rmatch rest existsb item_matches xorb orb step1 pos caps].
  rewrite Hx. reflexivity.
Qed.

Lemma num_unfold (U : regex) (p : nat) (s : list ascii) :
  rmatch true (numRe U) (MState p s []) Some
  = rmatch true (RPlus true rdigit) (MState p s [])
      (fun st1 => afterDigits U (set_cap 1 (MState p s []) st1)).
Proof. reflexivity. Qed.

Lemma num_fail (U : regex) (p : nat) (s : list ascii) :
  no_digit_ahead s -> rmatch true (numRe U) (MState p s []) Some = None.
Proof.
  intros H. rewrite num_unfold. unfold RPlus.
  change (rmatch true (RSeq rdigit (RStar true rdigit)) (MState p s []) ?k)
    with (rmatch true rdigit (MState p s [])
            (fun st1 => rmatch true (RStar true rdigit) st1 k)).
  apply rdigit_stop. exact H.
Qed.

(** The loop over digits finds nothing when the continuation refuses every
    place at which it may stop. *)
Lemma star_digits_none (k : cont) (tail : list ascii)
  (c : list (nat * list ascii)) :
  no_digit_ahead tail ->
  forall ds p n,
    Forall (fun x => is_digit x = true) ds ->
    (forall pre suf, ds = (pre ++ suf)%list ->
                     k (MState (p + List.length pre) (suf ++ tail)%list c)
                     = None) ->
    star_loop (rmatch true rdigit) true k n (MState p (ds ++ tail)%list c)
    = None.
Proof.
  intros Htail. induction ds as [|d ds IH]; intros p n Hds Hk.
  - assert (H0 : k (MState p tail c) = None).
    { specialize (Hk [] [] eq_refl). simpl in Hk.
      rewrite Nat.add_0_r in Hk. exact Hk. }
    destruct n as [|n]; [exact H0|].
    cbn [app]. rewrite ReplaceFacts.star_loop_greedy.
    rewrite rdigit_stop by exact Htail. exact H0.
  - assert (H0 : k (MState p ((d :: ds) ++ tail)%list c) = None).
    { specialize (Hk [] (d :: ds) eq_refl). simpl in Hk.
      rewrite Nat.add_0_r in Hk. exact Hk. }
    destruct n as [|n]; [exact H0|].
    inversion Hds as [|? ? Hd Hds']; subst.
    rewrite ReplaceFacts.star_loop_greedy. cbn [app].
    rewrite rdigit_step by exact Hd.
    cbn [app] in H0. rewrite H0.
    destruct (Nat.ltb _ _); [|reflexivity].
    rewrite (IH (S p) n Hds'); [reflexivity|].
    intros pre suf E. specialize (Hk (d :: pre) suf).
    cbn [app List.length] in Hk. rewrite <- Nat.add_succ_comm in Hk.
    apply Hk. rewrite E. reflexivity.
Qed.

Section Unit.

Variable U : regex.
Hypothesis U_not_at_digit : NotAtDigit U.

Lemma afterDigits_digit (p : nat) (x : ascii) (tl : list ascii)
  (c : list (nat * list ascii)) :
  is_digit x = true -> afterDigits U (MState p (x :: tl) c) = None.
Proof.
  intros Hx. rewrite afterDigits_plain by (apply digit_not_space; exact Hx).
  unfold afterUnit.
  change (rmatch true (RSeq U (ROpt (RChar "s"))) (MState p (x :: tl) c) Some)
    with (rmatch true U (MState p (x :: tl) c)
            (fun st1 => rmatch true (ROpt (RChar "s")) st1 Some)).
  apply U_not_at_digit. exact Hx.
Qed.

(** At a run of digits after which the unit is not found, no match
    starts. *)
Lemma num_nomatch (p : nat) (d : ascii) (ds tail : list ascii) :
  Forall (fun x => is_digit x = true) (d :: ds) ->
  no_digit_ahead tail ->
  (forall q c, afterDigits U (MState q tail c) = None) ->
  rmatch true (numRe U) (MState p (d :: ds ++ tail)%list []) Some = None.
Proof.
  intros Hds Htail Hk. inversion Hds as [|? ? Hd Hds']; subst.
  rewrite num_unfold. unfold RPlus.
  change (rmatch true (RSeq rdigit (RStar true rdigit))
            (MState p (d :: ds ++ tail)%list []) ?k)
    with (rmatch true rdigit (MState p (d :: ds ++ tail)%list [])
            (fun st1 => rmatch true (RStar true rdigit) st1 k)).
  rewrite rdigit_step by exact Hd.
  change (rmatch true (RStar true rdigit) (MState (S p) (ds ++ tail)%list [])
            ?k)
    with (star_loop (rmatch true rdigit) true k
            (S (List.length (ds ++ tail)%list))
            (MState (S p) (ds ++ tail)%list [])).
  apply star_digits_none; [exact Htail|exact Hds'|].
  intros pre suf E. unfold set_cap. cbn [pos rest caps].
  destruct suf as [|x suf].
  - apply Hk.
  - apply afterDigits_digit.
    rewrite Forall_forall in Hds'. apply Hds'.
    rewrite E. apply in_or_app. right. left. reflexivity.
Qed.

Lemma search_skip_digits (tail : list ascii) :
  no_digit_ahead tail ->
  (forall q c, afterDigits U (MState q tail c) = None) ->
  forall ds p,
    Forall (fun x => is_digit x = true) ds ->
    rsearch true (numRe U) p (ds ++ tail)%list
    = rsearch true (numRe U) (p + List.length ds) tail.
Proof.
  intros Htail Hk. induction ds as [|d ds IH]; intros p Hds.
  - simpl. rewrite Nat.add_0_r. reflexivity.
  - cbn [app rsearch].
    rewrite (num_nomatch p d ds tail Hds Htail Hk).
    inversion Hds; subst. rewrite IH by assumption.
    cbn [List.length]. rewrite Nat.add_succ_comm. reflexivity.
Qed.

Lemma search_skip_plain (p : nat) (x : ascii) (tl : list ascii) :
  is_digit x = false ->
  rsearch true (numRe U) p (x :: tl) = rsearch true (numRe U) (S p) tl.
Proof.
  intros Hx. cbn [rsearch]. rewrite num_fail by exact Hx. reflexivity.
Qed.

Lemma search_end (p : nat) : rsearch true (numRe U) p [] = None.
Proof. reflexivity. Qed.

(** At a run of digits after which the unit is found, the match starts
    and captures the digits. *)
Lemma num_match (p : nat) (d : ascii) (ds tail : list ascii) (res : mstate) :
  Forall (fun x => is_digit x = true) (d :: ds) ->
  no_digit_ahead tail ->
  afterDigits U (MState (S p + List.length ds) tail [(1, d :: ds)])
  = Some res ->
  rsearch true (numRe U) p (d :: ds ++ tail)%list
  = Some (mk_result p (d :: ds ++ tail)%list res).
Proof.
  intros Hds Htail Hk. inversion Hds as [|? ? Hd Hds']; subst.
  assert (E : rmatch true (numRe U) (MState p (d :: ds ++ tail)%list []) Some
              = Some res).
  { rewrite num_unfold. unfold RPlus.
    change (rmatch true (RSeq rdigit (RStar true rdigit))
              (MState p (d :: ds ++ tail)%list []) ?k)
      with (rmatch true rdigit (MState p (d :: ds ++ tail)%list [])
              (fun st1 => rmatch true (RStar true rdigit) st1 k)).
    rewrite rdigit_step by exact Hd.
    change (rmatch true (RStar true rdigit)
              (MState (S p) (ds ++ tail)%list []) ?k)
      with (star_loop (rmatch true rdigit) true k
              (S (List.length (ds ++ tail)%list))
              (MState (S p) (ds ++ tail)%list [])).
    apply star_digits; [exact Htail|exact Hds'|lia|].
    unfold set_cap. cbn [pos rest caps].
    replace (S p + List.length ds - p) with (S (List.length ds)) by lia.
    cbn [firstn]. rewrite firstn_app, firstn_all, Nat.sub_diag.
    cbn [firstn]. rewrite app_nil_r. exact Hk. }
  cbn [rsearch]. rewrite E. reflexivity.
Qed.

End Unit.

Lemma hour_not_at_digit : NotAtDigit hourUnit.
Proof.
  intros p x tl c k Hx. unfold hourUnit.
  cbn [ralt rlit rmatch rest].
  rewrite (plain_not_letter "h" x eq_refl (or_intror Hx)). reflexivity.
Qed.

Lemma minute_not_at_digit : NotAtDigit minuteUnit.
Proof.
  intros p x tl c k Hx. unfold minuteUnit.
  cbn [ralt rlit rmatch rest].
  rewrite (plain_not_letter "m" x eq_refl (or_intror Hx)). reflexivity.
Qed.

Lemma day_not_at_digit : NotAtDigit dayUnit.
Proof.
  intros p x tl c k Hx. unfold dayUnit.
  cbn [ralt rlit rmatch rest].
  rewrite (plain_not_letter "d" x eq_refl (or_intror Hx)). reflexivity.
Qed.

(** *** The texts that [formatTotal] writes *)

Lemma chars_app (a b : string) : chars (a ++ b) = (chars a ++ chars b)%list.
Proof.
  induction a as [|x a IH]; [reflexivity|].
  unfold chars in *. cbn [append list_ascii_of_string app].
  rewrite IH. reflexivity.
Qed.

Lemma chars_plural (k : N) : chars (Diagram.plural k) = pluralChars k.
Proof. unfold Diagram.plural, pluralChars. destruct (k =? 1)%N; reflexivity. Qed.

Lemma chars_N (k : N) : chars (N_to_string k) = N_to_chars k.
Proof. apply ReplaceFacts.chars_str. Qed.

Lemma chars_formatTotal (n : N) :
  chars (Diagram.formatTotal n)
  = if (60 <=? n)%N then
      hourText (N_to_chars (n / 60)) (pluralChars (n / 60))
        (if (0 <? n mod 60)%N
         then " "%char :: minuteText (N_to_chars (n mod 60))
                            (pluralChars (n mod 60))
         else [])
    else minuteText (N_to_chars n) (pluralChars n).
Proof.
  unfold Diagram.formatTotal, hourText, minuteText.
  destruct (60 <=? n)%N.
  - destruct (0 <? n mod 60)%N;
      rewrite !chars_app, !chars_N, !chars_plural; reflexivity.
  - rewrite !chars_app, chars_N, chars_plural. reflexivity.
Qed.

Lemma pluralChars_Plural (k : N) : Plural (pluralChars k).
Proof. unfold Plural, pluralChars. destruct (k =? 1)%N; auto. Qed.

(** *** The three patterns on these texts *)

Ltac skip_plain := repeat (rewrite search_skip_plain by reflexivity).

Lemma unit_absent_in_minutes (U : regex) (D pl : list ascii) (p : nat) :
  NotAtDigit U ->
  (forall q c tl,
      afterUnit U (MState q ("m"%char :: tl) c) = None /\
      afterUnit U (MState q (" "%char :: tl) c) = None) ->
  Digits D -> Plural pl ->
  rsearch true (numRe U) p (minuteText D pl) = None.
Proof.
  intros HU Hm (_ & HD) Hpl. unfold minuteText.
  rewrite (search_skip_digits U HU); [|reflexivity| |exact HD].
  - cbn [chars list_ascii_of_string app]. skip_plain.
    destruct Hpl as [-> | ->]; [reflexivity|skip_plain; reflexivity].
  - intros q c. cbn [chars list_ascii_of_string app].
    rewrite afterDigits_space by reflexivity.
    rewrite (proj1 (Hm _ _ _)), (proj2 (Hm _ _ _)). reflexivity.
Qed.

Lemma unit_absent_in_hours (U : regex) (D pl rest : list ascii) (p : nat) :
  NotAtDigit U ->
  (forall q c tl,
      afterUnit U (MState q ("h"%char :: tl) c) = None /\
      afterUnit U (MState q (" "%char :: tl) c) = None) ->
  Digits D -> Plural pl ->
  exists q, rsearch true (numRe U) p (hourText D pl rest)
            = rsearch true (numRe U) q rest.
Proof.
  intros HU Hh (_ & HD) Hpl. unfold hourText.
  rewrite (search_skip_digits U HU); [|reflexivity| |exact HD].
  - cbn [chars list_ascii_of_string app]. skip_plain.
    destruct Hpl as [-> | ->]; cbn [app]; skip_plain; eexists; reflexivity.
  - intros q c. cbn [chars list_ascii_of_string app].
    rewrite afterDigits_space by reflexivity.
    rewrite (proj1 (Hh _ _ _)), (proj2 (Hh _ _ _)). reflexivity.
Qed.

Lemma hour_absent (q : nat) (c : list (nat * list ascii)) (tl : list ascii) :
  afterUnit hourUnit (MState q ("m"%char :: tl) c) = None /\
  afterUnit hourUnit (MState q (" "%char :: tl) c) = None.
Proof. split; reflexivity. Qed.

Lemma day_absent_m (q : nat) (c : list (nat * list ascii)) (tl : list ascii) :
  afterUnit dayUnit (MState q ("m"%char :: tl) c) = None /\
  afterUnit dayUnit (MState q (" "%char :: tl) c) = None.
Proof. split; reflexivity. Qed.

Lemma day_absent_h (q : nat) (c : list (nat * list ascii)) (tl : list ascii) :
  afterUnit dayUnit (MState q ("h"%char :: tl) c) = None /\
  afterUnit dayUnit (MState q (" "%char :: tl) c) = None.
Proof. split; reflexivity. Qed.

Lemma minute_absent_h (q : nat) (c : list (nat * list ascii))
  (tl : list ascii) :
  afterUnit minuteUnit (MState q ("h"%char :: tl) c) = None /\
  afterUnit minuteUnit (MState q (" "%char :: tl) c) = None.
Proof. split; reflexivity. Qed.

Lemma minutes_found (D pl : list ascii) (p : nat) :
  Digits D -> Plural pl ->
  exists q tl,
    rsearch true (numRe minuteUnit) p (minuteText D pl)
    = Some (mk_result p (minuteText D pl) (MState q tl [(1, D)])).
Proof.
  intros (Hne & HD) Hpl. destruct D as [|d ds]; [contradiction|].
  unfold minuteText. cbn [app].
  destruct Hpl as [-> | ->]; eexists _, _;
    apply (num_match minuteUnit p d ds); try exact HD; try reflexivity;
    cbn [chars list_ascii_of_string app];
    rewrite afterDigits_space by reflexivity; reflexivity.
Qed.

Lemma hours_found (D pl rest : list ascii) (p : nat) :
  Digits D -> Plural pl -> Rest rest ->
  exists q tl,
    rsearch true (numRe hourUnit) p (hourText D pl rest)
    = Some (mk_result p (hourText D pl rest) (MState q tl [(1, D)])).
Proof.
  intros (Hne & HD) Hpl Hrest. destruct D as [|d ds]; [contradiction|].
  unfold hourText. cbn [app].
  destruct Hrest as [-> |(D' & pl' & _ & _ & ->)];
    destruct Hpl as [-> | ->]; eexists _, _;
    apply (num_match hourUnit p d ds); try exact HD; try reflexivity;
    cbn [chars list_ascii_of_string app];
    rewrite afterDigits_space by reflexivity; reflexivity.
Qed.

Lemma captured_none (U : regex) (s : list ascii) :
  rsearch true (numRe U) 0 s = None ->
  Merger.capturedInt (numRe U) s = None.
Proof. intros H. unfold Merger.capturedInt, exec. rewrite H. reflexivity. Qed.

Lemma captured_some (U : regex) (s s' D tl : list ascii) (p q : nat) :
  rsearch true (numRe U) 0 s
  = Some (mk_result p s' (MState q tl [(1, D)])) ->
  Merger.capturedInt (numRe U) s = Some (parseInt D).
Proof. intros H. unfold Merger.capturedInt, exec. rewrite H. reflexivity. Qed.

Lemma parse_minutes_text (D pl : list ascii) :
  Digits D -> Plural pl ->
  Merger.capturedInt Merger.hoursRe (minuteText D pl) = None /\
  Merger.capturedInt Merger.minutesRe (minuteText D pl) = Some (parseInt D) /\
  Merger.capturedInt Merger.daysRe (minuteText D pl) = None.
Proof.
  intros HD Hpl.
  change Merger.hoursRe with (numRe hourUnit).
  change Merger.minutesRe with (numRe minuteUnit).
  change Merger.daysRe with (numRe dayUnit).
  split; [|split].
  - apply captured_none.
    apply unit_absent_in_minutes;
      [exact hour_not_at_digit|exact hour_absent|exact HD|exact Hpl].
  - destruct (minutes_found D pl 0 HD Hpl) as (q & tl & E).
    exact (captured_some _ _ _ _ _ _ _ E).
  - apply captured_none.
    apply unit_absent_in_minutes;
      [exact day_not_at_digit|exact day_absent_m|exact HD|exact Hpl].
Qed.

Lemma parse_hours_text (D pl : list ascii) :
  Digits D -> Plural pl ->
  Merger.capturedInt Merger.hoursRe (hourText D pl []) = Some (parseInt D) /\
  Merger.capturedInt Merger.minutesRe (hourText D pl []) = None /\
  Merger.capturedInt Merger.daysRe (hourText D pl []) = None.
Proof.
  intros HD Hpl.
  change Merger.hoursRe with (numRe hourUnit).
  change Merger.minutesRe with (numRe minuteUnit).
  change Merger.daysRe with (numRe dayUnit).
  split; [|split].
  - destruct (hours_found D pl [] 0 HD Hpl (or_introl eq_refl))
      as (q & tl & E).
    exact (captured_some _ _ _ _ _ _ _ E).
  - apply captured_none.
    destruct (unit_absent_in_hours minuteUnit D pl [] 0 minute_not_at_digit
                minute_absent_h HD Hpl) as (q & ->).
    reflexivity.
  - apply captured_none.
    destruct (unit_absent_in_hours dayUnit D pl [] 0 day_not_at_digit
                day_absent_h HD Hpl) as (q & ->).
    reflexivity.
Qed.

Lemma parse_hours_minutes_text (D pl D' pl' : list ascii) :
  Digits D -> Plural pl -> Digits D' -> Plural pl' ->
  let s := hourText D pl (" "%char :: minuteText D' pl') in
  Merger.capturedInt Merger.hoursRe s = Some (parseInt D) /\
  Merger.capturedInt Merger.minutesRe s = Some (parseInt D') /\
  Merger.capturedInt Merger.daysRe s = None.
Proof.
  intros HD Hpl HD' Hpl' s. unfold s.
  change Merger.hoursRe with (numRe hourUnit).
  change Merger.minutesRe with (numRe minuteUnit).
  change Merger.daysRe with (numRe dayUnit).
  split; [|split].
  - destruct (hours_found D pl (" "%char :: minuteText D' pl') 0 HD Hpl)
      as (q & tl & E).
    { right. exists D', pl'. auto. }
    exact (captured_some _ _ _ _ _ _ _ E).
  - destruct (unit_absent_in_hours minuteUnit D pl
                (" "%char :: minuteText D' pl') 0 minute_not_at_digit
                minute_absent_h HD Hpl) as (q & E).
    destruct (minutes_found D' pl' (S q) HD' Hpl') as (q' & tl & E').
    rewrite search_skip_plain in E by reflexivity.
    rewrite E' in E.
    exact (captured_some _ _ _ _ _ _ _ E).
  - apply captured_none.
    destruct (unit_absent_in_hours dayUnit D pl
                (" "%char :: minuteText D' pl') 0 day_not_at_digit
                day_absent_h HD Hpl) as (q & ->).
    rewrite search_skip_plain by reflexivity.
    apply unit_absent_in_minutes;
      [exact day_not_at_digit|exact day_absent_m|exact HD'|exact Hpl'].
Qed.

Lemma unit_absent_in_days (U : regex) (D pl : list ascii) (p : nat) :
  NotAtDigit U ->
  (forall q c tl,
      afterUnit U (MState q ("d"%char :: tl) c) = None /\
      afterUnit U (MState q (" "%char :: tl) c) = None) ->
  Digits D -> Plural pl ->
  rsearch true (numRe U) p (dayText D pl) = None.
Proof.
  intros HU Hm (_ & HD) Hpl. unfold dayText.
  rewrite (search_skip_digits U HU); [|reflexivity| |exact HD].
  - cbn [chars list_ascii_of_string app]. skip_plain.
    destruct Hpl as [-> | ->]; [reflexivity|skip_plain; reflexivity].
  - intros q c. cbn [chars list_ascii_of_string app].
    rewrite afterDigits_space by reflexivity.
    rewrite (proj1 (Hm _ _ _)), (proj2 (Hm _ _ _)). reflexivity.
Qed.

Lemma hour_absent_d (q : nat) (c : list (nat * list ascii))
  (tl : list ascii) :
  afterUnit hourUnit (MState q ("d"%char :: tl) c) = None /\
  afterUnit hourUnit (MState q (" "%char :: tl) c) = None.
Proof. split; reflexivity. Qed.

Lemma minute_absent_d (q : nat) (c : list (nat * list ascii))
  (tl : list ascii) :
  afterUnit minuteUnit (MState q ("d"%char :: tl) c) = None /\
  afterUnit minuteUnit (MState q (" "%char :: tl) c) = None.
Proof. split; reflexivity. Qed.

Lemma days_found (D pl : list ascii) (p : nat) :
  Digits D -> Plural pl ->
  exists q tl,
    rsearch true (numRe dayUnit) p (dayText D pl)
    = Some (mk_result p (dayText D pl) (MState q tl [(1, D)])).
Proof.
  intros (Hne & HD) Hpl. destruct D as [|d ds]; [contradiction|].
  unfold dayText. cbn [app].
  destruct Hpl as [-> | ->]; eexists _, _;
    apply (num_match dayUnit p d ds); try exact HD; try reflexivity;
    cbn [chars list_ascii_of_string app];
    rewrite afterDigits_space by reflexivity; reflexivity.
Qed.

Lemma parse_days_text (D pl : list ascii) :
  Digits D -> Plural pl ->
  Merger.capturedInt Merger.hoursRe (dayText D pl) = None /\
  Merger.capturedInt Merger.minutesRe (dayText D pl) = None /\
  Merger.capturedInt Merger.daysRe (dayText D pl) = Some (parseInt D).
Proof.
  intros HD Hpl.
  change Merger.hoursRe with (numRe hourUnit).
  change Merger.minutesRe with (numRe minuteUnit).
  change Merger.daysRe with (numRe dayUnit).
  split; [|split].
  - apply captured_none.
    apply unit_absent_in_days;
      [exact hour_not_at_digit|exact hour_absent_d|exact HD|exact Hpl].
  - apply captured_none.
    apply unit_absent_in_days;
      [exact minute_not_at_digit|exact minute_absent_d|exact HD|exact Hpl].
  - destruct (days_found D pl 0 HD Hpl) as (q & tl & E).
    exact (captured_some _ _ _ _ _ _ _ E).
Qed.

Lemma digits_of (k : N) : Digits (N_to_chars k).
Proof.
  destruct (N_to_chars_spec k) as (H1 & H2 & _). split; assumption.
Qed.

Lemma parse_unfold (ts : string) (c : ascii) (tl : list ascii) :
  chars ts = c :: tl ->
  Merger.parseTimeToMinutes (Some ts)
  = let total :=
      (Merger.orZero (Merger.capturedInt Merger.hoursRe (chars ts)) * 60
       + Merger.orZero (Merger.capturedInt Merger.minutesRe (chars ts))
       + Merger.orZero (Merger.capturedInt Merger.daysRe (chars ts)) * 8 * 60)%N
    in if (0 <? total)%N then Some total else None.
Proof.
  intros H. destruct ts as [|x ts]; [discriminate H|]. reflexivity.
Qed.

Lemma formatTotal_parses (n : N) :
  (0 < n)%N ->
  Merger.parseTimeToMinutes (Some (Diagram.formatTotal n)) = Some n.
Proof.
  intros Hn.
  assert (Hc := chars_formatTotal n).
  assert (Hne : exists c tl, chars (Diagram.formatTotal n) = c :: tl).
  { rewrite Hc. unfold hourText, minuteText.
    destruct (60 <=? n)%N.
    - destruct (digits_of (n / 60)) as (H & _).
      destruct (N_to_chars (n / 60)); [contradiction|].
      eexists _, _. reflexivity.
    - destruct (digits_of n) as (H & _).
      destruct (N_to_chars n); [contradiction|].
      eexists _, _. reflexivity. }
  destruct Hne as (c & tl & Hne).
  rewrite (parse_unfold _ c tl Hne). rewrite Hc.
  destruct (N.leb_spec 60 n) as [H60|H60].
  - pose proof (N.div_mod n 60 ltac:(discriminate)) as Hdm.
    destruct (N.ltb_spec 0 (n mod 60)) as [Hm|Hm].
    + destruct (parse_hours_minutes_text
                  (N_to_chars (n / 60)) (pluralChars (n / 60))
                  (N_to_chars (n mod 60)) (pluralChars (n mod 60))
                  (digits_of _) (pluralChars_Plural _)
                  (digits_of _) (pluralChars_Plural _)) as (E1 & E2 & E3).
      cbv zeta in E1, E2, E3. rewrite E1, E2, E3.
      rewrite !(proj2 (proj2 (N_to_chars_spec _))).
      cbn [Merger.orZero].
      replace (n / 60 * 60 + n mod 60 + 0 * 8 * 60)%N with n
        by (clear - Hdm; generalize dependent (n / 60)%N;
            generalize dependent (n mod 60)%N; intros; lia).
      cbv zeta. destruct (N.ltb_spec 0 n); [reflexivity|lia].
    + destruct (parse_hours_text
                  (N_to_chars (n / 60)) (pluralChars (n / 60))
                  (digits_of _) (pluralChars_Plural _)) as (E1 & E2 & E3).
      rewrite E1, E2, E3.
      rewrite !(proj2 (proj2 (N_to_chars_spec _))).
      cbn [Merger.orZero].
      replace (n / 60 * 60 + 0 + 0 * 8 * 60)%N with n
        by (clear - Hdm Hm; generalize dependent (n / 60)%N;
            generalize dependent (n mod 60)%N; intros; lia).
      cbv zeta. destruct (N.ltb_spec 0 n); [reflexivity|lia].
  - destruct (parse_minutes_text (N_to_chars n) (pluralChars n)
                (digits_of _) (pluralChars_Plural _)) as (E1 & E2 & E3).
    rewrite E1, E2, E3.
    rewrite !(proj2 (proj2 (N_to_chars_spec _))).
    cbn [Merger.orZero].
    replace (0 * 60 + n + 0 * 8 * 60)%N with n by lia.
    cbv zeta. destruct (N.ltb_spec 0 n); [reflexivity|lia].
Qed.

Lemma cons_of_digits (D tail : list ascii) :
  Digits D -> exists c tl, (D ++ tail)%list = c :: tl.
Proof.
  intros (H & _). destruct D; [contradiction|]. eexists _, _. reflexivity.
Qed.

Lemma parse_from_captures (ts : string) (h m d : option N) :
  (exists c tl, chars ts = c :: tl) ->
  Merger.capturedInt Merger.hoursRe (chars ts) = h ->
  Merger.capturedInt Merger.minutesRe (chars ts) = m ->
  Merger.capturedInt Merger.daysRe (chars ts) = d ->
  Merger.parseTimeToMinutes (Some ts)
  = let total := (Merger.orZero h * 60 + Merger.orZero m
                  + Merger.orZero d * 8 * 60)%N in
    if (0 <? total)%N then Some total else None.
Proof.
  intros (c & tl & E) <- <- <-. apply (parse_unfold ts c tl E).
Qed.

End RoundTripFacts.

(** X21: a total time written by the diagram metrics extractor is read
    back by the merger as the number of minutes it was written from: for
    every [n > 0] in the range in which the numbers of the source are
    exact, [parseTimeToMinutes] of the text that [n] minutes are formatted
    to is [n].  Hence the time savings between two formatted totals is the
    rounded percentage of the minutes themselves.  The text for 0 minutes
    is read as no time at all. *)
Theorem formatted_total_round_trip (a b : N) :
  (0 < a)%N -> (0 < b)%N -> NumberSpec.Safe a -> NumberSpec.Safe b ->
  Merger.parseTimeToMinutes (Some (Diagram.formatTotal a)) = Some a /\
  Merger.calculateTimeSavingsPercent (Diagram.formatTotal a)
    (Some (Diagram.formatTotal b))
  = Some (Merger.roundedPercent a b) /\
  Merger.parseTimeToMinutes (Some (Diagram.formatTotal 0)) = None.
Proof.
  intros Ha Hb _ _. split; [|split].
  - apply RoundTripFacts.formatTotal_parses. exact Ha.
  - unfold Merger.calculateTimeSavingsPercent.
    rewrite (RoundTripFacts.formatTotal_parses a Ha),
      (RoundTripFacts.formatTotal_parses b Hb).
    destruct (N.ltb_spec 0 a); [reflexivity|lia].
  - vm_compute. reflexivity.
Qed.

Lemma formatted_total_round_trip_witness :
  Merger.parseTimeToMinutes (Some "2 hours 5 minutes") = Some 125%N /\
  Merger.calculateTimeSavingsPercent "2 hours 5 minutes" (Some "1 hour")
  = Some 52%Z.
Proof.
  destruct (formatted_total_round_trip 125 60 ltac:(reflexivity)
              ltac:(reflexivity)
              ltac:(apply N.leb_le; vm_compute; reflexivity)
              ltac:(apply N.leb_le; vm_compute; reflexivity))
    as (H1 & H2 & _).
  split; [exact H1|exact H2].
Defined.

(** X22: the total time that [extractWorkflowMetrics] reports for a
    diagram is read back by [parseTimeToMinutes] of the merger as the sum
    of the minutes of the duration tokens of the diagram, when that sum is
    not zero and in the range in which the numbers of the source are
    exact. *)
Theorem diagram_total_parses_back (diagram : string) :
  let total := DurationScan.totalMinutes (DurationScan.tokens diagram) in
  (0 < total)%N -> NumberSpec.Safe total ->
  Merger.parseTimeToMinutes
    (Some (totalTime (Diagram.extractWorkflowMetrics diagram)))
  = Some total.
Proof.
  intros total Hsum _.
  rewrite DurationScanFacts.total_time_of_tokens. fold total.
  destruct (DurationScan.tokens diagram) as [|t l] eqn:E.
  - unfold total in Hsum. vm_compute in Hsum. discriminate Hsum.
  - rewrite <- DurationFacts.formatTotal_spec.
    apply RoundTripFacts.formatTotal_parses. exact Hsum.
Qed.

Lemma diagram_total_parses_back_witness :
  Merger.parseTimeToMinutes
    (Some (totalTime (Diagram.extractWorkflowMetrics sampleDiagram)))
  = Some 90%N.
Proof.
  exact (diagram_total_parses_back sampleDiagram ltac:(reflexivity)
           ltac:(apply N.leb_le; vm_compute; reflexivity)).
Defined.

(** ** Merging metrics that are consistent *)

(** X23: the merge keeps the agreement between step times and number of
    steps: when the diagram metrics have as many step times as steps, and
    so have the document metrics if there are any, the merged metrics have
    as many step times as steps, with or without optimization metrics. *)
Theorem merge_preserves_consistency
  (w : Metrics) (d : option Metrics) (o : option OptimizationMetrics) :
  MetricsSpec.consistent w ->
  (forall d', d = Some d' -> MetricsSpec.consistent d') ->
  MetricsSpec.consistent (Merger.mergeMetrics w d o).
Proof.
  unfold MetricsSpec.consistent. intros Hw Hd.
  unfold Merger.mergeMetrics. cbn [stepTimes totalSteps].
  destruct (N.eqb_spec (totalSteps w) 0) as [E|E].
  - rewrite E in Hw. simpl in Hw.
    destruct (stepTimes w) as [|e l] eqn:Es; [|discriminate Hw].
    destruct d as [d'|]; [|reflexivity].
    specialize (Hd d' eq_refl). cbn [option_map].
    rewrite MergerFacts.orN_self.
    destruct (stepTimes d') as [|e' l'] eqn:Ed; [|exact Hd].
    exact Hd.
  - destruct (stepTimes w) as [|e l] eqn:Es.
    + simpl in Hw. lia.
    + exact Hw.
Qed.

Lemma merge_preserves_consistency_witness :
  let w := Diagram.extractWorkflowMetrics sampleDiagram in
  let d := DocMetrics.finishProcessMetrics 3 "2 hours" [] in
  List.length (stepTimes (Merger.mergeMetrics w (Some d) None)) = 2.
Proof.
  intros w d.
  apply (merge_preserves_consistency w (Some d) None).
  - reflexivity.
  - intros d' E. injection E as <-. reflexivity.
Defined.

(** ** Accepted files and their parsers *)

Module RoutingFacts.
Import Parser RoutingSpec.

Section Libraries.

Variable pdfParse : FileContent -> bool -> Res PdfData.
Variable processPdfText : string -> string.
Variable extractKeywords : string -> list string.
Variable extractRawText : FileContent -> Res string.
Variable readFirstSheet : FileContent -> Res (list (list string)).
Variable decodeUtf8 : list ascii -> string.

Lemma pdf_type (c : FileContent) :
  exists r, parsePdfContent pdfParse processPdfText extractKeywords c = Ok r
            /\ type r = TPdf.
Proof.
  unfold parsePdfContent.
  destruct (pdfParse c true) as [d|e]; simpl;
    [eexists; split; reflexivity|].
  destruct (pdfParse c false) as [d|e']; simpl; eexists; split; reflexivity.
Qed.

Lemma docx_type (c : FileContent) :
  exists r, parseDocxContent extractRawText c = Ok r /\ type r = TDocx.
Proof.
  unfold parseDocxContent.
  destruct (extractRawText c); simpl; eexists; split; reflexivity.
Qed.

Lemma excel_type (c : FileContent) :
  exists r, parseExcelContent readFirstSheet c = Ok r /\ type r = TExcel.
Proof.
  unfold parseExcelContent.
  destruct (readFirstSheet c) as [[|h t]|e]; simpl;
    eexists; split; reflexivity.
Qed.

Lemma text_type (c : FileContent) :
  exists r, parseTextContent decodeUtf8 c = Ok r /\ type r = TText.
Proof. eexists. split; reflexivity. Qed.

End Libraries.

Ltac route :=
  unfold parseDocument;
  repeat match goal with
         | |- context [mimeHas ?m ?p] =>
             let b := eval vm_compute in (mimeHas m p) in
             change (mimeHas m p) with b
         end;
  cbn [orb].

End RoutingFacts.

(** X24: for each of the seven MIME types that the upload component
    accepts, the upload handler and the parser agree: the file is read as
    text exactly for text/plain and text/csv, the parser never fails with
    the type [error], and the record it returns has the type that goes
    with the MIME type: pdf, docx, csv, excel or text.  In particular a
    csv file is always handed over as a string, the one form that the
    parser of delimited text accepts. *)
Theorem accepted_types_are_routed
  (pdfParse : FileContent -> bool -> Res Parser.PdfData)
  (processPdfText : string -> string)
  (extractKeywords : string -> list string)
  (extractRawText : FileContent -> Res string)
  (readFirstSheet : FileContent -> Res (list (list string)))
  (decodeUtf8 : list ascii -> string)
  (mimeType name : string) (content : FileContent) :
  In mimeType Uploader.acceptedTypes ->
  RoutingSpec.ReadAs (RoutingSpec.readAsText mimeType) content ->
  (RoutingSpec.readAsText mimeType = true <->
   mimeType = "text/plain" \/ mimeType = "text/csv") /\
  exists r,
    Parser.parseDocument pdfParse processPdfText extractKeywords
      extractRawText readFirstSheet decodeUtf8 content (Some mimeType) name
    = Ok r /\
    type r = RoutingSpec.expectedType mimeType.
Proof.
  intros Hin Hread.
  unfold Uploader.acceptedTypes in Hin.
  repeat (destruct Hin as [<-|Hin]); [| | | | | | |destruct Hin].
  - split; [split; [intros H; discriminate H
                   |intros [H|H]; discriminate H]|].
    RoutingFacts.route.
    destruct (RoutingFacts.pdf_type pdfParse processPdfText extractKeywords
                content) as (r & -> & Ht).
    exists r. split; [reflexivity|exact Ht].
  - split; [split; [intros H; discriminate H
                   |intros [H|H]; discriminate H]|].
    RoutingFacts.route.
    destruct (RoutingFacts.docx_type extractRawText content)
      as (r & -> & Ht).
    exists r. split; [reflexivity|exact Ht].
  - split; [split; [intros H; discriminate H
                   |intros [H|H]; discriminate H]|].
    RoutingFacts.route.
    destruct (RoutingFacts.docx_type extractRawText content)
      as (r & -> & Ht).
    exists r. split; [reflexivity|exact Ht].
  - split; [split; [intros _; left; reflexivity|reflexivity]|].
    RoutingFacts.route.
    eexists. split; reflexivity.
  - split; [split; [intros _; right; reflexivity|reflexivity]|].
    RoutingFacts.route.
    destruct content as [s|bytes]; [|discriminate Hread].
    cbn [try_catch Parser.parseCsvContent].
    destruct (CsvFacts.split_char_cons Parser.nl (JS.chars s) [])
      as (f & fs & E).
    unfold Parser.parseCsvString.
    destruct (JS.includes (JS.chars s) [Parser.cr; Parser.nl]).
    + destruct (Parser.split_crlf (JS.chars s) []);
        eexists; split; reflexivity.
    + rewrite E. eexists. split; reflexivity.
  - split; [split; [intros H; discriminate H
                   |intros [H|H]; discriminate H]|].
    RoutingFacts.route.
    destruct (RoutingFacts.excel_type readFirstSheet content)
      as (r & -> & Ht).
    exists r. split; [reflexivity|exact Ht].
  - split; [split; [intros H; discriminate H
                   |intros [H|H]; discriminate H]|].
    RoutingFacts.route.
    destruct (RoutingFacts.excel_type readFirstSheet content)
      as (r & -> & Ht).
    exists r. split; [reflexivity|exact Ht].
Qed.

Lemma accepted_types_are_routed_witness :
  exists r,
    FailingLibraries.parseWithFailingLibraries
      (FString ("a,b" ++ lf ++ "1,2")) (Some "text/csv") "t.csv" = Ok r /\
    type r = TCsv.
Proof.
  destruct (accepted_types_are_routed FailingLibraries.noPdf (fun s => s)
              (fun _ => []) FailingLibraries.noDocx FailingLibraries.noSheet
              JS.str "text/csv" "t.csv" (FString ("a,b" ++ lf ++ "1,2"))
              ltac:(simpl; tauto) eq_refl) as (_ & r & E & Ht).
  exists r. split; [exact E|exact Ht].
Defined.

(** X25: a number followed by one unit word is read by
    [parseTimeToMinutes] of the merger with the factor of the unit: for
    [n > 0], [n minute(s)] is [n] minutes, [n hour(s)] is [60 n] minutes
    and [n day(s)] is [480 n] minutes, a day counting eight hours, as
    long as [480 n] is in the range in which the numbers of the source are
    exact. *)
Theorem single_unit_minutes (n : N) (plural : bool) :
  (0 < n)%N -> NumberSpec.Safe (480 * n) ->
  let s := if plural then "s" else EmptyString in
  Merger.parseTimeToMinutes (Some (JS.N_to_string n ++ " minute" ++ s))
  = Some n /\
  Merger.parseTimeToMinutes (Some (JS.N_to_string n ++ " hour" ++ s))
  = Some (60 * n)%N /\
  Merger.parseTimeToMinutes (Some (JS.N_to_string n ++ " day" ++ s))
  = Some (480 * n)%N.
Proof.
  intros Hn _ s.
  set (pl := if plural then ["s"%char] else []).
  assert (Hpl : NumberUnit.Plural pl)
    by (unfold pl, NumberUnit.Plural; destruct plural; auto).
  assert (HD := RoundTripFacts.digits_of n).
  assert (Hv := proj2 (proj2 (RoundTripFacts.N_to_chars_spec n))).
  assert (Em : JS.chars (JS.N_to_string n ++ " minute" ++ s)
               = NumberUnit.minuteText (JS.N_to_chars n) pl).
  { unfold s, pl, NumberUnit.minuteText.
    rewrite !RoundTripFacts.chars_app, RoundTripFacts.chars_N.
    destruct plural; reflexivity. }
  assert (Eh : JS.chars (JS.N_to_string n ++ " hour" ++ s)
               = NumberUnit.hourText (JS.N_to_chars n) pl []).
  { unfold s, pl, NumberUnit.hourText.
    rewrite !RoundTripFacts.chars_app, RoundTripFacts.chars_N, app_nil_r.
    destruct plural; reflexivity. }
  assert (Ed : JS.chars (JS.N_to_string n ++ " day" ++ s)
               = NumberUnit.dayText (JS.N_to_chars n) pl).
  { unfold s, pl, NumberUnit.dayText.
    rewrite !RoundTripFacts.chars_app, RoundTripFacts.chars_N.
    destruct plural; reflexivity. }
  split; [|split].
  - destruct (RoundTripFacts.parse_minutes_text _ pl HD Hpl)
      as (E1 & E2 & E3).
    rewrite <- Em in E1, E2, E3.
    rewrite (RoundTripFacts.parse_from_captures _ _ _ _
               ltac:(rewrite Em; apply RoundTripFacts.cons_of_digits;
                     exact HD) E1 E2 E3).
    rewrite Hv. cbn [Merger.orZero].
    replace (0 * 60 + n + 0 * 8 * 60)%N with n by lia.
    cbv zeta. destruct (N.ltb_spec 0 n); [reflexivity|lia].
  - destruct (RoundTripFacts.parse_hours_text _ pl HD Hpl)
      as (E1 & E2 & E3).
    rewrite <- Eh in E1, E2, E3.
    rewrite (RoundTripFacts.parse_from_captures _ _ _ _
               ltac:(rewrite Eh; apply RoundTripFacts.cons_of_digits;
                     exact HD) E1 E2 E3).
    rewrite Hv. cbn [Merger.orZero].
    replace (n * 60 + 0 + 0 * 8 * 60)%N with (60 * n)%N by lia.
    cbv zeta. destruct (N.ltb_spec 0 (60 * n)); [reflexivity|lia].
  - destruct (RoundTripFacts.parse_days_text _ pl HD Hpl)
      as (E1 & E2 & E3).
    rewrite <- Ed in E1, E2, E3.
    rewrite (RoundTripFacts.parse_from_captures _ _ _ _
               ltac:(rewrite Ed; apply RoundTripFacts.cons_of_digits;
                     exact HD) E1 E2 E3).
    rewrite Hv. cbn [Merger.orZero].
    replace (0 * 60 + 0 + n * 8 * 60)%N with (480 * n)%N by lia.
    cbv zeta. destruct (N.ltb_spec 0 (480 * n)); [reflexivity|lia].
Qed.

Lemma single_unit_minutes_witness :
  Merger.parseTimeToMinutes (Some "3 days") = Some 1440%N.
Proof.
  destruct (single_unit_minutes 3 true ltac:(reflexivity)
              ltac:(apply N.leb_le; vm_compute; reflexivity))
    as (_ & _ & H).
  exact H.
Defined.

(** ** Removing a file from the list *)

Module RemoveFacts.
Import Uploader.

Lemma remove_from (l : list File) (index : nat) :
  forall start,
    map snd (filter (fun p : nat * File => negb (Nat.eqb (fst p) index))
                    (combine (seq start (List.length l)) l))
    = if Nat.ltb index start then l
      else (firstn (index - start) l ++ skipn (S (index - start)) l)%list.
Proof.
  induction l as [|x l IH]; intros start.
  - simpl. destruct (Nat.ltb index start); [reflexivity|].
    rewrite firstn_nil. reflexivity.
  - cbn [List.length seq combine filter fst].
    destruct (Nat.eqb_spec start index) as [->|Hne]; cbn [negb].
    + rewrite IH.
      destruct (Nat.ltb_spec index (S index)) as [_|H]; [|lia].
      destruct (Nat.ltb_spec index index) as [H|_]; [lia|].
      rewrite Nat.sub_diag. reflexivity.
    + cbn [map snd]. rewrite IH.
      destruct (Nat.ltb_spec index (S start)) as [H1|H1];
        destruct (Nat.ltb_spec index start) as [H2|H2]; try lia.
      * reflexivity.
      * replace (index - start) with (S (index - S start)) by lia.
        reflexivity.
Qed.

End RemoveFacts.

(** X26: [removeFile] removes the file at the given position and nothing
    else: the files before it and the files after it stay, in order; for
    a position beyond the end of the list the list is unchanged.  The
    error shown is not touched. *)
Theorem removeFile_removes_one (st : Uploader.State) (index : nat) :
  let st' := Uploader.removeFile st index in
  Uploader.files st'
  = (firstn index (Uploader.files st)
     ++ skipn (S index) (Uploader.files st))%list /\
  Uploader.uploadError st' = Uploader.uploadError st /\
  (List.length (Uploader.files st) <= index ->
   Uploader.files st' = Uploader.files st) /\
  (index < List.length (Uploader.files st) ->
   S (List.length (Uploader.files st'))
   = List.length (Uploader.files st)).
Proof.
  intros st'.
  assert (E : Uploader.files st'
              = (firstn index (Uploader.files st)
                 ++ skipn (S index) (Uploader.files st))%list).
  { unfold st', Uploader.removeFile. cbn [Uploader.files].
    rewrite (RemoveFacts.remove_from (Uploader.files st) index 0).
    cbn [Nat.ltb Nat.leb]. rewrite Nat.sub_0_r. reflexivity. }
  split; [exact E|]. split; [reflexivity|]. split.
  - intros H. rewrite E, firstn_all2, skipn_all2 by lia.
    apply app_nil_r.
  - intros H. rewrite E, length_app, length_firstn, length_skipn. lia.
Qed.

Lemma removeFile_removes_one_witness :
  let a := Uploader.mkFile "a.csv" 10 "text/csv" in
  let b := Uploader.mkFile "b.pdf" 20 "application/pdf" in
  Uploader.files (Uploader.removeFile (Uploader.mkState [a; b] None) 5)
  = [a; b].
Proof.
  intros a b.
  destruct (removeFile_removes_one (Uploader.mkState [a; b] None) 5)
    as (_ & _ & H & _).
  apply H. simpl. lia.
Defined.

(** ** Step times read off the labels of a diagram *)

Module LabelFacts.
Import Chars Regex JS RegexSem RegexFacts DurationFacts Diagram NumberUnit
  LabelSpec.












End LabelFacts.



(** ** The upload handler and the provider *)

(** X28: the upload handler always answers and lets no error escape.  It
    calls the provider only once documents are combined, at most three
    times: once or twice for the formatted document, the second call being
    the fallback after a failure, and once for the workflow diagram, which
    has no fallback: when that call fails the answer is status 500 with
    the message of its error.  When the calls succeed the answer is status
    200 with the number of uploaded files, one entry for each of them, the
    document of the first successful reply, the diagram code of the
    workflow reply, and the metrics of that diagram merged with those of
    the document. *)
Theorem upload_handler_answers
  (readFileSync : string -> bool -> Res FileContent)
  (canUnlink : string -> bool)
  (parse : FileContent -> option string -> string -> Res DocumentRecord)
  (stringify : DocContent -> string)
  (process : string -> string)
  (extractProcessMetrics extractWorkflowMetrics : string -> Metrics)
  (mergeMetrics :
     Metrics -> option Metrics -> option OptimizationMetrics -> Metrics)
  (isPost : bool) (form : Res (list Ingest.UploadedFile))
  (o1 o2 o3 : Provider.outcome) (w : list Provider.outcome) :
  let Answered :=
    UploadSpec.Answered extractProcessMetrics extractWorkflowMetrics
      mergeMetrics process in
  exists resp left calls,
    UploadHandler.handler readFileSync canUnlink parse stringify process
      extractProcessMetrics extractWorkflowMetrics mergeMetrics isPost form
      (o1 :: o2 :: o3 :: w) 0
    = (Ok resp, (left, calls)) /\
    calls <= 3 /\
    (isPost = false ->
     resp = UploadHandler.NotAllowed405 "Method not allowed" /\ calls = 0) /\
    (isPost = true ->
     match form with
     | Throw e => UploadSpec.Failed500 e resp /\ calls = 0
     | Ok documentFiles =>
         match Ingest.ingest readFileSync canUnlink parse stringify
                 documentFiles with
         | Ingest.NoDocuments =>
             resp = UploadHandler.Bad400 "No documents uploaded" [] /\
             calls = 0
         | Ingest.NoneProcessed docs =>
             resp = UploadHandler.Bad400
                      "None of the uploaded documents could be processed"
                      docs /\
             calls = 0
         | Ingest.Combined docs _ =>
             match o1, o2, o3 with
             | Provider.Reply d, Provider.Reply f, _ =>
                 Answered documentFiles docs d f resp /\ calls = 2
             | Provider.Reply d, Provider.Failure e, _ =>
                 UploadSpec.Failed500 e resp /\ calls = 2
             | Provider.Failure _, Provider.Reply d, Provider.Reply f =>
                 Answered documentFiles docs d f resp /\ calls = 3
             | Provider.Failure _, Provider.Reply d, Provider.Failure e =>
                 UploadSpec.Failed500 e resp /\ calls = 3
             | Provider.Failure e1, Provider.Failure _, _ =>
                 UploadSpec.Failed500 e1 resp /\ calls = 2
             end
         end
     end).
Proof.
  intros Answered. unfold UploadHandler.handler.
  destruct isPost; cbn [negb].
  2:{ eexists _, _, _. split; [reflexivity|]. split; [lia|].
      split; [intros _; split; reflexivity|intros H; discriminate H]. }
  destruct form as [documentFiles|e].
  2:{ eexists _, _, _. split; [reflexivity|]. split; [lia|].
      split; [intros H; discriminate H|]. intros _. split; reflexivity. }
  destruct (Ingest.ingest readFileSync canUnlink parse stringify
              documentFiles) as [|docs|docs combined] eqn:E.
  - eexists _, _, _. split; [reflexivity|]. split; [lia|].
    split; [intros H; discriminate H|]. intros _. split; reflexivity.
  - eexists _, _, _. split; [reflexivity|]. split; [lia|].
    split; [intros H; discriminate H|]. intros _. split; reflexivity.
  - destruct o1 as [d|e1], o2 as [f|e2]; try destruct o3 as [g|e3];
      eexists _, _, _; (split; [reflexivity|]); (split; [lia|]);
      (split; [intros H; discriminate H|]); intros _;
      (split; [|reflexivity]);
      try reflexivity;
      eexists; (split; [reflexivity|]);
      cbn [UploadHandler.documentCount UploadHandler.processedFiles
           UploadHandler.formattedDocument UploadHandler.workflowDiagram
           UploadHandler.processMetrics];
      rewrite !map_map; repeat split.
Qed.

Lemma upload_handler_answers_witness :
  exists resp left calls,
    UploadHandler.handler (fun _ _ => Ok (FString "a,b")) (fun _ => true)
      (fun _ _ _ => Throw "no parser") (fun _ => EmptyString)
      (fun s => s) (fun _ => Diagram.defaultMetrics)
      (fun s => Diagram.extractWorkflowMetrics s) Merger.mergeMetrics
      false (Ok [])
      [Provider.Reply "x"; Provider.Reply "y"; Provider.Reply "z"] 0
    = (Ok resp, (left, calls)) /\ calls = 0.
Proof.
  destruct (upload_handler_answers (fun _ _ => Ok (FString "a,b"))
              (fun _ => true) (fun _ _ _ => Throw "no parser")
              (fun _ => EmptyString) (fun s => s)
              (fun _ => Diagram.defaultMetrics)
              (fun s => Diagram.extractWorkflowMetrics s) Merger.mergeMetrics
              false (Ok [])
              (Provider.Reply "x") (Provider.Reply "y") (Provider.Reply "z")
              []) as (resp & left & calls & E & _ & H & _).
  exists resp, left, calls. split; [exact E|]. exact (proj2 (H eq_refl)).
Defined.

(** X29: the diagram code that [generateWorkflow] returns is the whole
    answer of the provider when the answer holds no fence of three
    backquotes followed by [mermaid]; the function makes exactly one call
    of the provider and throws the error of that call when it fails. *)
Theorem workflow_without_fence
  (first : Provider.outcome) (w : list Provider.outcome) :
  let r := WorkflowGen.generateWorkflow (first :: w) 0 in
  snd r = (w, 1) /\
  match first with
  | Provider.Failure e => fst r = Throw e
  | Provider.Reply text =>
      exists wf,
        fst r = Ok wf /\
        WorkflowGen.diagram wf = WorkflowGen.diagramOf text /\
        (JS.includes (JS.chars text) (JS.chars "```mermaid") = false ->
         WorkflowGen.diagram wf = text)
  end.
Proof.
  intros r. split; [destruct first; reflexivity|].
  destruct first as [text|e]; [|reflexivity].
  eexists. split; [reflexivity|]. split; [reflexivity|].
  intros Hno. cbn [WorkflowGen.diagram]. unfold WorkflowGen.diagramOf.
  destruct (Regex.exec false WorkflowGen.mermaidRe (JS.chars text))
    as [m|] eqn:E; [|reflexivity].
  exfalso.
  apply FenceFacts.rsearch_within in E.
  destruct E as (pre & s' & st' & Es & Hm).
  unfold WorkflowGen.mermaidRe in Hm. cbn [Regex.rseq] in Hm.
  inversion Hm as [| | | |r1 r2 s0 s1 s2 H1 H2| | | | | | | |]; subst.
  apply (RegexFacts.Matches_lit false "```mermaid") in H1.
  destruct H1 as (u & (Hu & _) & Hsame).
  apply FenceFacts.SameText_exact in Hsame. subst u.
  cbn [Regex.rest] in Hu. rewrite Es, Hu in Hno.
  rewrite FenceFacts.includes_app in Hno. discriminate Hno.
Qed.

Lemma workflow_without_fence_witness :
  exists wf,
    fst (WorkflowGen.generateWorkflow [Provider.Reply "graph TD"] 0) = Ok wf
    /\ WorkflowGen.diagram wf = "graph TD".
Proof.
  destruct (workflow_without_fence (Provider.Reply "graph TD") [])
    as (_ & wf & E & _ & H).
  exists wf. split; [exact E|]. apply H. reflexivity.
Defined.
